(** * A shallow embedding of the allocator engine (allocator.c)

    The development follows the C source function by function.

    - [size_t] and [unsigned long] values are integers in [0, 2^64) and every
      run-time addition, subtraction and multiplication on them is wrapped
      with [wrap].
    - Addresses are integers; [NULL] is 0.  Pointer arithmetic is written out
      in bytes: [p + 1] on a [struct mem_block *] is [p + HB], on a [void *]
      it is [p + 1].
    - The header [allocator.h] is not part of the sources, so the numbers it
      fixes are parameters collected in [layout]: [HB] is
      [sizeof(struct mem_block)], [RB] is [sizeof(struct mem_region)] and
      [PG] is what [getpagesize()] returns.
    - Memory is a typed heap: a finite map from addresses to block headers
      and one from addresses to region headers.  Payload bytes are not
      stored.  A raw write ([memset]) is recorded in the trace, and every
      header whose bytes it touches is forgotten: the C program would read
      the written bytes back through the header fields, and what those mean
      depends on the field offsets of [allocator.h].  A read or write
      through NULL ends the run with [NullAccess].
    - The operating system is an oracle [os] that answers [mmap] and
      [munmap]; each request is recorded in the trace with its arguments.
    - The two mutexes are not modelled: every function runs alone. *)

From Stdlib Require Import ZArith Lia List.
From stdpp Require Import gmap strings list.

Local Open Scope Z_scope.

(** ** Machine integers and constants *)

Definition SIZE_MOD : Z := 2 ^ 64.
Definition wrap (z : Z) : Z := z mod SIZE_MOD.

Definition ALIGN_SZ : Z := 8.
Definition NULL : Z := 0.

(** ** Data *)

Record layout := {
  HB : Z;   (* sizeof(struct mem_block) *)
  RB : Z;   (* sizeof(struct mem_region) *)
  PG : Z    (* getpagesize() *)
}.

(** The fields of [struct mem_block] that allocator.c reads or writes. *)
Record mem_block := {
  block_number : Z;
  name : string;
  size : Z;
  free : bool;
  prev_block : Z;
  next_block : Z;
  next_free : Z
}.

(** The fields of [struct mem_region] that allocator.c reads or writes. *)
Record mem_region := {
  region_number : Z;
  next_region : Z
}.

(** What zero-filled memory reads as. *)
Definition zero_block : mem_block :=
  {| block_number := 0; name := ""; size := 0; free := false;
     prev_block := NULL; next_block := NULL; next_free := NULL |}.

Definition zero_region : mem_region :=
  {| region_number := 0; next_region := NULL |}.

Definition set_block_number (v : Z) (b : mem_block) : mem_block :=
  {| block_number := v; name := name b; size := size b; free := free b;
     prev_block := prev_block b; next_block := next_block b;
     next_free := next_free b |}.
Definition set_name (v : string) (b : mem_block) : mem_block :=
  {| block_number := block_number b; name := v; size := size b; free := free b;
     prev_block := prev_block b; next_block := next_block b;
     next_free := next_free b |}.
Definition set_size (v : Z) (b : mem_block) : mem_block :=
  {| block_number := block_number b; name := name b; size := v; free := free b;
     prev_block := prev_block b; next_block := next_block b;
     next_free := next_free b |}.
Definition set_free (v : bool) (b : mem_block) : mem_block :=
  {| block_number := block_number b; name := name b; size := size b; free := v;
     prev_block := prev_block b; next_block := next_block b;
     next_free := next_free b |}.
Definition set_prev_block (v : Z) (b : mem_block) : mem_block :=
  {| block_number := block_number b; name := name b; size := size b;
     free := free b; prev_block := v; next_block := next_block b;
     next_free := next_free b |}.
Definition set_next_block (v : Z) (b : mem_block) : mem_block :=
  {| block_number := block_number b; name := name b; size := size b;
     free := free b; prev_block := prev_block b; next_block := v;
     next_free := next_free b |}.
Definition set_next_free (v : Z) (b : mem_block) : mem_block :=
  {| block_number := block_number b; name := name b; size := size b;
     free := free b; prev_block := prev_block b; next_block := next_block b;
     next_free := v |}.

Definition set_region_number (v : Z) (r : mem_region) : mem_region :=
  {| region_number := v; next_region := next_region r |}.
Definition set_next_region (v : Z) (r : mem_region) : mem_region :=
  {| region_number := region_number r; next_region := v |}.

(** Calls that leave the process or write raw bytes. *)
Inductive event :=
| EMmap (len : Z) (res : option Z)          (* mmap(NULL, len, ...) and its answer *)
| EMunmap (addr len : Z) (ok : bool)        (* munmap(addr, len) and its answer *)
| EMemset (addr byte len : Z).              (* memset(addr, byte, len) *)

(** The operating system: its answers may depend on everything requested so
    far.  [None] from [os_mmap] is [MAP_FAILED]. *)
Record os := {
  os_mmap : list event -> Z -> option Z;
  os_munmap : list event -> Z -> Z -> bool
}.

(** The environment variables read on each call.  [ALLOCATOR_SCRIBBLE] holds
    what [atoi] makes of the variable when it is set. *)
Record env := {
  ALLOCATOR_ALGORITHM : option string;
  ALLOCATOR_SCRIBBLE : option Z
}.

(** The globals of allocator.c together with the heap and the trace. *)
Record state := {
  g_regions : Z;
  g_allocations : Z;
  g_region_head : Z;
  g_region_tail : Z;
  g_free_list : Z;
  blocks : gmap Z mem_block;
  regions : gmap Z mem_region;
  trace : list event
}.

Definition initial_state : state :=
  {| g_regions := 0; g_allocations := 0; g_region_head := NULL;
     g_region_tail := NULL; g_free_list := NULL; blocks := ∅; regions := ∅;
     trace := [] |}.

Definition with_g_regions (v : Z) (s : state) : state :=
  {| g_regions := v; g_allocations := g_allocations s;
     g_region_head := g_region_head s; g_region_tail := g_region_tail s;
     g_free_list := g_free_list s; blocks := blocks s; regions := regions s;
     trace := trace s |}.
Definition with_g_allocations (v : Z) (s : state) : state :=
  {| g_regions := g_regions s; g_allocations := v;
     g_region_head := g_region_head s; g_region_tail := g_region_tail s;
     g_free_list := g_free_list s; blocks := blocks s; regions := regions s;
     trace := trace s |}.
Definition with_g_region_head (v : Z) (s : state) : state :=
  {| g_regions := g_regions s; g_allocations := g_allocations s;
     g_region_head := v; g_region_tail := g_region_tail s;
     g_free_list := g_free_list s; blocks := blocks s; regions := regions s;
     trace := trace s |}.
Definition with_g_region_tail (v : Z) (s : state) : state :=
  {| g_regions := g_regions s; g_allocations := g_allocations s;
     g_region_head := g_region_head s; g_region_tail := v;
     g_free_list := g_free_list s; blocks := blocks s; regions := regions s;
     trace := trace s |}.
Definition with_g_free_list (v : Z) (s : state) : state :=
  {| g_regions := g_regions s; g_allocations := g_allocations s;
     g_region_head := g_region_head s; g_region_tail := g_region_tail s;
     g_free_list := v; blocks := blocks s; regions := regions s;
     trace := trace s |}.
Definition with_blocks (v : gmap Z mem_block) (s : state) : state :=
  {| g_regions := g_regions s; g_allocations := g_allocations s;
     g_region_head := g_region_head s; g_region_tail := g_region_tail s;
     g_free_list := g_free_list s; blocks := v; regions := regions s;
     trace := trace s |}.
Definition with_regions (v : gmap Z mem_region) (s : state) : state :=
  {| g_regions := g_regions s; g_allocations := g_allocations s;
     g_region_head := g_region_head s; g_region_tail := g_region_tail s;
     g_free_list := g_free_list s; blocks := blocks s; regions := v;
     trace := trace s |}.
Definition with_trace (v : list event) (s : state) : state :=
  {| g_regions := g_regions s; g_allocations := g_allocations s;
     g_region_head := g_region_head s; g_region_tail := g_region_tail s;
     g_free_list := g_free_list s; blocks := blocks s; regions := regions s;
     trace := v |}.

(** ** The monad of the embedding: state, failure and fuel

    The loops of the source walk pointer chains, which need not end.  Each
    loop takes a bound [fuel] on its number of iterations and reports
    [OutOfFuel] when the bound is reached with the loop still running. *)

Inductive failure :=
| NullAccess    (* a read or write through NULL: the process dies *)
| NoHeader      (* a header is read where the model holds none *)
| OutOfFuel.    (* a loop ran longer than the fuel allows *)

Inductive outcome (A : Type) :=
| Done (a : A) (s : state)
| Stuck (f : failure).
Arguments Done {A} a s.
Arguments Stuck {A} f.

Definition M (A : Type) : Type := state -> outcome A.

Definition ret {A} (a : A) : M A := fun s => Done a s.
Definition bind {A B} (m : M A) (k : A -> M B) : M B :=
  fun s => match m s with
           | Done a s' => k a s'
           | Stuck f => Stuck f
           end.
Definition stuck {A} (f : failure) : M A := fun _ => Stuck f.
Definition gets {A} (f : state -> A) : M A := fun s => Done (f s) s.
Definition modify (f : state -> state) : M unit := fun s => Done tt (f s).

Declare Scope alloc_scope.
Delimit Scope alloc_scope with alloc.
Notation "x <- m ;; k" := (bind m (fun x => k))
  (at level 100, m at next level, right associativity) : alloc_scope.
Notation "m ;;; k" := (bind m (fun _ => k))
  (at level 100, right associativity) : alloc_scope.
Local Open Scope alloc_scope.

(** ** Heap primitives *)

(** Read the block header at [a]. *)
Definition load (a : Z) : M mem_block :=
  fun s =>
    if a =? NULL then Stuck NullAccess
    else match blocks s !! a with
         | Some b => Done b s
         | None => Stuck NoHeader
         end.

(** Write one field of the block header at [a]. *)
Definition store (a : Z) (f : mem_block -> mem_block) : M unit :=
  fun s =>
    if a =? NULL then Stuck NullAccess
    else match blocks s !! a with
         | Some b => Done tt (with_blocks (<[a := f b]> (blocks s)) s)
         | None => Stuck NoHeader
         end.

(** Write one field of a block header that is being laid out at [a]: where
    the model holds no header yet, the other fields read as zero, which is
    what a fresh anonymous mapping contains. *)
Definition init (a : Z) (f : mem_block -> mem_block) : M unit :=
  fun s =>
    if a =? NULL then Stuck NullAccess
    else Done tt (with_blocks
                    (<[a := f (default zero_block (blocks s !! a))]> (blocks s)) s).

(** The same two kinds of write for region headers. *)
Definition store_region (a : Z) (f : mem_region -> mem_region) : M unit :=
  fun s =>
    if a =? NULL then Stuck NullAccess
    else match regions s !! a with
         | Some r => Done tt (with_regions (<[a := f r]> (regions s)) s)
         | None => Stuck NoHeader
         end.

Definition init_region (a : Z) (f : mem_region -> mem_region) : M unit :=
  fun s =>
    if a =? NULL then Stuck NullAccess
    else Done tt (with_regions
                    (<[a := f (default zero_region (regions s !! a))]> (regions s)) s).

(** [overlaps lo n a w]: the [n] bytes from [lo] meet the [w] bytes from [a]. *)
Definition overlaps (lo n a w : Z) : bool :=
  (0 <? n) && (a <? lo + n) && (lo <? a + w).

Definition log (e : event) : M unit :=
  modify (fun s => with_trace (trace s ++ [e]) s).

Section Allocator.

Variable L : layout.
Variable OS : os.
Variable ENV : env.

(** [memset(p, v, n)]: a write of [n > 0] bytes through NULL kills the
    process; any other write is recorded, and the headers it writes over are
    lost. *)
Definition memset (p v n : Z) : M unit :=
  if (p =? NULL) && (0 <? n) then stuck NullAccess else
  modify (fun s =>
            with_blocks (filter (fun kv => overlaps p n kv.1 (HB L) = false) (blocks s))
              (with_regions
                 (filter (fun kv => overlaps p n kv.1 (RB L) = false) (regions s)) s));;;
  log (EMemset p v n).

(** [mmap(NULL, len, PROT_READ | PROT_WRITE, MAP_PRIVATE | MAP_ANONYMOUS, -1, 0)] *)
Definition mmap (len : Z) : M (option Z) :=
  fun s => let r := os_mmap OS (trace s) len in
           Done r (with_trace (trace s ++ [EMmap len r]) s).

(** [munmap(addr, len)]; [true] is the return value 0. *)
Definition munmap (addr len : Z) : M bool :=
  fun s => let r := os_munmap OS (trace s) addr len in
           Done r (with_trace (trace s ++ [EMunmap addr len r]) s).

(** ** split_block (allocator.c, lines 60-82) *)

Definition split_block (block sz : Z) : M Z :=
  if block =? NULL then ret NULL else
  b <- load block;;
  if (0 <? sz) && (wrap (sz + HB L) <? size b) then
    let updated_sz := wrap (size b - sz) in
    if sz <? HB L + ALIGN_SZ then ret NULL
    else if updated_sz <? HB L + ALIGN_SZ then ret NULL
    else
      let new_block := block + wrap (size b - sz) in
      init new_block (set_size sz);;;
      n <- gets g_allocations;;
      modify (with_g_allocations (wrap (n + 1)));;;
      store new_block (set_block_number n);;;
      store new_block (set_free true);;;
      store new_block (set_prev_block block);;;
      b1 <- load block;;
      store new_block (set_next_block (next_block b1));;;
      store new_block (set_size sz);;;
      store block (set_next_block new_block);;;
      store block (set_size updated_sz);;;
      ret new_block
  else ret NULL.

(** ** merge_block (lines 112-134): the backward loop, the forward loop *)

Fixpoint merge_prev_loop (fuel : nat) (block prev_merge : Z) : M Z :=
  if prev_merge =? NULL then ret block else
  match fuel with
  | O => stuck OutOfFuel
  | S k =>
      p <- load prev_merge;;
      if negb (free p) then ret block else
      b <- load block;;
      store prev_merge (set_size (wrap (size p + size b)));;;
      b' <- load block;;
      store prev_merge (set_next_block (next_block b'));;;
      p' <- load prev_merge;;
      merge_prev_loop k prev_merge (prev_block p')
  end.

Fixpoint merge_next_loop (fuel : nat) (block next_merge : Z) : M Z :=
  if next_merge =? NULL then ret block else
  match fuel with
  | O => stuck OutOfFuel
  | S k =>
      n <- load next_merge;;
      if negb (free n) then ret block else
      b <- load block;;
      store next_merge (set_size (wrap (size n + size b)));;;
      b' <- load block;;
      store next_merge (set_prev_block (prev_block b'));;;
      n' <- load next_merge;;
      merge_next_loop k next_merge (next_block n')
  end.

Definition merge_block (fuel : nat) (block : Z) : M Z :=
  b <- load block;;
  if negb (free b) then ret NULL else
  block1 <- merge_prev_loop fuel block (prev_block b);;
  b1 <- load block1;;
  merge_next_loop fuel block1 (next_block b1).

(** ** first_fit, worst_fit, best_fit (lines 144-204) *)

Fixpoint first_fit_loop (fuel : nat) (sz curr : Z) : M Z :=
  if curr =? NULL then ret NULL else
  match fuel with
  | O => stuck OutOfFuel
  | S k =>
      c <- load curr;;
      if sz <=? size c then ret curr
      else first_fit_loop k sz (next_free c)
  end.

Definition first_fit (fuel : nat) (sz : Z) : M Z :=
  curr <- gets g_free_list;;
  first_fit_loop fuel sz curr.

Fixpoint worst_fit_loop (fuel : nat) (sz curr largest_free_region : Z) : M Z :=
  if curr =? NULL then ret largest_free_region else
  match fuel with
  | O => stuck OutOfFuel
  | S k =>
      c <- load curr;;
      largest <- (if sz <=? size c then
         if largest_free_region =? NULL then ret curr
         else l <- load largest_free_region;;
              ret (if size l <=? size c then curr else largest_free_region)
       else ret largest_free_region);;
      worst_fit_loop k sz (next_free c) largest
  end.

Definition worst_fit (fuel : nat) (sz : Z) : M Z :=
  curr <- gets g_free_list;;
  worst_fit_loop fuel sz curr NULL.

Fixpoint best_fit_loop (fuel : nat) (sz curr perfect_free_region : Z) : M Z :=
  if curr =? NULL then ret perfect_free_region else
  match fuel with
  | O => stuck OutOfFuel
  | S k =>
      c <- load curr;;
      perfect <- (if sz <=? size c then
         if perfect_free_region =? NULL then ret curr
         else p <- load perfect_free_region;;
              ret (if size c <=? size p then curr else perfect_free_region)
       else ret perfect_free_region);;
      best_fit_loop k sz (next_free c) perfect
  end.

Definition best_fit (fuel : nat) (sz : Z) : M Z :=
  curr <- gets g_free_list;;
  best_fit_loop fuel sz curr NULL.

(** ** reuse (lines 215-261) *)

(** The loop that takes [reused_block] out of the free list when it is not
    the head. *)
Fixpoint unlink_loop (fuel : nat) (reused_block curr : Z) : M unit :=
  if curr =? NULL then ret tt else
  match fuel with
  | O => stuck OutOfFuel
  | S k =>
      c <- load curr;;
      (if next_free c =? reused_block then
         r <- load reused_block;;
         store curr (set_next_free (next_free r))
       else ret tt);;;
      c' <- load curr;;
      unlink_loop k reused_block (next_free c')
  end.

Definition algo : string :=
  match ALLOCATOR_ALGORITHM ENV with
  | None => "first_fit"
  | Some a => a
  end.

Definition reuse (fuel : nat) (sz : Z) : M Z :=
  reused_block <-
    (if String.eqb algo "first_fit" then first_fit fuel sz
     else if String.eqb algo "best_fit" then best_fit fuel sz
     else if String.eqb algo "worst_fit" then worst_fit fuel sz
     else ret NULL);;
  if reused_block =? NULL then ret NULL else
  rb <- load reused_block;;
  split_reused_block <- split_block reused_block (wrap (size rb - sz));;
  curr <- gets g_free_list;;
  (if curr =? reused_block then
     c <- load curr;;
     modify (with_g_free_list (next_free c))
   else unlink_loop fuel reused_block curr);;;
  fl <- gets g_free_list;;
  (if fl =? NULL then modify (with_g_free_list split_reused_block)
   else if split_reused_block =? NULL then ret tt
   else store split_reused_block (set_next_free fl);;;
        modify (with_g_free_list split_reused_block));;;
  store reused_block (set_free false);;;
  ret reused_block.

(** ** align (lines 272-279)

    In C a zero [alignment] is a division by zero; the callers pass
    [ALIGN_SZ] and the page size. *)

Definition align (orig_sz alignment : Z) : Z :=
  let new_sz := wrap ((orig_sz / alignment) * alignment) in
  if negb (orig_sz mod alignment =? 0) then wrap (new_sz + alignment)
  else new_sz.

(** ** malloc_impl (lines 290-361) *)

Definition scribble_check : Z :=
  match ALLOCATOR_SCRIBBLE ENV with
  | None => 0
  | Some v => v
  end.

(** The part of [malloc_impl] after the free list gave nothing. *)
Definition malloc_miss (sz : Z) (nm : option string) (actual_sz aligned_sz : Z) : M Z :=
  let map_sz := align (wrap (aligned_sz + RB L)) (PG L) in
  r <- mmap map_sz;;
  match r with
  | None => ret NULL
  | Some region =>
      n <- gets g_regions;;
      init_region region (set_region_number n);;;
      modify (with_g_regions (wrap (n + 1)));;;
      h <- gets g_region_head;;
      t <- gets g_region_tail;;
      (if (h =? NULL) && (t =? NULL) then
         modify (with_g_region_head region);;;
         modify (with_g_region_tail region)
       else
         store_region t (set_next_region region);;;
         modify (with_g_region_tail region));;;
      let block := region + HB L in
      init block (set_free false);;;
      store block (set_size (wrap (map_sz - RB L)));;;
      a <- gets g_allocations;;
      store block (set_block_number a);;;
      modify (with_g_allocations (wrap (a + 1)));;;
      (match nm with
       | Some v => store block (set_name v)
       | None => ret tt
       end);;;
      b <- load block;;
      new_block <- split_block block (wrap (size b - actual_sz));;
      fl <- gets g_free_list;;
      (if fl =? NULL then modify (with_g_free_list new_block)
       else store new_block (set_next_free fl);;;
            modify (with_g_free_list new_block));;;
      (if scribble_check =? 1 then memset (block + 1) 170 aligned_sz
       else ret tt);;;
      ret (block + HB L)
  end.

Definition malloc_impl (fuel : nat) (sz : Z) (nm : option string) : M Z :=
  let actual_sz := wrap (sz + RB L) in
  let aligned_sz := align actual_sz ALIGN_SZ in
  reused_block <- reuse fuel aligned_sz;;
  if negb (reused_block =? NULL) then
    (match nm with
     | Some v => store reused_block (set_name v)
     | None => stuck NullAccess
     end);;;
    (if scribble_check =? 1 then memset (reused_block + 1) 170 sz
     else ret tt);;;
    ret (reused_block + HB L)
  else malloc_miss sz nm actual_sz aligned_sz.

(** ** free_impl (lines 369-401)

    [munmap] failing only prints a message; both outcomes return. *)

Definition free_impl (ptr : Z) : M unit :=
  if ptr =? NULL then ret tt else
  let block := ptr - HB L in
  store block (set_free true);;;
  fl <- gets g_free_list;;
  (if fl =? NULL then modify (with_g_free_list block)
   else store block (set_next_free fl);;;
        modify (with_g_free_list block));;;
  let region := block - 1 in
  b <- load block;;
  munmap region (wrap (size b + RB L));;;
  ret tt.

(** ** calloc_impl and realloc_impl (lines 413-441) *)

Definition calloc_impl (fuel : nat) (nmemb sz : Z) (nm : option string) : M Z :=
  ptr <- malloc_impl fuel (wrap (nmemb * sz)) nm;;
  memset ptr 0 (wrap (nmemb * sz));;;
  ret ptr.

Definition realloc_impl (fuel : nat) (ptr sz : Z) (nm : option string) : M Z :=
  if ptr =? NULL then malloc_impl fuel sz nm
  else if sz =? 0 then free_impl ptr;;; ret NULL
  else ret NULL.

End Allocator.

(** ** Sample parameters for concrete runs

    [allocator.h] being absent, the concrete runs below fix one plausible
    64-bit layout: an 80-byte block header, a 16-byte region header and
    4 KiB pages.  The general lemmas hold for every layout. *)

Definition sample_layout : layout := {| HB := 80; RB := 16; PG := 4096 |}.

Fixpoint mmaps_granted (tr : list event) : Z :=
  match tr with
  | [] => 0
  | EMmap _ (Some _) :: tr' => 1 + mmaps_granted tr'
  | _ :: tr' => mmaps_granted tr'
  end.

(** An operating system that grants every mapping, each at a fresh
    page-aligned address, and refuses to unmap at an address that is not
    page-aligned (EINVAL). *)
Definition granting_os : os :=
  {| os_mmap := fun tr _ => Some (65536 + 1048576 * mmaps_granted tr);
     os_munmap := fun _ addr _ => addr mod 4096 =? 0 |}.

(** An operating system that refuses every request. *)
Definition refusing_os : os :=
  {| os_mmap := fun _ _ => None;
     os_munmap := fun _ _ _ => false |}.

Definition default_env : env :=
  {| ALLOCATOR_ALGORITHM := None; ALLOCATOR_SCRIBBLE := None |}.

Definition scribble_env : env :=
  {| ALLOCATOR_ALGORITHM := None; ALLOCATOR_SCRIBBLE := Some 1 |}.

Definition algorithm_env (a : string) : env :=
  {| ALLOCATOR_ALGORITHM := Some a; ALLOCATOR_SCRIBBLE := None |}.

(** The largest multiple of [g] that a [size_t] can hold. *)
Definition max_multiple (g : Z) : Z := ((SIZE_MOD - 1) / g) * g.

(** What the specification asks of [split(b, t)]: the head that remains and
    the tail that is cut off are each at least a header plus one alignment
    unit. *)
Definition splittable (L : layout) (b : mem_block) (t : Z) : Prop :=
  HB L + ALIGN_SZ <= size b - t /\ HB L + ALIGN_SZ <= t.

(** The header that [split_block] lays out at the tail's address [nb]: the
    fields it does not write keep what the memory held. *)
Definition tail_header (s : state) (block nb t : Z) (b : mem_block) : mem_block :=
  let old := default zero_block (blocks s !! nb) in
  {| block_number := g_allocations s; name := name old; size := t;
     free := true; prev_block := block; next_block := next_block b;
     next_free := next_free old |}.

(** The state a successful [split_block] leaves. *)
Definition split_state (s : state) (block t : Z) (b : mem_block) : state :=
  let nb := block + (size b - t) in
  with_blocks
    (<[block := set_size (size b - t) (set_next_block nb b)]>
       (<[nb := tail_header s block nb t b]> (blocks s)))
    (with_g_allocations (wrap (g_allocations s + 1)) s).

(** A single used block of 4080 bytes, as [malloc_impl] lays it out at the
    start of a fresh one-page region mapped at 65536. *)
Definition whole_block : mem_block :=
  {| block_number := 0; name := "x"; size := 4080; free := false;
     prev_block := NULL; next_block := NULL; next_free := NULL |}.

Definition one_block_state : state :=
  with_blocks {[ 65616 := whole_block ]}
    (with_g_allocations 1 initial_state).

(** The state a computation ends in (the starting state when it gets stuck). *)
Definition exec {A} (m : M A) (s : state) : state :=
  match m s with
  | Done _ s' => s'
  | Stuck _ => s
  end.

(** The engine under the sample layout, the granting operating system and
    the default environment (first-fit, no debug fill). *)
Definition allocate (sz : Z) (nm : string) : M Z :=
  malloc_impl sample_layout granting_os default_env 16 sz (Some nm).
Definition release (ptr : Z) : M unit :=
  free_impl sample_layout granting_os ptr.

(** [allocate(104,"a")], [allocate(104,"b")], [allocate(3824,"c")], then
    [release] of the first two results: one region holding the free blocks
    "a" and "b" of 120 bytes each, followed by the used block "c". *)
Definition two_free_one_used : state :=
  exec (a <- allocate 104 "a";;
        b <- allocate 104 "b";;
        c <- allocate 3824 "c";;
        release a;;;
        release b) initial_state.

(** The sum of the block lengths met along the region-order chain that
    starts at [a]; [None] when a header on the way cannot be read. *)
Fixpoint chain_length_sum (fuel : nat) (m : gmap Z mem_block) (a : Z) : option Z :=
  if a =? NULL then Some 0 else
  match fuel with
  | O => None
  | S k =>
      match m !! a with
      | None => None
      | Some b =>
          match chain_length_sum k m (next_block b) with
          | None => None
          | Some n => Some (size b + n)
          end
      end
  end.

(** The engine with the debug fill switched on. *)
Definition allocate_scribbling (sz : Z) (nm : string) : M Z :=
  malloc_impl sample_layout granting_os scribble_env 16 sz (Some nm).

(** ** Predicates used in the statements *)

(** [free_chain m p l]: following [next_free] from [p] through the headers
    of [m] visits exactly the addresses [l] and then reaches NULL. *)
Inductive free_chain (m : gmap Z mem_block) : Z -> list Z -> Prop :=
| free_chain_nil : free_chain m NULL []
| free_chain_cons a b l :
    a <> NULL -> m !! a = Some b -> free_chain m (next_free b) l ->
    free_chain m a (a :: l).

(** The strategy names [reuse] knows. *)
Definition recognised (a : string) : Prop :=
  a = "first_fit" \/ a = "best_fit" \/ a = "worst_fit".

(** The region list and the trace are the same in [s] and [s']. *)
Definition same_regions (s s' : state) : Prop :=
  g_regions s' = g_regions s /\
  g_region_head s' = g_region_head s /\
  g_region_tail s' = g_region_tail s /\
  regions s' = regions s /\
  trace s' = trace s.

(** Every header of [s] is still there in [s'], with the same free-list
    link. *)
Definition keeps_links (s s' : state) : Prop :=
  forall a b, blocks s !! a = Some b ->
              exists b', blocks s' !! a = Some b' /\ next_free b' = next_free b.

(** The length [malloc_impl] asks [mmap] for. *)
Definition map_sz (L : layout) (sz : Z) : Z :=
  align (wrap (align (wrap (sz + RB L)) ALIGN_SZ + RB L)) (PG L).

(** The block at [a] is at least [sz] bytes long. *)
Definition qualifies (s : state) (sz a : Z) : Prop :=
  exists b, blocks s !! a = Some b /\ sz <= size b.

(** Every header of [s] is still there in [s']. *)
Definition keeps_headers (s s' : state) : Prop :=
  forall a, is_Some (blocks s !! a) -> is_Some (blocks s' !! a).

(** [allocate(100,"x")] on the empty engine followed by [release] of its
    result. *)
Definition freed_once : state :=
  exec (p <- allocate 100 "x";; release p) initial_state.

(** The events the debug fill of the source adds to the trace when the
    header of the served block is at [block]: [n] is the payload size on the
    reuse path and the aligned total on the miss path. *)
Definition fill_events (ENV : env) (block n : Z) : list event :=
  if scribble_check ENV =? 1 then [EMemset (block + 1) 170 n] else [].

(** What a step that works on block headers only leaves alone. *)
Definition frame (s s' : state) : Prop :=
  same_regions s s' /\ g_free_list s' = g_free_list s /\ keeps_headers s s'.

(** The region list can take one more region: it is empty, or its tail
    pointer leads to a region header. *)
Definition region_list_ok (s : state) : Prop :=
  (g_region_head s = NULL /\ g_region_tail s = NULL) \/
  (g_region_tail s <> NULL /\ is_Some (regions s !! g_region_tail s)).

(** The length recorded in the header at [a] (0 where there is none). *)
Definition block_size (s : state) (a : Z) : Z :=
  default 0 (size <$> blocks s !! a).

(** [r] is what a scan of [scanned] for the smallest block of at least [sz]
    bytes ends with when a later block of equal size replaces an earlier
    one: nothing if none qualifies, otherwise the last of the smallest. *)
Definition last_smallest (s : state) (sz : Z) (scanned : list Z) (r : Z) : Prop :=
  (r = NULL /\ forall a, a ∈ scanned -> ~ qualifies s sz a) \/
  (r <> NULL /\ qualifies s sz r /\
   exists before after,
     scanned = before ++ r :: after /\
     (forall a, a ∈ before -> qualifies s sz a -> block_size s r <= block_size s a) /\
     (forall a, a ∈ after -> qualifies s sz a -> block_size s r < block_size s a)).

(** The same for the largest block. *)
Definition last_largest (s : state) (sz : Z) (scanned : list Z) (r : Z) : Prop :=
  (r = NULL /\ forall a, a ∈ scanned -> ~ qualifies s sz a) \/
  (r <> NULL /\ qualifies s sz r /\
   exists before after,
     scanned = before ++ r :: after /\
     (forall a, a ∈ before -> qualifies s sz a -> block_size s a <= block_size s r) /\
     (forall a, a ∈ after -> qualifies s sz a -> block_size s a < block_size s r)).

(** * Further definitions: the rest of allocator.c and allocator_overrides.c *)

(** [r] is what a scan of [scanned] that stops at the first block of at
    least [sz] bytes ends with. *)
Definition first_qualifying (s : state) (sz : Z) (scanned : list Z) (r : Z) : Prop :=
  (r = NULL /\ forall a, a ∈ scanned -> ~ qualifies s sz a) \/
  (r <> NULL /\ qualifies s sz r /\
   exists before after,
     scanned = before ++ r :: after /\
     forall a, a ∈ before -> ~ qualifies s sz a).

(** The header [malloc_impl] writes at the start of a fresh region before it
    splits: the block spans [usable] bytes. *)
Definition region_block (s : state) (nm : option string) (usable : Z) : mem_block :=
  {| block_number := g_allocations s; name := default "" nm; size := usable;
     free := false; prev_block := NULL; next_block := NULL; next_free := NULL |}.

(** What [malloc_impl] does with the block of a fresh region once its header
    is written: split, push the tail, fill, return. *)
Definition malloc_miss_rest (L : layout) (ENV : env) (block usable actual_sz aligned_sz : Z)
  : M Z :=
  (new_block <- split_block L block (wrap (usable - actual_sz));;
   fl <- gets g_free_list;;
   (if fl =? NULL then modify (with_g_free_list new_block)
    else store new_block (set_next_free fl);;;
         modify (with_g_free_list new_block));;;
   (if scribble_check ENV =? 1 then memset L (block + 1) 170 aligned_sz
    else ret tt);;;
   ret (block + HB L))%alloc.

(** The request is large enough, and the region left over is large enough,
    for [malloc_impl] to cut the block of a fresh region in two. *)
Definition carves (L : layout) (sz : Z) : Prop :=
  HB L + ALIGN_SZ <= sz + RB L /\
  HB L + ALIGN_SZ <= map_sz L sz - RB L - (sz + RB L).

(** Nothing in the size computations of [malloc_impl] wraps around. *)
Definition no_wrap (L : layout) (sz : Z) : Prop :=
  0 < HB L /\ 0 <= RB L /\ 0 < PG L /\ 0 <= sz /\
  sz + RB L + RB L + ALIGN_SZ + PG L <= SIZE_MOD.

(** The operating system answers the request of [malloc_impl] for [sz]
    bytes with a mapping at [region], the region list can take it, and the
    model holds no header where the two blocks of the region will go. *)
Definition grants (L : layout) (OS : os) (s : state) (sz region : Z) : Prop :=
  os_mmap OS (trace s) (map_sz L sz) = Some region /\
  0 < region /\
  region_list_ok s /\
  blocks s !! (region + HB L) = None /\
  blocks s !! (region + HB L + (sz + RB L)) = None.

(** The two headers of a freshly carved region. *)
Definition served_header (L : layout) (s : state) (nm : option string)
    (sz region : Z) : mem_block :=
  {| block_number := g_allocations s; name := default "" nm; size := sz + RB L;
     free := false; prev_block := NULL;
     next_block := region + HB L + (sz + RB L); next_free := NULL |}.

Definition tail_of_region (L : layout) (s : state) (sz region : Z) : mem_block :=
  {| block_number := wrap (g_allocations s + 1); name := "";
     size := map_sz L sz - RB L - (sz + RB L);
     free := true; prev_block := region + HB L; next_block := NULL;
     next_free := NULL |}.

(** ** allocator_overrides.c: the four standard entry points, each a call of
    the engine with the empty string as tag *)

Module Overrides.
Section Entry.

Variable L : layout.
Variable OS : os.
Variable ENV : env.

Definition malloc (fuel : nat) (sz : Z) : M Z :=
  malloc_impl L OS ENV fuel sz (Some "").

Definition calloc (fuel : nat) (nmemb sz : Z) : M Z :=
  calloc_impl L OS ENV fuel nmemb sz (Some "").

Definition realloc (fuel : nat) (ptr sz : Z) : M Z :=
  realloc_impl L OS ENV fuel ptr sz (Some "").

Definition free (ptr : Z) : M unit :=
  free_impl L OS ptr.

End Entry.
End Overrides.

(** ** Runs of free blocks in region order *)

(** A neighbour at which a merge stops: the region edge or a used block. *)
Definition stops (m : gmap Z mem_block) (p : Z) : Prop :=
  p = NULL \/ exists b, m !! p = Some b /\ free b = false.

(** [back_run m a l p0]: following [prev_block] from [a] visits the free
    blocks [l] and then reaches [p0], where a merge stops. *)
Inductive back_run (m : gmap Z mem_block) : Z -> list Z -> Z -> Prop :=
| back_run_stop p0 : stops m p0 -> back_run m p0 [] p0
| back_run_step a b l p0 :
    a <> NULL -> m !! a = Some b -> free b = true ->
    back_run m (prev_block b) l p0 ->
    back_run m a (a :: l) p0.

(** [fwd_run m a l n0]: the same along [next_block]. *)
Inductive fwd_run (m : gmap Z mem_block) : Z -> list Z -> Z -> Prop :=
| fwd_run_stop n0 : stops m n0 -> fwd_run m n0 [] n0
| fwd_run_step a b l n0 :
    a <> NULL -> m !! a = Some b -> free b = true ->
    fwd_run m (next_block b) l n0 ->
    fwd_run m a (a :: l) n0.

(** The lengths recorded for the blocks [l], added up. *)
Definition sum_sizes (s : state) (l : list Z) : Z :=
  foldr (fun a acc => block_size s a + acc) 0 l.


(** ** print_memory (allocator.c, lines 460-480)

    [printf] writes to the standard output; the lines written are the value
    the embedding returns, one record for each call of [printf].  The two
    [while] loops take fuel, as all loops here. *)

Inductive print_line :=
| RegionLine : Z -> Z -> print_line
    (** [REGION region_number] <region> *)
| BlockLine : Z -> Z -> Z -> string -> Z -> string -> print_line.
    (** [BLOCK] <block_number> <curr_block>-<curr_block + size> <'name'>
        <size> [free_str] *)

Definition load_region (a : Z) : M mem_region :=
  fun s =>
    if a =? NULL then Stuck NullAccess
    else match regions s !! a with
         | Some r => Done r s
         | None => Stuck NoHeader
         end.

Section Printing.
Variable L : layout.

Fixpoint print_blocks (fuel : nat) (curr_block : Z) : M (list print_line) :=
  if curr_block =? NULL then ret [] else
  match fuel with
  | O => stuck OutOfFuel
  | S k =>
      c <- load curr_block;;
      let free_str := if free c then "FREE" else "USED" in
      rest <- print_blocks k (next_block c);;
      ret (BlockLine (block_number c) curr_block (curr_block + size c)
             (name c) (size c) free_str :: rest)
  end%alloc.

(** [region + 1] on a [struct mem_region *] is [RB] bytes on. *)
Fixpoint print_regions (fuel : nat) (region : Z) : M (list print_line) :=
  if region =? NULL then ret [] else
  match fuel with
  | O => stuck OutOfFuel
  | S k =>
      r <- load_region region;;
      bl <- print_blocks k (region + RB L);;
      rest <- print_regions k (next_region r);;
      ret (RegionLine (region_number r) region :: bl ++ rest)
  end%alloc.

Definition print_memory (fuel : nat) : M (list print_line) :=
  (region <- gets g_region_head;;
   print_regions fuel region)%alloc.
End Printing.

(** The state has no region yet. *)
Definition no_region (s : state) : Prop :=
  g_region_head s = NULL /\ g_region_tail s = NULL /\ regions s = ∅.

(** What [malloc_impl] writes at the start of the first region it maps. *)
Definition first_region (s : state) : mem_region :=
  {| region_number := g_regions s; next_region := NULL |}.

(** [m], when it returns, has left the region list and the trace as they
    were. *)
Definition keeps_regions {A} (m : M A) : Prop :=
  forall s a s', m s = Done a s' -> same_regions s s'.

(** A layout in which the two headers have the same size. *)
Definition equal_headers_layout : layout := {| HB := 80; RB := 80; PG := 4096 |}.

(** The list [l] with the address [rb] taken out. *)
Definition without_block (rb : Z) (l : list Z) : list Z :=
  filter (fun a => a <> rb) l.

(** The part of [reuse] after the split: the served block leaves the free
    list, the tail of the split, if there is one, is pushed, and the served
    block is marked used. *)
Definition reuse_rest (fuel : nat) (reused_block split_reused_block : Z) : M Z :=
  curr <- gets g_free_list;;
  (if curr =? reused_block then
     c <- load curr;;
     modify (with_g_free_list (next_free c))
   else unlink_loop fuel reused_block curr);;;
  fl <- gets g_free_list;;
  (if fl =? NULL then modify (with_g_free_list split_reused_block)
   else if split_reused_block =? NULL then ret tt
   else store split_reused_block (set_next_free fl);;;
        modify (with_g_free_list split_reused_block));;;
  store reused_block (set_free false);;;
  ret reused_block.

(** [b'] is [b] with another free-list link. *)
Definition relinked (b b' : mem_block) : Prop :=
  b' = set_next_free (next_free b') b.

(** Every header of [s] is still there in [s'], the same but for its
    free-list link. *)
Definition only_links_change (s s' : state) : Prop :=
  forall a b, blocks s !! a = Some b ->
              exists b', blocks s' !! a = Some b' /\ relinked b b'.

(** ** The region list *)

(** [region_chain m p l]: following [next_region] from [p] through the
    region headers of [m] visits exactly [l] and then reaches NULL. *)
Inductive region_chain (m : gmap Z mem_region) : Z -> list Z -> Prop :=
| region_chain_nil : region_chain m NULL []
| region_chain_cons a r l :
    a <> NULL -> m !! a = Some r -> region_chain m (next_region r) l ->
    region_chain m a (a :: l).

(** The regions [l] are the region list of [s], from head to tail. *)
Definition region_list (s : state) (l : list Z) : Prop :=
  region_chain (regions s) (g_region_head s) l /\
  g_region_tail s = List.last l NULL.

(** [allocate(100,"x")], [release], [allocate(50,"y")], [allocate(3944,"z")]
    on the empty engine: "y" has the block at 65616, "z" the block at 65732,
    and the free list is empty. *)
Definition two_used_blocks : state :=
  exec (p <- allocate 100 "x";;
        release p;;;
        q <- allocate 50 "y";;
        allocate 3944 "z") initial_state.

(** * Where the embedding stands for the memory of the process

    A header of [blocks] or [regions] stands for bytes of the process.  The
    primitives above do not look at where those bytes are: [init] and
    [store] write at any non-null address, [set_name] takes a tag of any
    length, and [munmap] only records the call.  The program agrees with
    them where every header it touches lies in memory that an [mmap] of the
    trace delivered and that no [munmap] has taken away, where headers do
    not run into each other, and where the tag fits the [name] array.  The
    predicates of this part say so; the theorems on [malloc_impl],
    [free_impl] and their callers assume them. *)

(** The capacity of the [name] array of [struct mem_block].  allocator.h
    declares it, as it declares the two headers: it is one more parameter
    of the layout. *)
Record tagged_layout := {
  base_layout :> layout;
  NAME_SZ : Z
}.

(** The sample layout with [char name[32]]: 8 + 32 + 8 + 8 + 3 * 8 = 80. *)
Definition sample_tagged : tagged_layout :=
  {| base_layout := sample_layout; NAME_SZ := 32 |}.

(** [strcpy(block->name, name)] stays inside the array and copies all of
    the tag: the characters and the closing NUL fit, and no character of
    the tag is NUL.  A null tag is not copied on the paths that test it. *)
Definition tag_fits (L : tagged_layout) (nm : option string) : Prop :=
  match nm with
  | None => True
  | Some v =>
      (Z.of_nat (String.length v) <? NAME_SZ L)
      && forallb (fun c => negb (Ascii.eqb c Ascii.zero)) (String.list_ascii_of_string v)
      = true
  end.

(** The [w] bytes from [a] and the [n] bytes from [lo] do not meet. *)
Definition apart (a w lo n : Z) : bool :=
  (a + w <=? lo) || (lo + n <=? a).

(** The call [e] delivered the [n] bytes from [lo]. *)
Definition delivers (lo n : Z) (e : event) : bool :=
  match e with
  | EMmap len (Some r) => (r <=? lo) && (lo + n <=? r + len)
  | _ => false
  end.

(** The [n] bytes from [lo] lie in one mapping of the trace. *)
Definition mapped (s : state) (lo n : Z) : Prop :=
  existsb (delivers lo n) (trace s) = true.

(** A [munmap] that the operating system carried out. *)
Definition unmaps (e : event) : bool :=
  match e with
  | EMunmap _ _ ok => ok
  | _ => false
  end.

(** No [munmap] of the trace was carried out: what was mapped still is. *)
Definition never_unmapped (s : state) : Prop :=
  existsb unmaps (trace s) = false.

Definition block_headers (s : state) : list Z := (map_to_list (blocks s)).*1.
Definition region_headers (s : state) : list Z := (map_to_list (regions s)).*1.

(** No header of [s] meets the [n] bytes from [lo]. *)
Definition clear (L : layout) (s : state) (lo n : Z) : Prop :=
  forallb (fun a => apart a (HB L) lo n) (block_headers s)
  && forallb (fun r => apart r (RB L) lo n) (region_headers s) = true.

(** A block header can be written at [a]: the bytes are mapped and hold no
    header. *)
Definition header_room (L : layout) (s : state) (a : Z) : Prop :=
  mapped s a (HB L) /\ clear L s a (HB L).

(** The headers of [s] are memory of the process: nothing was unmapped,
    every header lies in a mapping, the recorded lengths are [size_t]
    values, and no two headers meet. *)
Definition laid_out (L : layout) (s : state) : Prop :=
  never_unmapped s /\
  forallb (fun a => existsb (delivers a (HB L)) (trace s)) (block_headers s) = true /\
  forallb (fun r => existsb (delivers r (RB L)) (trace s)) (region_headers s) = true /\
  forallb (fun kv => (0 <=? size kv.2) && (size kv.2 <? SIZE_MOD))
    (map_to_list (blocks s)) = true /\
  forallb (fun a => forallb (fun a' => (a =? a') || apart a (HB L) a' (HB L))
                      (block_headers s)) (block_headers s) = true /\
  forallb (fun a => forallb (fun r => apart a (HB L) r (RB L))
                      (region_headers s)) (block_headers s) = true.

(** The [len] bytes at [region] are new memory: they meet no earlier mapping
    and no header of [s].  This is what [mmap] with [MAP_ANONYMOUS] hands
    out, zero-filled. *)
Definition new_memory (L : layout) (s : state) (region len : Z) : Prop :=
  forallb (fun e => match e with
                    | EMmap l (Some r) => apart r l region len
                    | _ => true
                    end) (trace s) = true /\
  clear L s region len.

(** The headers [malloc_impl] writes into a new region lie inside it and do
    not meet: the region header ends before the header of the first block,
    which starts one block header after the start of the region, and that
    header, and when the request is carved the header of the tail, end
    before the mapping does. *)
Definition room (L : layout) (sz : Z) : Prop :=
  RB L <= HB L /\
  2 * HB L <= map_sz L sz /\
  (carves L sz -> sz + RB L + 2 * HB L <= map_sz L sz).

(** When [reuse] of [want] bytes would split the block at [a], the header
    of the tail can be written. *)
Definition tail_room (L : layout) (s : state) (want a : Z) : Prop :=
  forall b, blocks s !! a = Some b -> want <= size b ->
            splittable L b (size b - want) ->
            header_room L s (a + want).

(** What the miss path of [malloc_impl] needs to stand for the program: the
    headers of [s] are memory of the process, the operating system hands
    out new memory, the headers written into it lie inside it, and the tag
    fits the [name] array. *)
Definition miss_is_real (L : tagged_layout) (s : state) (sz region : Z)
    (nm : option string) : Prop :=
  laid_out L s /\ new_memory L s region (map_sz L sz) /\ room L sz /\ tag_fits L nm.

(** The same for the reuse path on the free list [l], searched for [want]
    bytes: every block that would be split has room for the header of its
    tail. *)
Definition hit_is_real (L : tagged_layout) (s : state) (l : list Z) (want : Z)
    (nm : option string) : Prop :=
  laid_out L s /\ (forall a, a ∈ l -> tail_room L s want a) /\ tag_fits L nm.

(** A layout with equal headers and [char name[32]]. *)
Definition equal_headers_tagged : tagged_layout :=
  {| base_layout := equal_headers_layout; NAME_SZ := 32 |}.

(** The operating system refuses every [munmap] at the address [a], as it
    does for an address that is not a multiple of the page size. *)
Definition refuses_unmap (OS : os) (a : Z) : Prop :=
  forall tr n, os_munmap OS tr a n = false.
(** * Alignment *)

Lemma wrap_small z : 0 <= z < SIZE_MOD -> wrap z = z.
Proof. intros H. unfold wrap. apply Z.mod_small. exact H. Qed.

Lemma wrap_range z : 0 <= wrap z < SIZE_MOD.
Proof. unfold wrap. apply Z.mod_pos_bound. reflexivity. Qed.

Lemma align_exact s g :
  0 <= s -> 0 < g -> s <= max_multiple g ->
  align s g = (s / g) * g + (if s mod g =? 0 then 0 else g).
Proof.
  intros Hs Hg Hmax. unfold align, max_multiple in *.
  pose proof (Z.div_mod s g ltac:(lia)) as Hdm.
  pose proof (Z.mod_pos_bound s g Hg) as Hr.
  pose proof (Z.div_pos s g Hs Hg) as Hq.
  pose proof (Z.div_pos (SIZE_MOD - 1) g ltac:(unfold SIZE_MOD; lia) Hg) as HQ.
  pose proof (Z.mul_div_le (SIZE_MOD - 1) g Hg) as Htop.
  assert (Hlow : 0 <= s / g * g <= s) by nia.
  assert (Hfit : s / g * g < SIZE_MOD) by lia.
  rewrite (wrap_small (s / g * g)) by lia.
  destruct (s mod g =? 0) eqn:Hz; simpl; [lia|].
  apply Z.eqb_neq in Hz.
  apply wrap_small.
  assert (s / g < (SIZE_MOD - 1) / g) by nia.
  nia.
Qed.

(** C8, as amended: when the smallest multiple of [g] that is at least [s]
    still fits in a [size_t] (that is, [s] does not exceed the largest
    representable multiple of [g]), [align s g] is that multiple: it is
    divisible by [g], lies in [(s - g .. s]] shifted up by [g], and no smaller
    multiple of [g] reaches [s]. *)
Theorem align_smallest_multiple s g :
  0 <= s -> 0 < g -> s <= max_multiple g ->
  align s g mod g = 0 /\
  align s g - g < s <= align s g /\
  (forall m, m mod g = 0 -> s <= m -> align s g <= m) /\
  0 <= align s g < SIZE_MOD.
Proof.
  intros Hs Hg Hmax.
  rewrite (align_exact s g Hs Hg Hmax).
  pose proof (Z.div_mod s g ltac:(lia)) as Hdm.
  pose proof (Z.mod_pos_bound s g Hg) as Hr.
  pose proof (Z.mul_div_le (SIZE_MOD - 1) g Hg) as Htop.
  unfold max_multiple in Hmax.
  destruct (s mod g =? 0) eqn:Hz.
  - apply Z.eqb_eq in Hz.
    replace (s / g * g + 0) with s by lia.
    repeat split; try lia.
  - apply Z.eqb_neq in Hz.
    replace (s / g * g + g) with ((s / g + 1) * g) by lia.
    repeat split; try nia.
    + apply Z.mod_mul. lia.
    + intros m Hm Hsm.
      apply Z.mod_divide in Hm; [|lia]. destruct Hm as [k Hk]. subst m.
      assert (s / g < k) by nia. nia.
    + assert (s / g < (SIZE_MOD - 1) / g) by nia. nia.
Qed.

Lemma align_smallest_multiple_witness :
  align 100 8 mod 8 = 0 /\ align 100 8 - 8 < 100 <= align 100 8.
Proof.
  destruct (align_smallest_multiple 100 8) as (H1 & H2 & _).
  - lia.
  - lia.
  - vm_compute. discriminate.
  - split; assumption.
Defined.

(** C8 as stated fails in [size_t] arithmetic: rounding [2^64 - 1] up to a
    multiple of 8 wraps around to 0, which is below the size asked for. *)
Lemma align_wraps_around :
  align (SIZE_MOD - 1) 8 = 0 /\
  ~ (SIZE_MOD - 1 <= align (SIZE_MOD - 1) 8).
Proof. split; [reflexivity | vm_compute; intros H; apply H; reflexivity]. Qed.

(** * Running the primitives *)

Lemma bind_done {A B} (m : M A) (k : A -> M B) s a s' :
  m s = Done a s' -> bind m k s = k a s'.
Proof. intros H. unfold bind. rewrite H. reflexivity. Qed.

Lemma bind_assoc {A B C} (m : M A) (f : A -> M B) (g : B -> M C) s :
  bind (bind m f) g s = bind m (fun x => bind (f x) g) s.
Proof. unfold bind. destruct (m s); reflexivity. Qed.

Lemma load_done s a b :
  a <> NULL -> blocks s !! a = Some b -> load a s = Done b s.
Proof.
  intros Ha Hb. unfold load. apply Z.eqb_neq in Ha. rewrite Ha, Hb. reflexivity.
Qed.

Lemma store_done s a b f :
  a <> NULL -> blocks s !! a = Some b ->
  store a f s = Done tt (with_blocks (<[a := f b]> (blocks s)) s).
Proof.
  intros Ha Hb. unfold store. apply Z.eqb_neq in Ha. rewrite Ha, Hb. reflexivity.
Qed.

Lemma init_done s a f :
  a <> NULL ->
  init a f s =
  Done tt (with_blocks (<[a := f (default zero_block (blocks s !! a))]> (blocks s)) s).
Proof. intros Ha. unfold init. apply Z.eqb_neq in Ha. rewrite Ha. reflexivity. Qed.

Lemma gets_done {A} (f : state -> A) s : gets f s = Done (f s) s.
Proof. reflexivity. Qed.

Lemma modify_done f s : modify f s = Done tt (f s).
Proof. reflexivity. Qed.

Lemma ret_done {A} (a : A) s : ret a s = Done a s.
Proof. reflexivity. Qed.

(** One statement of the program at a time. *)
Ltac simpl_state :=
  cbv beta delta [with_blocks with_g_allocations with_g_free_list with_trace
                  with_regions with_g_regions with_g_region_head
                  with_g_region_tail];
  cbn [blocks regions trace g_regions g_allocations g_region_head
       g_region_tail g_free_list];
  rewrite ?insert_insert_eq.

Ltac heap_side :=
  simpl_state;
  first [ eassumption
        | apply lookup_insert_eq
        | rewrite !lookup_insert_ne by (first [assumption | lia | congruence]);
          first [eassumption | apply lookup_insert_eq]
        | unfold NULL in *; lia ].

Ltac step_load :=
  erewrite (bind_done (load _)) by (apply load_done; heap_side); simpl_state.
Ltac step_store :=
  erewrite (bind_done (store _ _)) by (apply store_done; heap_side); simpl_state.
Ltac step_init :=
  erewrite (bind_done (init _ _)) by (apply init_done; heap_side); simpl_state.
Ltac step_gets :=
  rewrite (bind_done (gets _) _ _ _ _ (gets_done _ _)); simpl_state.
Ltac step_modify :=
  rewrite (bind_done (modify _) _ _ _ _ (modify_done _ _)); simpl_state.

(** * Splitting *)

Lemma split_block_fails_state (L : layout) (s : state) (block t : Z) (b : mem_block) :
  0 < HB L -> block <> NULL -> blocks s !! block = Some b ->
  0 <= size b < SIZE_MOD -> 0 <= t ->
  (t <= size b \/ t + HB L < SIZE_MOD) ->
  ~ splittable L b t ->
  split_block L block t s = Done NULL s.
Proof.
  intros HHB Hnn Hb Hsz Ht Hfit Hno.
  unfold split_block, bind, load, ret.
  apply Z.eqb_neq in Hnn. rewrite Hnn, Hb.
  destruct ((0 <? t) && (wrap (t + HB L) <? size b)) eqn:Hguard; [|reflexivity].
  destruct (t <? HB L + ALIGN_SZ) eqn:H2; [reflexivity|].
  apply Z.ltb_ge in H2.
  apply andb_true_iff in Hguard. destruct Hguard as [_ H1]. apply Z.ltb_lt in H1.
  assert (Hle : t <= size b).
  { destruct Hfit as [Hle | Hfit]; [exact Hle|].
    rewrite (wrap_small (t + HB L)) in H1 by lia. lia. }
  rewrite (wrap_small (size b - t)) by lia.
  destruct (size b - t <? HB L + ALIGN_SZ) eqn:H3; [reflexivity|].
  apply Z.ltb_ge in H3. exfalso. apply Hno. split; lia.
Qed.

Lemma split_block_succeeds_state (L : layout) (s : state) (block t : Z) (b : mem_block) :
  0 < HB L -> 0 < block -> blocks s !! block = Some b ->
  0 <= size b < SIZE_MOD -> 0 <= t ->
  splittable L b t ->
  split_block L block t s = Done (block + (size b - t)) (split_state s block t b).
Proof.
  intros HHB Hnn Hb Hsz Ht [Hhead Htail].
  unfold ALIGN_SZ in *.
  assert (Hfit : t + HB L < SIZE_MOD) by lia.
  assert (Hne : block + (size b - t) <> block) by lia.
  assert (Hne' : block <> block + (size b - t)) by lia.
  assert (Hnb0 : block + (size b - t) <> NULL) by (unfold NULL; lia).
  assert (Hb0 : (block =? NULL) = false) by (apply Z.eqb_neq; unfold NULL; lia).
  unfold split_block.
  rewrite Hb0.
  step_load.
  rewrite (wrap_small (t + HB L)) by lia.
  rewrite (wrap_small (size b - t)) by lia.
  replace (0 <? t) with true by (symmetry; apply Z.ltb_lt; lia).
  replace (t + HB L <? size b) with true by (symmetry; apply Z.ltb_lt; lia).
  replace (t <? HB L + ALIGN_SZ) with false by (symmetry; apply Z.ltb_ge; unfold ALIGN_SZ; lia).
  replace (size b - t <? HB L + ALIGN_SZ) with false by (symmetry; apply Z.ltb_ge; unfold ALIGN_SZ; lia).
  cbn [andb].
  step_init. step_gets. step_modify.
  step_store. step_store. step_store. step_load. step_store. step_store.
  step_store. step_store.
  unfold ret, split_state. simpl_state. reflexivity.
Qed.


(** C2, as amended: for a block [b] at a non-null address, in a state whose
    headers are memory of the process, and a tail size [t] that does not
    exceed the size of [b] (or, more generally, for which
    [t + sizeof(struct mem_block)] does not wrap around in [size_t]), where
    the place of the tail header, when head and tail are both large enough,
    is mapped memory that holds no header: [split_block] succeeds exactly
    when head and tail are each at least a header plus one alignment unit.
    On success the head stays at its address with its size reduced by [t]
    and its next-neighbour set to the tail; the tail has size [t], is free,
    carries the next sequence number, inherits the old next-neighbour, and
    the two sizes add up to the old size.  On failure the result is NULL and
    the state is unchanged. *)
Theorem split_block_correct (L : layout) (s : state) (block t : Z) (b : mem_block) :
  0 < HB L -> 0 < block -> blocks s !! block = Some b ->
  0 <= size b < SIZE_MOD -> 0 <= t ->
  (t <= size b \/ t + HB L < SIZE_MOD) ->
  laid_out L s ->
  (splittable L b t -> header_room L s (block + (size b - t))) ->
  ((exists nb s', split_block L block t s = Done nb s' /\ nb <> NULL)
   <-> splittable L b t) /\
  (splittable L b t ->
   exists s' tl,
     let nb := block + (size b - t) in
     let h := set_size (size b - t) (set_next_block nb b) in
     split_block L block t s = Done nb s' /\
     blocks s' !! block = Some h /\
     blocks s' !! nb = Some tl /\
     size tl = t /\ free tl = true /\
     block_number tl = g_allocations s /\
     g_allocations s' = wrap (g_allocations s + 1) /\
     next_block tl = next_block b /\
     prev_block tl = block /\
     size h + size tl = size b) /\
  (~ splittable L b t -> split_block L block t s = Done NULL s).
Proof.
  intros HHB Hpos Hb Hsz Ht Hfit _ _.
  assert (Hnn : block <> NULL) by (unfold NULL; lia).
  assert (Hfail := split_block_fails_state L s block t b HHB Hnn Hb Hsz Ht Hfit).
  assert (Hok := split_block_succeeds_state L s block t b HHB Hpos Hb Hsz Ht).
  split; [|split].
  - split.
    + intros (nb & s' & Hrun & Hnb).
      destruct (decide (HB L + ALIGN_SZ <= size b - t /\ HB L + ALIGN_SZ <= t))
        as [Hyes | Hnot]; [exact Hyes|].
      rewrite (Hfail Hnot) in Hrun. congruence.
    + intros Hsp. exists (block + (size b - t)), (split_state s block t b).
      split; [exact (Hok Hsp)|].
      destruct Hsp as [Hh _]. unfold ALIGN_SZ, NULL in *. lia.
  - intros Hsp.
    exists (split_state s block t b), (tail_header s block (block + (size b - t)) t b).
    destruct Hsp as [Hh Htl]. unfold ALIGN_SZ in *.
    cbn zeta. split; [apply Hok; split; unfold ALIGN_SZ; lia|].
    unfold split_state. simpl_state.
    split; [apply lookup_insert_eq|].
    split; [rewrite lookup_insert_ne by lia; apply lookup_insert_eq|].
    cbn. repeat split; lia.
  - exact Hfail.
Qed.

Lemma split_block_correct_witness :
  exists s', split_block sample_layout 65732 1000 freed_once = Done 68696 s'.
Proof.
  destruct (blocks freed_once !! 65732) as [b|] eqn:Hb;
    [|vm_compute in Hb; discriminate].
  assert (Esz : size b = 3964) by (vm_compute in Hb; injection Hb as <-; reflexivity).
  destruct (split_block_correct sample_layout freed_once 65732 1000 b)
    as (_ & Hok & _).
  - reflexivity.
  - reflexivity.
  - exact Hb.
  - rewrite Esz. split; [discriminate | reflexivity].
  - discriminate.
  - left. rewrite Esz. discriminate.
  - repeat split; vm_compute; reflexivity.
  - intros _. rewrite Esz. split; vm_compute; reflexivity.
  - destruct Hok as (s' & tl & Hrun & _).
    + unfold splittable. rewrite Esz. split; vm_compute; discriminate.
    + exists s'. rewrite Esz in Hrun. exact Hrun.
Defined.

(** C2 as stated fails when the tail size is so large that the guard
    [block->size > size + sizeof(struct mem_block)] wraps around.  The free
    block "a" of 120 bytes at 65616 (region "a", "b" free and "c" used) has
    all of the next header after it in mapped memory: a tail of [2^64 - 1]
    bytes is cut from it, with its header at 65737, although the head
    [120 - (2^64 - 1)] is negative. *)
Lemma split_block_tail_wraps :
  exists ha,
    blocks two_free_one_used !! 65616 = Some ha /\
    size ha = 120 /\
    mapped two_free_one_used 65737 (HB sample_layout) /\
    (exists s', split_block sample_layout 65616 (SIZE_MOD - 1) two_free_one_used
                = Done 65737 s') /\
    65737 <> NULL /\
    ~ splittable sample_layout ha (SIZE_MOD - 1).
Proof.
  eexists. split; [vm_compute; reflexivity|].
  split; [reflexivity|]. split; [vm_compute; reflexivity|].
  split; [eexists; vm_compute; reflexivity|].
  split; [discriminate|].
  intros [H _]. vm_compute in H. apply H. reflexivity.
Qed.

(** * Free-list chains *)

Lemma free_chain_functional m p l1 l2 :
  free_chain m p l1 -> free_chain m p l2 -> l1 = l2.
Proof.
  intros H1. revert l2. induction H1 as [|a b l Ha Hb Hc IH]; intros l2 H2.
  - inversion H2; subst; [reflexivity | congruence].
  - inversion H2; subst; [congruence|].
    f_equal. apply IH. congruence.
Qed.

Lemma free_chain_suffix m p l x :
  free_chain m p l -> x ∈ l ->
  exists l1 l2, l = l1 ++ l2 /\ free_chain m x l2 /\ l2 <> [].
Proof.
  induction 1 as [|a b l Ha Hb Hc IH]; intros Hx.
  - inversion Hx.
  - apply elem_of_cons in Hx. destruct Hx as [-> | Hx].
    + exists [], (a :: l). split; [reflexivity|]. split; [|discriminate].
      econstructor; eassumption.
    + destruct (IH Hx) as (l1 & l2 & -> & Hch & Hne).
      exists (a :: l1), l2. split; [reflexivity|]. split; assumption.
Qed.

Lemma free_chain_head_fresh m a l : free_chain m a (a :: l) -> a ∉ l.
Proof.
  intros Hch Hin.
  inversion Hch as [|a' b' l' Ha Hb Hrest]; subst.
  destruct (free_chain_suffix _ _ _ _ Hrest Hin) as (l1 & l2 & -> & Hch2 & _).
  pose proof (free_chain_functional _ _ _ _ Hch Hch2) as Heq.
  apply (f_equal length) in Heq. cbn in Heq. rewrite length_app in Heq. lia.
Qed.

Lemma free_chain_nonnull m p l x : free_chain m p l -> x ∈ l -> x <> NULL.
Proof.
  induction 1 as [|a b l Ha Hb Hc IH]; intros Hx.
  - inversion Hx.
  - apply elem_of_cons in Hx. destruct Hx as [-> | Hx]; auto.
Qed.

Lemma free_chain_tracked m p l x :
  free_chain m p l -> x ∈ l -> exists b, m !! x = Some b.
Proof.
  induction 1 as [|a b l Ha Hb Hc IH]; intros Hx.
  - inversion Hx.
  - apply elem_of_cons in Hx. destruct Hx as [-> | Hx]; eauto.
Qed.

(** A chain survives any change of the heap that keeps the links of its
    nodes. *)
Lemma free_chain_transport m m' p l :
  free_chain m p l ->
  (forall a b, a ∈ l -> m !! a = Some b ->
               exists b', m' !! a = Some b' /\ next_free b' = next_free b) ->
  free_chain m' p l.
Proof.
  induction 1 as [|a b l Ha Hb Hc IH]; intros Hkeep.
  - constructor.
  - destruct (Hkeep a b) as (b' & Hb' & Hnf); [apply elem_of_cons; auto | assumption |].
    econstructor; [assumption | exact Hb' |].
    rewrite Hnf. apply IH. intros a0 b0 Hin. apply Hkeep. apply elem_of_cons. auto.
Qed.

(** * The searches on a well-formed free list *)

Lemma first_fit_loop_finds fuel sz s curr l :
  free_chain (blocks s) curr l -> (length l <= fuel)%nat ->
  exists r,
    first_fit_loop fuel sz curr s = Done r s /\
    (r = NULL \/ (r ∈ l /\ qualifies s sz r)) /\
    ((exists a, a ∈ l /\ qualifies s sz a) -> r <> NULL).
Proof.
  intros Hch. revert fuel.
  induction Hch as [|a b l Ha Hb Hc IH]; intros fuel Hlen.
  - exists NULL. split; [destruct fuel; reflexivity|].
    split; [left; reflexivity|].
    intros (a & Hin & _). inversion Hin.
  - destruct fuel as [|k]; [cbn in Hlen; lia|].
    cbn [first_fit_loop].
    apply Z.eqb_neq in Ha as Ha'. rewrite Ha'.
    rewrite (bind_done _ _ _ _ _ (load_done s a b Ha Hb)).
    destruct (sz <=? size b) eqn:Hq.
    + apply Z.leb_le in Hq. exists a. split; [reflexivity|].
      split; [|intros _; exact Ha].
      right. split; [apply elem_of_cons; auto|]. exists b. auto.
    + apply Z.leb_gt in Hq.
      destruct (IH k) as (r & Hrun & Hr & Hex); [cbn in Hlen; lia|].
      exists r. split; [exact Hrun|]. split.
      * destruct Hr as [-> | [Hin Hqual]]; [left; reflexivity|].
        right. split; [apply elem_of_cons; auto | assumption].
      * intros (x & Hin & Hqual). apply Hex.
        apply elem_of_cons in Hin. destruct Hin as [-> | Hin].
        -- destruct Hqual as (b0 & Hb0 & Hsz). rewrite Hb in Hb0.
           injection Hb0 as <-. lia.
        -- exists x. auto.
Qed.

Lemma best_fit_loop_finds fuel sz s curr l acc :
  free_chain (blocks s) curr l -> (length l <= fuel)%nat ->
  (acc = NULL \/ qualifies s sz acc) ->
  exists r,
    best_fit_loop fuel sz curr acc s = Done r s /\
    (r = acc \/ r ∈ l) /\
    (r = NULL \/ qualifies s sz r) /\
    (acc <> NULL \/ (exists a, a ∈ l /\ qualifies s sz a) -> r <> NULL).
Proof.
  intros Hch. revert fuel acc.
  induction Hch as [|a b l Ha Hb Hc IH]; intros fuel acc Hlen Hacc.
  - exists acc. split; [destruct fuel; reflexivity|].
    split; [left; reflexivity|]. split; [exact Hacc|].
    intros [Hn | (a & Hin & _)]; [exact Hn | inversion Hin].
  - destruct fuel as [|k]; [cbn in Hlen; lia|].
    cbn [best_fit_loop].
    apply Z.eqb_neq in Ha as Ha'. rewrite Ha'.
    rewrite (bind_done _ _ _ _ _ (load_done s a b Ha Hb)).
    assert (Hstep : exists acc',
      (if sz <=? size b
       then if acc =? NULL then ret a
            else p <- load acc;; ret (if size b <=? size p then a else acc)
       else ret acc) s = Done acc' s /\
      (acc' = acc \/ acc' = a) /\
      (acc' = NULL \/ qualifies s sz acc') /\
      (acc <> NULL \/ qualifies s sz a -> acc' <> NULL)).
    { destruct (sz <=? size b) eqn:Hq.
      - apply Z.leb_le in Hq.
        assert (Hqa : qualifies s sz a) by (exists b; auto).
        destruct (acc =? NULL) eqn:Hn.
        + exists a. split; [reflexivity|]. repeat split; auto.
        + apply Z.eqb_neq in Hn.
          destruct Hacc as [-> | (p & Hp & Hpsz)]; [congruence|].
          rewrite (bind_done _ _ _ _ _ (load_done s acc p Hn Hp)).
          destruct (size b <=? size p).
          * exists a. split; [reflexivity|]. repeat split; auto.
          * exists acc. split; [reflexivity|]. repeat split; auto.
            right. exists p. auto.
      - apply Z.leb_gt in Hq. exists acc. split; [reflexivity|].
        split; [auto|]. split; [exact Hacc|].
        intros [Hn | (b0 & Hb0 & Hsz)]; [exact Hn|].
        rewrite Hb in Hb0. injection Hb0 as <-. lia. }
    destruct Hstep as (acc' & Hrun & Hwhich & Hqual & Hnn).
    rewrite (bind_done _ _ _ _ _ Hrun).
    destruct (IH k acc') as (r & Hrun' & Hr & Hrq & Hex);
      [cbn in Hlen; lia | exact Hqual |].
    exists r. split; [exact Hrun'|]. split; [|split; [exact Hrq|]].
    + destruct Hr as [-> | Hin].
      * destruct Hwhich as [-> | ->]; [left; reflexivity|].
        right. apply elem_of_cons. auto.
      * right. apply elem_of_cons. auto.
    + intros [Hn | (x & Hin & Hx)]; apply Hex.
      * left. apply Hnn. left. exact Hn.
      * apply elem_of_cons in Hin. destruct Hin as [-> | Hin].
        -- left. apply Hnn. right. exact Hx.
        -- right. exists x. auto.
Qed.

Lemma worst_fit_loop_finds fuel sz s curr l acc :
  free_chain (blocks s) curr l -> (length l <= fuel)%nat ->
  (acc = NULL \/ qualifies s sz acc) ->
  exists r,
    worst_fit_loop fuel sz curr acc s = Done r s /\
    (r = acc \/ r ∈ l) /\
    (r = NULL \/ qualifies s sz r) /\
    (acc <> NULL \/ (exists a, a ∈ l /\ qualifies s sz a) -> r <> NULL).
Proof.
  intros Hch. revert fuel acc.
  induction Hch as [|a b l Ha Hb Hc IH]; intros fuel acc Hlen Hacc.
  - exists acc. split; [destruct fuel; reflexivity|].
    split; [left; reflexivity|]. split; [exact Hacc|].
    intros [Hn | (a & Hin & _)]; [exact Hn | inversion Hin].
  - destruct fuel as [|k]; [cbn in Hlen; lia|].
    cbn [worst_fit_loop].
    apply Z.eqb_neq in Ha as Ha'. rewrite Ha'.
    rewrite (bind_done _ _ _ _ _ (load_done s a b Ha Hb)).
    assert (Hstep : exists acc',
      (if sz <=? size b
       then if acc =? NULL then ret a
            else p <- load acc;; ret (if size p <=? size b then a else acc)
       else ret acc) s = Done acc' s /\
      (acc' = acc \/ acc' = a) /\
      (acc' = NULL \/ qualifies s sz acc') /\
      (acc <> NULL \/ qualifies s sz a -> acc' <> NULL)).
    { destruct (sz <=? size b) eqn:Hq.
      - apply Z.leb_le in Hq.
        assert (Hqa : qualifies s sz a) by (exists b; auto).
        destruct (acc =? NULL) eqn:Hn.
        + exists a. split; [reflexivity|]. repeat split; auto.
        + apply Z.eqb_neq in Hn.
          destruct Hacc as [-> | (p & Hp & Hpsz)]; [congruence|].
          rewrite (bind_done _ _ _ _ _ (load_done s acc p Hn Hp)).
          destruct (size p <=? size b).
          * exists a. split; [reflexivity|]. repeat split; auto.
          * exists acc. split; [reflexivity|]. repeat split; auto.
            right. exists p. auto.
      - apply Z.leb_gt in Hq. exists acc. split; [reflexivity|].
        split; [auto|]. split; [exact Hacc|].
        intros [Hn | (b0 & Hb0 & Hsz)]; [exact Hn|].
        rewrite Hb in Hb0. injection Hb0 as <-. lia. }
    destruct Hstep as (acc' & Hrun & Hwhich & Hqual & Hnn).
    rewrite (bind_done _ _ _ _ _ Hrun).
    destruct (IH k acc') as (r & Hrun' & Hr & Hrq & Hex);
      [cbn in Hlen; lia | exact Hqual |].
    exists r. split; [exact Hrun'|]. split; [|split; [exact Hrq|]].
    + destruct Hr as [-> | Hin].
      * destruct Hwhich as [-> | ->]; [left; reflexivity|].
        right. apply elem_of_cons. auto.
      * right. apply elem_of_cons. auto.
    + intros [Hn | (x & Hin & Hx)]; apply Hex.
      * left. apply Hnn. left. exact Hn.
      * apply elem_of_cons in Hin. destruct Hin as [-> | Hin].
        -- left. apply Hnn. right. exact Hx.
        -- right. exists x. auto.
Qed.

(** * Which block the scans end with *)

Lemma block_size_lookup s a b : blocks s !! a = Some b -> block_size s a = size b.
Proof. intros H. unfold block_size. rewrite H. reflexivity. Qed.

Lemma best_fit_loop_last fuel sz s curr l :
  free_chain (blocks s) curr l -> (length l <= fuel)%nat ->
  forall scanned acc,
    last_smallest s sz scanned acc ->
    exists r,
      best_fit_loop fuel sz curr acc s = Done r s /\
      last_smallest s sz (scanned ++ l) r.
Proof.
  intros Hch. revert fuel.
  induction Hch as [|a b l Ha Hb Hc IH]; intros fuel Hlen scanned acc Hinv.
  - exists acc. split; [destruct fuel; reflexivity|].
    rewrite app_nil_r. exact Hinv.
  - destruct fuel as [|k]; [cbn in Hlen; lia|].
    cbn [best_fit_loop].
    apply Z.eqb_neq in Ha as Ha'. rewrite Ha'.
    rewrite (bind_done _ _ _ _ _ (load_done s a b Ha Hb)).
    pose proof (block_size_lookup s a b Hb) as Hsa.
    assert (Hstep : exists acc',
      (if sz <=? size b
       then if acc =? NULL then ret a
            else p <- load acc;; ret (if size b <=? size p then a else acc)
       else ret acc) s = Done acc' s /\
      last_smallest s sz (scanned ++ [a]) acc').
    { destruct (sz <=? size b) eqn:Hq.
      - apply Z.leb_le in Hq.
        assert (Hqa : qualifies s sz a) by (exists b; auto).
        destruct Hinv as [[-> Hnone] | (Hn & (p & Hp & Hpsz) & before & after & -> & Hbef & Haft)].
        + exists a. split; [reflexivity|]. right.
          split; [exact Ha|]. split; [exact Hqa|].
          exists scanned, []. split; [reflexivity|].
          split; [intros x Hx Hqx; exfalso; exact (Hnone x Hx Hqx)|].
          intros x Hx. inversion Hx.
        + apply Z.eqb_neq in Hn as Hn'. rewrite Hn'.
          rewrite (bind_done _ _ _ _ _ (load_done s acc p Hn Hp)).
          pose proof (block_size_lookup s acc p Hp) as Hsacc.
          destruct (size b <=? size p) eqn:Hcmp.
          * apply Z.leb_le in Hcmp.
            exists a. split; [reflexivity|]. right.
            split; [exact Ha|]. split; [exact Hqa|].
            exists (before ++ acc :: after), []. split; [reflexivity|].
            split; [|intros x Hx; inversion Hx].
            intros x Hx Hqx. apply elem_of_app in Hx.
            destruct Hx as [Hx | Hx].
            -- specialize (Hbef x Hx Hqx). lia.
            -- apply elem_of_cons in Hx. destruct Hx as [-> | Hx]; [lia|].
               specialize (Haft x Hx Hqx). lia.
          * apply Z.leb_gt in Hcmp.
            exists acc. split; [reflexivity|]. right.
            split; [exact Hn|]. split; [exists p; auto|].
            exists before, (after ++ [a]).
            split; [rewrite <- app_assoc; reflexivity|].
            split; [exact Hbef|].
            intros x Hx Hqx. apply elem_of_app in Hx.
            destruct Hx as [Hx | Hx]; [exact (Haft x Hx Hqx)|].
            apply list_elem_of_singleton in Hx. subst x. lia.
      - apply Z.leb_gt in Hq.
        assert (Hnq : ~ qualifies s sz a).
        { intros (b0 & Hb0 & Hsz). rewrite Hb in Hb0. injection Hb0 as <-. lia. }
        exists acc. split; [reflexivity|].
        destruct Hinv as [[-> Hnone] | (Hn & Hqacc & before & after & -> & Hbef & Haft)].
        + left. split; [reflexivity|].
          intros x Hx. apply elem_of_app in Hx. destruct Hx as [Hx | Hx].
          * exact (Hnone x Hx).
          * apply list_elem_of_singleton in Hx. subst x. exact Hnq.
        + right. split; [exact Hn|]. split; [exact Hqacc|].
          exists before, (after ++ [a]).
          split; [rewrite <- app_assoc; reflexivity|].
          split; [exact Hbef|].
          intros x Hx Hqx. apply elem_of_app in Hx.
          destruct Hx as [Hx | Hx]; [exact (Haft x Hx Hqx)|].
          apply list_elem_of_singleton in Hx. subst x. contradiction. }
    destruct Hstep as (acc' & Hrun & Hinv').
    rewrite (bind_done _ _ _ _ _ Hrun).
    destruct (IH k ltac:(cbn in Hlen; lia) (scanned ++ [a]) acc' Hinv')
      as (r & Hrun' & Hr).
    exists r. split; [exact Hrun'|].
    rewrite <- app_assoc in Hr. exact Hr.
Qed.

Lemma worst_fit_loop_last fuel sz s curr l :
  free_chain (blocks s) curr l -> (length l <= fuel)%nat ->
  forall scanned acc,
    last_largest s sz scanned acc ->
    exists r,
      worst_fit_loop fuel sz curr acc s = Done r s /\
      last_largest s sz (scanned ++ l) r.
Proof.
  intros Hch. revert fuel.
  induction Hch as [|a b l Ha Hb Hc IH]; intros fuel Hlen scanned acc Hinv.
  - exists acc. split; [destruct fuel; reflexivity|].
    rewrite app_nil_r. exact Hinv.
  - destruct fuel as [|k]; [cbn in Hlen; lia|].
    cbn [worst_fit_loop].
    apply Z.eqb_neq in Ha as Ha'. rewrite Ha'.
    rewrite (bind_done _ _ _ _ _ (load_done s a b Ha Hb)).
    pose proof (block_size_lookup s a b Hb) as Hsa.
    assert (Hstep : exists acc',
      (if sz <=? size b
       then if acc =? NULL then ret a
            else p <- load acc;; ret (if size p <=? size b then a else acc)
       else ret acc) s = Done acc' s /\
      last_largest s sz (scanned ++ [a]) acc').
    { destruct (sz <=? size b) eqn:Hq.
      - apply Z.leb_le in Hq.
        assert (Hqa : qualifies s sz a) by (exists b; auto).
        destruct Hinv as [[-> Hnone] | (Hn & (p & Hp & Hpsz) & before & after & -> & Hbef & Haft)].
        + exists a. split; [reflexivity|]. right.
          split; [exact Ha|]. split; [exact Hqa|].
          exists scanned, []. split; [reflexivity|].
          split; [intros x Hx Hqx; exfalso; exact (Hnone x Hx Hqx)|].
          intros x Hx. inversion Hx.
        + apply Z.eqb_neq in Hn as Hn'. rewrite Hn'.
          rewrite (bind_done _ _ _ _ _ (load_done s acc p Hn Hp)).
          pose proof (block_size_lookup s acc p Hp) as Hsacc.
          destruct (size p <=? size b) eqn:Hcmp.
          * apply Z.leb_le in Hcmp.
            exists a. split; [reflexivity|]. right.
            split; [exact Ha|]. split; [exact Hqa|].
            exists (before ++ acc :: after), []. split; [reflexivity|].
            split; [|intros x Hx; inversion Hx].
            intros x Hx Hqx. apply elem_of_app in Hx.
            destruct Hx as [Hx | Hx].
            -- specialize (Hbef x Hx Hqx). lia.
            -- apply elem_of_cons in Hx. destruct Hx as [-> | Hx]; [lia|].
               specialize (Haft x Hx Hqx). lia.
          * apply Z.leb_gt in Hcmp.
            exists acc. split; [reflexivity|]. right.
            split; [exact Hn|]. split; [exists p; auto|].
            exists before, (after ++ [a]).
            split; [rewrite <- app_assoc; reflexivity|].
            split; [exact Hbef|].
            intros x Hx Hqx. apply elem_of_app in Hx.
            destruct Hx as [Hx | Hx]; [exact (Haft x Hx Hqx)|].
            apply list_elem_of_singleton in Hx. subst x. lia.
      - apply Z.leb_gt in Hq.
        assert (Hnq : ~ qualifies s sz a).
        { intros (b0 & Hb0 & Hsz). rewrite Hb in Hb0. injection Hb0 as <-. lia. }
        exists acc. split; [reflexivity|].
        destruct Hinv as [[-> Hnone] | (Hn & Hqacc & before & after & -> & Hbef & Haft)].
        + left. split; [reflexivity|].
          intros x Hx. apply elem_of_app in Hx. destruct Hx as [Hx | Hx].
          * exact (Hnone x Hx).
          * apply list_elem_of_singleton in Hx. subst x. exact Hnq.
        + right. split; [exact Hn|]. split; [exact Hqacc|].
          exists before, (after ++ [a]).
          split; [rewrite <- app_assoc; reflexivity|].
          split; [exact Hbef|].
          intros x Hx Hqx. apply elem_of_app in Hx.
          destruct Hx as [Hx | Hx]; [exact (Haft x Hx Hqx)|].
          apply list_elem_of_singleton in Hx. subst x. contradiction. }
    destruct Hstep as (acc' & Hrun & Hinv').
    rewrite (bind_done _ _ _ _ _ Hrun).
    destruct (IH k ltac:(cbn in Hlen; lia) (scanned ++ [a]) acc' Hinv')
      as (r & Hrun' & Hr).
    exists r. split; [exact Hrun'|].
    rewrite <- app_assoc in Hr. exact Hr.
Qed.

(** On every well-formed free list [best_fit] and [worst_fit] return, without
    changing the state, the last-scanned block among those of the smallest
    (largest) qualifying size, and NULL when no block qualifies. *)
Lemma fits_return_the_last_of_equals fuel sz s l :
  free_chain (blocks s) (g_free_list s) l -> (length l <= fuel)%nat ->
  (exists r, best_fit fuel sz s = Done r s /\ last_smallest s sz l r) /\
  (exists r, worst_fit fuel sz s = Done r s /\ last_largest s sz l r).
Proof.
  intros Hch Hlen. split.
  - unfold best_fit. rewrite (bind_done _ _ _ _ _ (gets_done _ s)).
    apply (best_fit_loop_last fuel sz s _ l Hch Hlen [] NULL).
    left. split; [reflexivity|]. intros a Ha. inversion Ha.
  - unfold worst_fit. rewrite (bind_done _ _ _ _ _ (gets_done _ s)).
    apply (worst_fit_loop_last fuel sz s _ l Hch Hlen [] NULL).
    left. split; [reflexivity|]. intros a Ha. inversion Ha.
Qed.

(** * Ties between candidates *)

(** C4: the code departs from the claim on ties.  After
    [allocate(104,"a")], [allocate(104,"b")], [allocate(3824,"c")],
    [release(a)], [release(b)] the free list is "b" then "a", both of 120
    bytes.  For a request of 120 bytes both [best_fit] and [worst_fit] return
    "a", the candidate scanned last, where the claim (and the comment above
    each function) names the one scanned first, "b". *)
Theorem fit_ties_go_to_the_last_scanned :
  let s := two_free_one_used in
  g_free_list s = 65736 /\
  (size <$> blocks s !! 65736) = Some 120 /\
  (next_free <$> blocks s !! 65736) = Some 65616 /\
  (size <$> blocks s !! 65616) = Some 120 /\
  (next_free <$> blocks s !! 65616) = Some NULL /\
  best_fit 16 120 s = Done 65616 s /\
  worst_fit 16 120 s = Done 65616 s.
Proof. vm_compute. repeat split; reflexivity. Qed.

(** * Merging: the cases that hold *)

(** On a used block [merge_block] returns NULL and changes nothing. *)
Lemma merge_block_used fuel s block b :
  block <> NULL -> blocks s !! block = Some b -> free b = false ->
  merge_block fuel block s = Done NULL s.
Proof.
  intros Hn Hb Hf. unfold merge_block.
  rewrite (bind_done _ _ _ _ _ (load_done s block b Hn Hb)).
  rewrite Hf. reflexivity.
Qed.

(** A neighbour that stops the merge: the region edge or a used block. *)
Lemma merge_prev_loop_stops fuel s block p :
  p = NULL \/ (exists pb, blocks s !! p = Some pb /\ free pb = false) ->
  merge_prev_loop (S fuel) block p s = Done block s.
Proof.
  intros [-> | (pb & Hpb & Hf)]; [reflexivity|].
  cbn [merge_prev_loop].
  destruct (p =? NULL) eqn:Hp; [reflexivity|]. apply Z.eqb_neq in Hp.
  rewrite (bind_done _ _ _ _ _ (load_done s p pb Hp Hpb)).
  rewrite Hf. reflexivity.
Qed.

Lemma merge_next_loop_stops fuel s block n :
  n = NULL \/ (exists nb, blocks s !! n = Some nb /\ free nb = false) ->
  merge_next_loop (S fuel) block n s = Done block s.
Proof.
  intros [-> | (nb & Hnb & Hf)]; [reflexivity|].
  cbn [merge_next_loop].
  destruct (n =? NULL) eqn:Hn; [reflexivity|]. apply Z.eqb_neq in Hn.
  rewrite (bind_done _ _ _ _ _ (load_done s n nb Hn Hnb)).
  rewrite Hf. reflexivity.
Qed.

(** On a free block whose neighbours are used blocks or region edges
    [merge_block] returns the block and changes nothing. *)
Lemma merge_block_maximal fuel s block b :
  block <> NULL -> blocks s !! block = Some b -> free b = true ->
  (prev_block b = NULL \/
   exists pb, blocks s !! prev_block b = Some pb /\ free pb = false) ->
  (next_block b = NULL \/
   exists nb, blocks s !! next_block b = Some nb /\ free nb = false) ->
  merge_block (S fuel) block s = Done block s.
Proof.
  intros Hn Hb Hf Hprev Hnext. unfold merge_block.
  rewrite (bind_done _ _ _ _ _ (load_done s block b Hn Hb)).
  rewrite Hf. cbn [negb].
  rewrite (bind_done _ _ _ _ _ (merge_prev_loop_stops fuel s block _ Hprev)).
  rewrite (bind_done _ _ _ _ _ (load_done s block b Hn Hb)).
  apply merge_next_loop_stops. exact Hnext.
Qed.

(** * Merging: the forward walk *)

(** C3: the code departs from the claim (and from the picture in the comment
    above [merge_block]) when the block given is followed by a free
    neighbour.  In the region "a" (free, 120), "b" (free, 120), "c" (used,
    3840), [merge_block] on "a" returns "b", not "a"; "b" now claims 240
    bytes from its own address and so runs into "c", while "a" is still in
    the chain with its 120 bytes: the lengths along the chain add up to
    4200 in a region of 4080 usable bytes.  Going backwards works:
    [merge_block] on "b" returns "a" with 240 bytes and "c" as its next
    neighbour. *)
Theorem merge_block_forward_keeps_both :
  let s := two_free_one_used in
  chain_length_sum 16 (blocks s) 65616 = Some 4080 /\
  (exists s',
     merge_block 16 65616 s = Done 65736 s' /\
     blocks s' !! 65616 = blocks s !! 65616 /\
     (next_block <$> blocks s' !! 65616) = Some 65736 /\
     (size <$> blocks s' !! 65736) = Some 240 /\
     (prev_block <$> blocks s' !! 65736) = Some NULL /\
     (next_block <$> blocks s' !! 65736) = Some 65856 /\
     65856 < 65736 + 240 /\
     chain_length_sum 16 (blocks s') 65616 = Some 4200) /\
  (exists s',
     merge_block 16 65736 s = Done 65616 s' /\
     (size <$> blocks s' !! 65616) = Some 240 /\
     (next_block <$> blocks s' !! 65616) = Some 65856 /\
     chain_length_sum 16 (blocks s') 65616 = Some 4080).
Proof.
  split; [reflexivity|]. split.
  - eexists. split; [vm_compute; reflexivity|].
    vm_compute. repeat split; reflexivity.
  - eexists. split; [vm_compute; reflexivity|].
    vm_compute. repeat split; reflexivity.
Qed.

(** * Frames *)

Lemma same_regions_refl s : same_regions s s.
Proof. repeat split. Qed.

Lemma same_regions_trans s1 s2 s3 :
  same_regions s1 s2 -> same_regions s2 s3 -> same_regions s1 s3.
Proof.
  intros (A1 & A2 & A3 & A4 & A5) (B1 & B2 & B3 & B4 & B5).
  repeat split; congruence.
Qed.

Lemma keeps_links_refl s : keeps_links s s.
Proof. intros a b Hb. exists b. auto. Qed.

Lemma keeps_links_trans s1 s2 s3 :
  keeps_links s1 s2 -> keeps_links s2 s3 -> keeps_links s1 s3.
Proof.
  intros H12 H23 a b Hb.
  destruct (H12 a b Hb) as (b2 & Hb2 & E2).
  destruct (H23 a b2 Hb2) as (b3 & Hb3 & E3).
  exists b3. split; [assumption | congruence].
Qed.

(** [split_block] on a tracked block always returns, touches neither the
    region list, the trace nor the free list, and keeps every free-list
    link. *)
Lemma split_block_runs (L : layout) (s : state) (block t : Z) (b : mem_block) :
  0 < HB L -> 0 < block -> blocks s !! block = Some b ->
  exists nb s',
    split_block L block t s = Done nb s' /\
    same_regions s s' /\
    g_free_list s' = g_free_list s /\
    keeps_links s s' /\
    (nb = NULL \/ (0 < nb /\ is_Some (blocks s' !! nb))).
Proof.
  intros HHB Hpos Hb.
  assert (Hb0 : (block =? NULL) = false) by (apply Z.eqb_neq; unfold NULL; lia).
  assert (Hstay : exists nb s', ret NULL s = Done nb s' /\ same_regions s s' /\
            g_free_list s' = g_free_list s /\ keeps_links s s' /\
            (nb = NULL \/ (0 < nb /\ is_Some (blocks s' !! nb)))).
  { exists NULL, s. split; [reflexivity|].
    split; [apply same_regions_refl|]. split; [reflexivity|].
    split; [apply keeps_links_refl | left; reflexivity]. }
  unfold split_block. rewrite Hb0.
  step_load.
  destruct ((0 <? t) && (wrap (t + HB L) <? size b)); [|exact Hstay].
  destruct (t <? HB L + ALIGN_SZ); [exact Hstay|].
  destruct (wrap (size b - t) <? HB L + ALIGN_SZ) eqn:Hu; [exact Hstay|].
  apply Z.ltb_ge in Hu. unfold ALIGN_SZ in Hu.
  set (u := wrap (size b - t)) in *.
  assert (Hne : block + u <> block) by lia.
  assert (Hne' : block <> block + u) by lia.
  assert (Hnb0 : block + u <> NULL) by (unfold NULL; lia).
  step_init. step_gets. step_modify.
  step_store. step_store. step_store. step_load. step_store. step_store.
  step_store. step_store.
  eexists. eexists. split; [reflexivity|].
  split; [repeat split|]. split; [reflexivity|]. split.
  - intros a b0 Hb0'. cbn [blocks].
    destruct (decide (a = block)) as [-> | Hab].
    + rewrite lookup_insert_eq. eexists. split; [reflexivity|].
      rewrite Hb in Hb0'. injection Hb0' as <-. reflexivity.
    + rewrite lookup_insert_ne by congruence.
      destruct (decide (a = block + u)) as [-> | Hau].
      * rewrite lookup_insert_eq. eexists. split; [reflexivity|].
        rewrite Hb0'. reflexivity.
      * rewrite lookup_insert_ne by congruence. exists b0. auto.
  - right. split; [lia|]. cbn [blocks].
    rewrite lookup_insert_ne by congruence. rewrite lookup_insert_eq. eauto.
Qed.

Lemma keeps_headers_refl s : keeps_headers s s.
Proof. intros a Ha. exact Ha. Qed.

Lemma keeps_headers_trans s1 s2 s3 :
  keeps_headers s1 s2 -> keeps_headers s2 s3 -> keeps_headers s1 s3.
Proof. intros H12 H23 a Ha. apply H23, H12, Ha. Qed.

Lemma keeps_links_headers s s' : keeps_links s s' -> keeps_headers s s'.
Proof.
  intros H a [b Hb]. destruct (H a b Hb) as (b' & Hb' & _). eauto.
Qed.

(** The unlinking loop of [reuse] terminates on a well-formed free list. *)
Lemma unlink_loop_runs fuel rb :
  rb <> NULL ->
  forall l s curr,
    free_chain (blocks s) curr l -> (length l <= fuel)%nat ->
    exists s',
      unlink_loop fuel rb curr s = Done tt s' /\
      same_regions s s' /\
      g_free_list s' = g_free_list s /\
      keeps_headers s s'.
Proof.
  intros Hrb. induction fuel as [|k IH]; intros l s curr Hch Hlen.
  - destruct l; [|cbn in Hlen; lia]. inversion Hch; subst.
    exists s. split; [reflexivity|]. split; [apply same_regions_refl|].
    split; [reflexivity | apply keeps_headers_refl].
  - inversion Hch as [|a c l' Ha Hc Hrest]; subst.
    + exists s. split; [reflexivity|]. split; [apply same_regions_refl|].
      split; [reflexivity | apply keeps_headers_refl].
    + cbn [unlink_loop].
      apply Z.eqb_neq in Ha as Ha'. rewrite Ha'.
      rewrite (bind_done _ _ _ _ _ (load_done s curr c Ha Hc)).
      destruct (next_free c =? rb) eqn:Hnext.
      * apply Z.eqb_eq in Hnext.
        pose proof (free_chain_head_fresh _ _ _ Hch) as Hfresh.
        rewrite Hnext in Hrest.
        inversion Hrest as [|a' r l'' Ha'' Hr Hrest']; subst; [congruence|].
        rewrite bind_assoc. step_load. step_store. step_load.
        destruct (IH l''
                    {| g_regions := g_regions s; g_allocations := g_allocations s;
                       g_region_head := g_region_head s;
                       g_region_tail := g_region_tail s;
                       g_free_list := g_free_list s;
                       blocks := <[curr := set_next_free (next_free r) c]> (blocks s);
                       regions := regions s; trace := trace s |}
                    (next_free r))
          as (s' & Hrun & Hsame & Hfl & Hkeep).
        { cbn [blocks]. eapply free_chain_transport; [exact Hrest'|].
          intros a b Hin Hb. exists b. split; [|reflexivity].
          rewrite lookup_insert_ne; [exact Hb|].
          intros ->. apply Hfresh. apply elem_of_cons. right. exact Hin. }
        { cbn in Hlen. lia. }
        exists s'. split; [exact Hrun|].
        split; [exact Hsame|]. split; [exact Hfl|].
        intros a Hsome. apply Hkeep. cbn [blocks].
        destruct (decide (a = curr)) as [-> | Hne].
        -- rewrite lookup_insert_eq. eauto.
        -- rewrite lookup_insert_ne by congruence. exact Hsome.
      * rewrite (bind_done _ _ _ _ _ (ret_done tt s)).
        rewrite (bind_done _ _ _ _ _ (load_done s curr c Ha Hc)).
        destruct (IH l' s (next_free c)) as (s' & Hrun & Hrest');
          [exact Hrest | cbn in Hlen; lia |].
        exists s'. split; [exact Hrun | exact Hrest'].
Qed.

Lemma store_runs s a f :
  a <> NULL -> is_Some (blocks s !! a) ->
  exists s',
    store a f s = Done tt s' /\
    same_regions s s' /\
    g_free_list s' = g_free_list s /\
    keeps_headers s s'.
Proof.
  intros Ha [b Hb]. eexists. split; [apply (store_done s a b f Ha Hb)|].
  split; [repeat split|]. split; [reflexivity|].
  intros x Hx. cbn [blocks with_blocks].
  destruct (decide (x = a)) as [-> | Hne].
  - rewrite lookup_insert_eq. eauto.
  - rewrite lookup_insert_ne by congruence. exact Hx.
Qed.

Lemma set_free_list_runs v s :
  same_regions s (with_g_free_list v s) /\
  keeps_headers s (with_g_free_list v s).
Proof. split; [repeat split | intros a Ha; exact Ha]. Qed.

(** The search of [reuse] under a recognised strategy. *)
Lemma search_finds (ENV : env) fuel sz s l :
  recognised (algo ENV) ->
  free_chain (blocks s) (g_free_list s) l -> (length l <= fuel)%nat ->
  (exists a, a ∈ l /\ qualifies s sz a) ->
  exists r,
    (if String.eqb (algo ENV) "first_fit" then first_fit fuel sz
     else if String.eqb (algo ENV) "best_fit" then best_fit fuel sz
     else if String.eqb (algo ENV) "worst_fit" then worst_fit fuel sz
     else ret NULL) s = Done r s /\
    r ∈ l /\ qualifies s sz r.
Proof.
  intros Halgo Hch Hlen Hex.
  destruct Halgo as [-> | [-> | ->]]; cbn [String.eqb Ascii.eqb Bool.eqb].
  - unfold first_fit. rewrite (bind_done _ _ _ _ _ (gets_done _ s)).
    destruct (first_fit_loop_finds fuel sz s _ l Hch Hlen) as (r & Hrun & Hr & Hnn).
    exists r. split; [exact Hrun|].
    destruct Hr as [-> | Hr]; [exfalso; apply (Hnn Hex); reflexivity | exact Hr].
  - unfold best_fit. rewrite (bind_done _ _ _ _ _ (gets_done _ s)).
    destruct (best_fit_loop_finds fuel sz s _ l NULL Hch Hlen) as (r & Hrun & Hr & Hq & Hnn);
      [left; reflexivity|].
    exists r. split; [exact Hrun|].
    assert (r <> NULL) by (apply Hnn; right; exact Hex).
    destruct Hr as [-> | Hr]; [congruence|].
    destruct Hq as [-> | Hq]; [congruence|]. auto.
  - unfold worst_fit. rewrite (bind_done _ _ _ _ _ (gets_done _ s)).
    destruct (worst_fit_loop_finds fuel sz s _ l NULL Hch Hlen) as (r & Hrun & Hr & Hq & Hnn);
      [left; reflexivity|].
    exists r. split; [exact Hrun|].
    assert (r <> NULL) by (apply Hnn; right; exact Hex).
    destruct Hr as [-> | Hr]; [congruence|].
    destruct Hq as [-> | Hq]; [congruence|]. auto.
Qed.

(** [reuse] on a well-formed free list that holds a large enough block. *)
Lemma reuse_runs (L : layout) (ENV : env) fuel sz s l :
  0 < HB L -> recognised (algo ENV) ->
  free_chain (blocks s) (g_free_list s) l -> (length l <= fuel)%nat ->
  (forall a, a ∈ l -> 0 < a) ->
  (exists a, a ∈ l /\ qualifies s sz a) ->
  exists rb s',
    reuse L ENV fuel sz s = Done rb s' /\
    rb ∈ l /\ qualifies s sz rb /\
    same_regions s s' /\ keeps_headers s s'.
Proof.
  intros HHB Halgo Hch Hlen Hpos Hex.
  destruct (search_finds ENV fuel sz s l Halgo Hch Hlen Hex) as (rb & Hsearch & Hin & Hq).
  pose proof (free_chain_nonnull _ _ _ _ Hch Hin) as Hnn.
  destruct (free_chain_tracked _ _ _ _ Hch Hin) as (b & Hb).
  exists rb. unfold reuse.
  rewrite (bind_done _ _ _ _ _ Hsearch).
  apply Z.eqb_neq in Hnn as Hnn'. rewrite Hnn'.
  rewrite (bind_done _ _ _ _ _ (load_done s rb b Hnn Hb)).
  destruct (split_block_runs L s rb (wrap (size b - sz)) b HHB (Hpos _ Hin) Hb)
    as (nb & s1 & Hsplit & Hsame1 & Hfl1 & Hlinks1 & Hnb).
  rewrite (bind_done _ _ _ _ _ Hsplit).
  rewrite (bind_done _ _ _ _ _ (gets_done _ s1)). rewrite Hfl1.
  pose proof (keeps_links_headers _ _ Hlinks1) as Hkeep1.
  assert (Hch1 : free_chain (blocks s1) (g_free_list s) l).
  { eapply free_chain_transport; [exact Hch|]. intros a b0 _ Hb0. apply Hlinks1, Hb0. }
  (* taking the block out of the list *)
  assert (Hunlink : exists s2,
    (if g_free_list s =? rb
     then c <- load (g_free_list s);; modify (with_g_free_list (next_free c))
     else unlink_loop fuel rb (g_free_list s)) s1 = Done tt s2 /\
    same_regions s1 s2 /\ keeps_headers s1 s2).
  { destruct (g_free_list s =? rb) eqn:Hhead.
    - apply Z.eqb_eq in Hhead. rewrite Hhead.
      destruct (Hkeep1 rb) as [c Hc]; [eauto|].
      rewrite (bind_done _ _ _ _ _ (load_done s1 rb c Hnn Hc)).
      eexists. split; [reflexivity|]. apply set_free_list_runs.
    - destruct (unlink_loop_runs fuel rb Hnn l s1 _ Hch1 Hlen)
        as (s2 & Hrun & Hsame & _ & Hkeep).
      exists s2. auto. }
  destruct Hunlink as (s2 & Hrun2 & Hsame2 & Hkeep2).
  rewrite (bind_done _ _ _ _ _ Hrun2).
  rewrite (bind_done _ _ _ _ _ (gets_done _ s2)).
  (* putting the tail in front *)
  assert (Hpush : exists s3,
    (if g_free_list s2 =? NULL then modify (with_g_free_list nb)
     else if nb =? NULL then ret tt
          else store nb (set_next_free (g_free_list s2));;;
               modify (with_g_free_list nb)) s2 = Done tt s3 /\
    same_regions s2 s3 /\ keeps_headers s2 s3).
  { destruct (g_free_list s2 =? NULL).
    - eexists. split; [reflexivity|]. apply set_free_list_runs.
    - destruct (nb =? NULL) eqn:Hnbz.
      + exists s2. split; [reflexivity|].
        split; [apply same_regions_refl | apply keeps_headers_refl].
      + apply Z.eqb_neq in Hnbz.
        destruct Hnb as [-> | [_ Hsome]]; [congruence|].
        destruct (store_runs s2 nb (set_next_free (g_free_list s2)) Hnbz (Hkeep2 _ Hsome))
          as (s' & Hst & Hsame & _ & Hkeep).
        rewrite (bind_done _ _ _ _ _ Hst).
        eexists. split; [reflexivity|].
        destruct (set_free_list_runs nb s') as [Hs Hk].
        split; [eapply same_regions_trans; eassumption
               | eapply keeps_headers_trans; eassumption]. }
  destruct Hpush as (s3 & Hrun3 & Hsame3 & Hkeep3).
  rewrite (bind_done _ _ _ _ _ Hrun3).
  assert (Hrb3 : is_Some (blocks s3 !! rb)) by (apply Hkeep3, Hkeep2, Hkeep1; eauto).
  destruct (store_runs s3 rb (set_free false) Hnn Hrb3) as (s4 & Hst & Hsame4 & _ & Hkeep4).
  rewrite (bind_done _ _ _ _ _ Hst).
  exists s4. split; [reflexivity|]. split; [exact Hin|]. split; [exact Hq|].
  split.
  - eapply same_regions_trans; [exact Hsame1|].
    eapply same_regions_trans; [exact Hsame2|].
    eapply same_regions_trans; [exact Hsame3 | exact Hsame4].
  - eapply keeps_headers_trans; [exact Hkeep1|].
    eapply keeps_headers_trans; [exact Hkeep2|].
    eapply keeps_headers_trans; [exact Hkeep3 | exact Hkeep4].
Qed.

(** * Allocation from the free list *)

Lemma memset_done (L : layout) p v n s :
  p <> NULL ->
  exists s',
    memset L p v n s = Done tt s' /\
    g_regions s' = g_regions s /\
    g_region_head s' = g_region_head s /\
    g_region_tail s' = g_region_tail s /\
    regions s' ⊆ regions s /\
    trace s' = trace s ++ [EMemset p v n].
Proof.
  intros Hp. unfold memset. apply Z.eqb_neq in Hp. rewrite Hp. cbn [andb].
  eexists. split; [reflexivity|]. cbn.
  repeat split. apply map_filter_subseteq.
Qed.

(** [malloc_impl] when [reuse] finds a block. *)
Lemma malloc_impl_hit
    (L : layout) (OS : os) (ENV : env) (fuel : nat) (sz : Z) (nm : string)
    (s : state) (l : list Z) :
  0 < HB L ->
  recognised (algo ENV) ->
  free_chain (blocks s) (g_free_list s) l ->
  (length l <= fuel)%nat ->
  (forall a, a ∈ l -> 0 < a) ->
  (exists a, a ∈ l /\ qualifies s (align (wrap (sz + RB L)) ALIGN_SZ) a) ->
  exists p s',
    malloc_impl L OS ENV fuel sz (Some nm) s = Done p s' /\
    p <> NULL /\
    p - HB L ∈ l /\
    qualifies s (align (wrap (sz + RB L)) ALIGN_SZ) (p - HB L) /\
    g_regions s' = g_regions s /\
    g_region_head s' = g_region_head s /\
    g_region_tail s' = g_region_tail s /\
    regions s' ⊆ regions s /\
    (scribble_check ENV <> 1 -> regions s' = regions s) /\
    trace s' = trace s ++ fill_events ENV (p - HB L) sz.
Proof.
  intros HHB Halgo Hch Hlen Hpos Hex.
  destruct (reuse_runs L ENV fuel _ s l HHB Halgo Hch Hlen Hpos Hex)
    as (rb & s1 & Hreuse & Hin & Hq & Hsame1 & Hkeep1).
  pose proof (free_chain_nonnull _ _ _ _ Hch Hin) as Hnn.
  destruct (free_chain_tracked _ _ _ _ Hch Hin) as (b & Hb).
  unfold malloc_impl. cbn zeta.
  rewrite (bind_done _ _ _ _ _ Hreuse).
  apply Z.eqb_neq in Hnn as Hnn'. rewrite Hnn'. cbn [negb].
  destruct (store_runs s1 rb (set_name nm) Hnn (Hkeep1 _ (ex_intro _ b Hb)))
    as (s2 & Hst & Hsame2 & _ & _).
  rewrite (bind_done _ _ _ _ _ Hst).
  destruct (same_regions_trans _ _ _ Hsame1 Hsame2) as (E1 & E2 & E3 & E4 & E5).
  exists (rb + HB L).
  replace (rb + HB L - HB L) with rb by lia.
  unfold fill_events.
  destruct (scribble_check ENV =? 1) eqn:Hscr.
  - destruct (memset_done L (rb + 1) 170 sz s2) as (s3 & Hms & F1 & F2 & F3 & F4 & F5);
      [specialize (Hpos _ Hin); unfold NULL; lia|].
    rewrite (bind_done _ _ _ _ _ Hms).
    exists s3. split; [reflexivity|].
    split; [specialize (Hpos _ Hin); unfold NULL; lia|].
    split; [exact Hin|]. split; [exact Hq|].
    split; [congruence|]. split; [congruence|]. split; [congruence|].
    split; [rewrite <- E4; exact F4|].
    split; [intros Hoff; apply Z.eqb_eq in Hscr; contradiction|].
    congruence.
  - rewrite (bind_done _ _ _ _ _ (ret_done tt s2)).
    exists s2. split; [reflexivity|].
    split; [specialize (Hpos _ Hin); unfold NULL; lia|].
    split; [exact Hin|]. split; [exact Hq|].
    split; [congruence|]. split; [congruence|]. split; [congruence|].
    split; [rewrite E4; reflexivity|].
    split; [intros _; exact E4|].
    rewrite app_nil_r. exact E5.
Qed.

(** C6, as amended: under a recognised strategy ("first_fit", "best_fit",
    "worst_fit", or the variable unset), with a non-null tag that fits the
    [name] array, in a state whose headers are memory of the process:
    whenever the free list is a well-formed chain that holds a block at
    least as long as the aligned total of the request, and every block of
    the list that the request would split has room for the header of the
    tail (and, with the debug fill on, the bytes to fill are mapped),
    [malloc_impl] returns the payload address of a block of that free list,
    requests no mapping, and leaves the region list as it was: the counters
    and the head and tail pointers are unchanged, no region header appears
    or changes, and the only event added to the trace is the debug fill when
    that is switched on.  In particular, after [allocate(100,"x")] and
    [release] of its result, [allocate(50,"y")] under first-fit returns the
    same pointer again and maps nothing. *)
Theorem malloc_impl_reuses_without_mapping :
  (forall (L : tagged_layout) (OS : os) (ENV : env) (fuel : nat) (sz : Z)
          (nm : string) (s : state) (l : list Z),
     0 < HB L ->
     recognised (algo ENV) ->
     free_chain (blocks s) (g_free_list s) l ->
     (length l <= fuel)%nat ->
     (forall a, a ∈ l -> 0 < a) ->
     (exists a, a ∈ l /\ qualifies s (align (wrap (sz + RB L)) ALIGN_SZ) a) ->
     tag_fits L (Some nm) ->
     laid_out L s ->
     (forall a, a ∈ l -> tail_room L s (align (wrap (sz + RB L)) ALIGN_SZ) a) ->
     (scribble_check ENV = 1 -> forall a, a ∈ l -> mapped s (a + 1) sz) ->
     exists p s',
       malloc_impl L OS ENV fuel sz (Some nm) s = Done p s' /\
       p <> NULL /\
       p - HB L ∈ l /\
       qualifies s (align (wrap (sz + RB L)) ALIGN_SZ) (p - HB L) /\
       g_regions s' = g_regions s /\
       g_region_head s' = g_region_head s /\
       g_region_tail s' = g_region_tail s /\
       regions s' ⊆ regions s /\
       (scribble_check ENV <> 1 -> regions s' = regions s) /\
       trace s' = trace s ++ fill_events ENV (p - HB L) sz) /\
  (exists s1 s2 s3,
     allocate 100 "x" initial_state = Done 65696 s1 /\
     release 65696 s1 = Done tt s2 /\
     allocate 50 "y" s2 = Done 65696 s3 /\
     trace s1 = [EMmap 4096 (Some 65536)] /\
     trace s2 = [EMmap 4096 (Some 65536); EMunmap 65615 132 false] /\
     trace s3 = trace s2 /\
     regions s3 = regions s1 /\
     g_regions s3 = g_regions s1 /\
     g_region_head s3 = g_region_head s1 /\
     g_region_tail s3 = g_region_tail s1).
Proof.
  split.
  - intros L OS ENV fuel sz nm s l HHB Halgo Hch Hlen Hpos Hex _ _ _ _.
    apply malloc_impl_hit; assumption.
  - eexists. eexists. eexists.
    split; [vm_compute; reflexivity|].
    split; [vm_compute; reflexivity|].
    split; [vm_compute; reflexivity|].
    vm_compute. repeat split; reflexivity.
Qed.

Lemma malloc_impl_reuses_without_mapping_witness :
  exists p s',
    malloc_impl sample_layout granting_os default_env 16 50 (Some "y") freed_once
    = Done p s' /\
    p <> NULL /\
    p - HB sample_layout ∈ [65616; 65732] /\
    g_regions s' = g_regions freed_once /\
    g_region_head s' = g_region_head freed_once /\
    g_region_tail s' = g_region_tail freed_once /\
    regions s' = regions freed_once /\
    trace s' = trace freed_once ++ [].
Proof.
  destruct (proj1 malloc_impl_reuses_without_mapping
              sample_tagged granting_os default_env 16%nat 50 "y" freed_once
              [65616; 65732])
    as (p & s' & Hrun & Hp & Hin & _ & H1 & H2 & H3 & _ & H4 & H5).
  - reflexivity.
  - left. reflexivity.
  - replace (g_free_list freed_once) with 65616 by (vm_compute; reflexivity).
    eapply (free_chain_cons _ 65616); [discriminate | vm_compute; reflexivity |].
    eapply (free_chain_cons _ 65732); [discriminate | vm_compute; reflexivity |].
    apply free_chain_nil.
  - cbn. lia.
  - intros a Ha.
    apply elem_of_cons in Ha. destruct Ha as [-> | Ha]; [reflexivity|].
    apply elem_of_cons in Ha. destruct Ha as [-> | Ha]; [reflexivity|].
    inversion Ha.
  - exists 65616. split; [apply list_elem_of_here|].
    eexists. split; [vm_compute; reflexivity | vm_compute; discriminate].
  - vm_compute. reflexivity.
  - repeat split; vm_compute; reflexivity.
  - intros a Ha b Hb _ [Hhead _].
    apply elem_of_cons in Ha. destruct Ha as [-> | Ha].
    { vm_compute in Hb. injection Hb as <-.
      vm_compute in Hhead. exfalso. apply Hhead. reflexivity. }
    apply list_elem_of_singleton in Ha. subst a.
    vm_compute in Hb. injection Hb as <-.
    vm_compute in Hhead. exfalso. apply Hhead. reflexivity.
  - intros Hon. vm_compute in Hon. discriminate.
  - exists p, s'. repeat split; try assumption.
    apply H4. vm_compute. discriminate.
Defined.

(** C6 as stated fails when [ALLOCATOR_ALGORITHM] names no known strategy:
    after [allocate(100,"x")] and [release], the free list holds a block of
    3964 bytes, yet [allocate(100,"y")] (aligned total 120) under the name
    "next_fit" maps a second region at 1114112 and serves the request from
    it. *)
Lemma unknown_strategy_maps_despite_free_block :
  qualifies freed_once (align (wrap (100 + RB sample_layout)) ALIGN_SZ) 65732 /\
  free_chain (blocks freed_once) (g_free_list freed_once) [65616; 65732] /\
  exists s',
    malloc_impl sample_layout granting_os (algorithm_env "next_fit") 16 100
      (Some "y") freed_once = Done 1114272 s' /\
    g_regions freed_once = 1 /\ g_regions s' = 2 /\
    g_region_tail freed_once = 65536 /\ g_region_tail s' = 1114112 /\
    trace s' = trace freed_once ++ [EMmap 4096 (Some 1114112)].
Proof.
  split; [|split].
  - eexists. split; [vm_compute; reflexivity | vm_compute; discriminate].
  - replace (g_free_list freed_once) with 65616 by (vm_compute; reflexivity).
    eapply (free_chain_cons _ 65616); [discriminate | vm_compute; reflexivity |].
    eapply (free_chain_cons _ 65732); [discriminate | vm_compute; reflexivity |].
    apply free_chain_nil.
  - eexists. split; [vm_compute; reflexivity|].
    vm_compute. repeat split; reflexivity.
Qed.

(** * Allocation from a new region *)

Lemma frame_refl s : frame s s.
Proof.
  split; [apply same_regions_refl|]. split; [reflexivity | apply keeps_headers_refl].
Qed.

Lemma frame_trans s1 s2 s3 : frame s1 s2 -> frame s2 s3 -> frame s1 s3.
Proof.
  intros (A & B & C) (A' & B' & C').
  split; [eapply same_regions_trans; eassumption|].
  split; [congruence | eapply keeps_headers_trans; eassumption].
Qed.

Lemma store_frame s a f :
  a <> NULL -> is_Some (blocks s !! a) ->
  exists s', store a f s = Done tt s' /\ frame s s'.
Proof.
  intros Ha Hsome.
  destruct (store_runs s a f Ha Hsome) as (s' & Hrun & H1 & H2 & H3).
  exists s'. split; [exact Hrun|]. split; [exact H1|]. split; assumption.
Qed.

Lemma init_frame s a f :
  a <> NULL ->
  exists s', init a f s = Done tt s' /\ frame s s' /\ is_Some (blocks s' !! a).
Proof.
  intros Ha. eexists. split; [apply (init_done s a f Ha)|].
  split.
  - split; [repeat split|]. split; [reflexivity|].
    intros x Hx. cbn [blocks with_blocks].
    destruct (decide (x = a)) as [-> | Hne].
    + rewrite lookup_insert_eq. eauto.
    + rewrite lookup_insert_ne by congruence. exact Hx.
  - cbn [blocks with_blocks]. rewrite lookup_insert_eq. eauto.
Qed.

Lemma set_allocations_frame v s : frame s (with_g_allocations v s).
Proof. split; [repeat split|]. split; [reflexivity | intros a Ha; exact Ha]. Qed.

Lemma split_block_frame (L : layout) s block t :
  0 < HB L -> 0 < block -> is_Some (blocks s !! block) ->
  exists nb s',
    split_block L block t s = Done nb s' /\ frame s s' /\
    (nb = NULL \/ (nb <> NULL /\ is_Some (blocks s' !! nb))).
Proof.
  intros HHB Hpos [b Hb].
  destruct (split_block_runs L s block t b HHB Hpos Hb)
    as (nb & s' & Hrun & H1 & H2 & H3 & H4).
  exists nb, s'. split; [exact Hrun|]. split.
  - split; [exact H1|]. split; [exact H2 | apply keeps_links_headers, H3].
  - destruct H4 as [-> | [Hp Hs]]; [left; reflexivity|].
    right. split; [unfold NULL; lia | exact Hs].
Qed.

(** Registering the new region in the region list, followed by any
    continuation [k]. *)
Lemma register_region_runs s region :
  region <> NULL -> region_list_ok s ->
  exists s',
    (forall B (k : M B),
       (n <- gets g_regions;;
        init_region region (set_region_number n);;;
        modify (with_g_regions (wrap (n + 1)));;;
        h <- gets g_region_head;;
        t <- gets g_region_tail;;
        (if (h =? NULL) && (t =? NULL) then
           modify (with_g_region_head region);;;
           modify (with_g_region_tail region)
         else
           store_region t (set_next_region region);;;
           modify (with_g_region_tail region));;;
        k) s = k s') /\
    g_regions s' = wrap (g_regions s + 1) /\
    g_region_tail s' = region /\
    (g_region_head s = NULL -> g_region_tail s = NULL -> g_region_head s' = region) /\
    (region_number <$> regions s' !! region) = Some (g_regions s) /\
    trace s' = trace s /\
    blocks s' = blocks s /\
    g_free_list s' = g_free_list s.
Proof.
  intros Hnn Hok.
  apply Z.eqb_neq in Hnn as Hnn'.
  destruct Hok as [[Hh Ht] | [Ht [r Hr]]].
  - eexists. split.
    + intros B k.
      rewrite (bind_done _ _ _ _ _ (gets_done _ s)).
      unfold init_region, bind at 1. rewrite Hnn'.
      step_modify. step_gets. step_gets.
      rewrite Hh, Ht. cbn [Z.eqb NULL andb].
      rewrite bind_assoc. step_modify. step_modify. reflexivity.
    + cbn. repeat split. rewrite lookup_insert_eq. reflexivity.
  - apply Z.eqb_neq in Ht as Ht'.
    destruct (decide (g_region_tail s = region)) as [Heq | Hne].
    + eexists. split.
      * intros B k.
        rewrite (bind_done _ _ _ _ _ (gets_done _ s)).
        unfold init_region, bind at 1. rewrite Hnn'.
        step_modify. step_gets. step_gets.
        rewrite Ht', andb_false_r. rewrite bind_assoc.
        unfold store_region, bind at 1. rewrite Ht'. cbn [regions].
        rewrite Heq, lookup_insert_eq.
        step_modify. reflexivity.
      * cbn. repeat split; try congruence. rewrite lookup_insert_eq. reflexivity.
    + eexists. split.
      * intros B k.
        rewrite (bind_done _ _ _ _ _ (gets_done _ s)).
        unfold init_region, bind at 1. rewrite Hnn'.
        step_modify. step_gets. step_gets.
        rewrite Ht', andb_false_r. rewrite bind_assoc.
        unfold store_region, bind at 1. rewrite Ht'. cbn [regions].
        rewrite lookup_insert_ne by congruence. rewrite Hr.
        step_modify. reflexivity.
      * cbn. repeat split; try congruence.
        rewrite lookup_insert_ne by congruence. rewrite lookup_insert_eq. reflexivity.
Qed.

(** The miss path when the operating system grants the mapping: either the
    call completes with the region appended to the region list, or it dies
    writing through the NULL that [split_block] returned, which takes a
    non-empty free list. *)
Lemma malloc_miss_granted (L : layout) (OS : os) (ENV : env)
    sz nm actual_sz aligned_sz s region :
  0 < HB L -> 0 < region -> region_list_ok s ->
  os_mmap OS (trace s) (align (wrap (aligned_sz + RB L)) (PG L)) = Some region ->
  (malloc_miss L OS ENV sz nm actual_sz aligned_sz s = Stuck NullAccess /\
   g_free_list s <> NULL) \/
  exists s',
    malloc_miss L OS ENV sz nm actual_sz aligned_sz s
    = Done (region + HB L + HB L) s' /\
    g_regions s' = wrap (g_regions s + 1) /\
    g_region_tail s' = region /\
    (g_region_head s = NULL -> g_region_tail s = NULL -> g_region_head s' = region) /\
    trace s' = trace s
               ++ EMmap (align (wrap (aligned_sz + RB L)) (PG L)) (Some region)
               :: fill_events ENV (region + HB L) aligned_sz.
Proof.
  intros HHB Hpos Hok Hgrant.
  set (len := align (wrap (aligned_sz + RB L)) (PG L)) in *.
  set (s0 := with_trace (trace s ++ [EMmap len (Some region)]) s).
  assert (Hnn : region <> NULL) by (unfold NULL; lia).
  assert (Hbn : region + HB L <> NULL) by (unfold NULL; lia).
  assert (Hok0 : region_list_ok s0) by exact Hok.
  destruct (register_region_runs s0 region Hnn Hok0)
    as (s1 & Hreg & R1 & R2 & R3 & _ & R5 & R6 & R7).
  remember (malloc_miss L OS ENV sz nm actual_sz aligned_sz s) as out eqn:Hout.
  unfold malloc_miss in Hout. cbn zeta in Hout. fold len in Hout.
  unfold mmap, bind at 1 in Hout. rewrite Hgrant in Hout. fold s0 in Hout.
  rewrite Hreg in Hout.
  destruct (init_frame s1 (region + HB L) (set_free false) Hbn)
    as (s2 & Hrun2 & F2 & T2).
  rewrite (bind_done _ _ _ _ _ Hrun2) in Hout.
  destruct (store_frame s2 (region + HB L) (set_size (wrap (len - RB L))) Hbn T2)
    as (s3 & Hrun3 & F3).
  rewrite (bind_done _ _ _ _ _ Hrun3) in Hout.
  pose proof (proj2 (proj2 F3) _ T2) as T3.
  pose proof (frame_trans _ _ _ F2 F3) as Fa. clear F2 F3 Hrun2 Hrun3 T2.
  rewrite (bind_done _ _ _ _ _ (gets_done _ s3)) in Hout.
  destruct (store_frame s3 (region + HB L) (set_block_number (g_allocations s3)) Hbn T3)
    as (s4 & Hrun4 & F4).
  rewrite (bind_done _ _ _ _ _ Hrun4) in Hout.
  pose proof (proj2 (proj2 F4) _ T3) as T4.
  pose proof (frame_trans _ _ _ Fa F4) as Fb. clear Fa F4 Hrun4.
  rewrite (bind_done _ _ _ _ _ (modify_done _ s4)) in Hout.
  pose proof (frame_trans _ _ _ Fb
                (set_allocations_frame (wrap (g_allocations s3 + 1)) s4)) as Fc.
  clear Fb.
  set (s5 := with_g_allocations (wrap (g_allocations s3 + 1)) s4) in *.
  assert (T5 : is_Some (blocks s5 !! (region + HB L))) by exact T4.
  rename Fc into F5.
  (* the tag *)
  assert (Htag : exists s6,
    (match nm with
     | Some v => store (region + HB L) (set_name v)
     | None => ret tt
     end) s5 = Done tt s6 /\ frame s1 s6 /\ is_Some (blocks s6 !! (region + HB L))).
  { destruct nm as [v|].
    - destruct (store_frame s5 (region + HB L) (set_name v) Hbn T5) as (s6 & Hrun & F6).
      exists s6. split; [exact Hrun|].
      split; [eapply frame_trans; eassumption | exact (proj2 (proj2 F6) _ T5)].
    - exists s5. split; [reflexivity|]. split; assumption. }
  destruct Htag as (s6 & Hrun6 & F6 & [b6 Hb6]).
  rewrite (bind_done _ _ _ _ _ Hrun6) in Hout.
  rewrite (bind_done _ _ _ _ _ (load_done s6 _ b6 Hbn Hb6)) in Hout.
  destruct (split_block_frame L s6 (region + HB L) (wrap (size b6 - actual_sz)) HHB
              ltac:(lia) (ex_intro _ b6 Hb6))
    as (nb & s7 & Hrun7 & F7 & Hnb).
  rewrite (bind_done _ _ _ _ _ Hrun7) in Hout.
  pose proof (frame_trans _ _ _ F6 F7) as Fd.
  rewrite (bind_done _ _ _ _ _ (gets_done _ s7)) in Hout. cbv beta in Hout.
  assert (Hfl : g_free_list s7 = g_free_list s)
    by (destruct Fd as (_ & E & _); rewrite E; exact R7).
  rewrite Hfl in Hout.
  (* the tail goes in front of the free list *)
  assert (Hpush :
    ((if g_free_list s =? NULL then modify (with_g_free_list nb)
      else store nb (set_next_free (g_free_list s));;;
           modify (with_g_free_list nb)) s7 = Stuck NullAccess /\
     g_free_list s <> NULL) \/
    exists s8,
      (if g_free_list s =? NULL then modify (with_g_free_list nb)
       else store nb (set_next_free (g_free_list s));;;
            modify (with_g_free_list nb)) s7 = Done tt s8 /\ same_regions s1 s8).
  { destruct (g_free_list s =? NULL) eqn:Hfz.
    - right. eexists. split; [reflexivity|].
      eapply same_regions_trans; [exact (proj1 Fd)|]. repeat split.
    - apply Z.eqb_neq in Hfz.
      destruct Hnb as [-> | [Hnbz Hsome]].
      + left. split; [reflexivity | exact Hfz].
      + right.
        destruct (store_frame s7 nb (set_next_free (g_free_list s)) Hnbz Hsome)
          as (s8 & Hrun8 & F8).
        rewrite (bind_done _ _ _ _ _ Hrun8).
        eexists. split; [reflexivity|].
        eapply same_regions_trans; [exact (proj1 Fd)|].
        eapply same_regions_trans; [exact (proj1 F8)|]. repeat split. }
  destruct Hpush as [[Hcrash Hfz] | (s8 & Hrun8 & (E1 & E2 & E3 & E4 & E5))].
  - left. split; [|exact Hfz]. rewrite Hout. unfold bind at 1. rewrite Hcrash. reflexivity.
  - right. rewrite (bind_done _ _ _ _ _ Hrun8) in Hout.
    unfold fill_events.
    destruct (scribble_check ENV =? 1).
    + destruct (memset_done L (region + HB L + 1) 170 aligned_sz s8)
        as (s9 & Hms & G1 & G2 & G3 & _ & G5); [unfold NULL; lia|].
      rewrite (bind_done _ _ _ _ _ Hms) in Hout.
      exists s9. split; [exact Hout|].
      split; [rewrite G1, E1, R1; reflexivity|].
      split; [rewrite G3, E3, R2; reflexivity|].
      split; [intros Hh Ht; rewrite G2, E2; apply R3; assumption|].
      rewrite G5, E5, R5. unfold s0. cbn [trace with_trace].
      rewrite <- app_assoc. reflexivity.
    + rewrite (bind_done _ _ _ _ _ (ret_done tt s8)) in Hout.
      exists s8. split; [exact Hout|].
      split; [rewrite E1, R1; reflexivity|].
      split; [rewrite E3, R2; reflexivity|].
      split; [intros Hh Ht; rewrite E2; apply R3; assumption|].
      rewrite E5, R5. reflexivity.
Qed.

(** * Releasing *)

(** What [free_impl] does for any tracked block, under any layout: the
    request to the operating system starts one byte before the block header
    and spans the block's length plus one region header. *)
Lemma free_impl_request (L : layout) (OS : os) (s : state) (ptr : Z) (b : mem_block) :
  ptr <> NULL -> ptr - HB L <> NULL -> blocks s !! (ptr - HB L) = Some b ->
  exists s',
    free_impl L OS ptr s = Done tt s' /\
    (free <$> blocks s' !! (ptr - HB L)) = Some true /\
    g_free_list s' = ptr - HB L /\
    trace s' = trace s ++
      [EMunmap (ptr - HB L - 1) (wrap (size b + RB L))
         (os_munmap OS (trace s) (ptr - HB L - 1) (wrap (size b + RB L)))].
Proof.
  intros Hp Hblk Hb. unfold free_impl.
  apply Z.eqb_neq in Hp. rewrite Hp.
  step_store. step_gets.
  destruct (g_free_list s =? NULL).
  - step_modify. step_load.
    eexists. split; [reflexivity|]. cbn.
    rewrite lookup_insert_eq. repeat split.
  - rewrite bind_assoc. step_store. step_modify. step_load.
    eexists. split; [reflexivity|]. cbn.
    rewrite lookup_insert_eq. repeat split.
Qed.

(** C1: the code departs from the claim in what it asks the operating system
    to unmap.  [allocate(100,"x")] on the empty engine maps 4096 bytes at
    65536 and returns 65696; [release(65696)] marks the block at 65616 free
    and makes it the head of the free list, but then calls
    [munmap(65615, 132)]: the address is the byte before the block header
    ([(void * ) block - 1]), not the base of the region, and the length is
    the block's size plus a region header, not the mapped length.  Releasing
    NULL changes nothing. *)
Theorem free_impl_unmaps_from_block_minus_one :
  (forall L O s, free_impl L O NULL s = Done tt s) /\
  exists s1 s2,
    allocate 100 "x" initial_state = Done 65696 s1 /\
    trace s1 = [EMmap 4096 (Some 65536)] /\
    release 65696 s1 = Done tt s2 /\
    (free <$> blocks s2 !! (65696 - HB sample_layout)) = Some true /\
    g_free_list s2 = 65696 - HB sample_layout /\
    (next_free <$> blocks s2 !! g_free_list s2) = Some (g_free_list s1) /\
    trace s2 = [EMmap 4096 (Some 65536); EMunmap 65615 132 false] /\
    65615 = 65696 - HB sample_layout - 1 /\
    132 = 100 + RB sample_layout + RB sample_layout.
Proof.
  split; [reflexivity|].
  eexists. eexists.
  split; [vm_compute; reflexivity|].
  split; [reflexivity|].
  split; [vm_compute; reflexivity|].
  vm_compute. repeat split; reflexivity.
Qed.

(** A release onto an empty free list does not clear the link of the block:
    [if (g_free_list == NULL) g_free_list = block;] keeps whatever
    [next_free] held.  Here the block of "y" still points to the block that
    "z" has been given since, so after [release] the free list is "y", "z",
    and the next request is served with the memory "z" is using. *)
Example release_keeps_a_stale_link :
  exists s5 s6,
    (p <- allocate 100 "x";; release p;;;
     q <- allocate 50 "y";;
     r <- allocate 3944 "z";;
     release q;;; ret (q, r)) initial_state = Done (65696, 65812) s5 /\
    g_free_list s5 = 65616 /\
    (next_free <$> blocks s5 !! 65616) = Some 65732 /\
    (free <$> blocks s5 !! 65732) = Some false /\
    (name <$> blocks s5 !! 65732) = Some "z" /\
    allocate 3000 "w" s5 = Done 65812 s6.
Proof.
  eexists. eexists. split; [vm_compute; reflexivity|].
  vm_compute. repeat split; reflexivity.
Qed.

(** * Bulk allocation *)

(** [calloc_impl] returns what [malloc_impl] returned for the product of its
    arguments, after a [memset] of zeros over that many bytes from the
    result. *)
Lemma calloc_impl_runs (L : layout) (OS : os) (ENV : env) fuel nmemb sz nm s p s1 :
  malloc_impl L OS ENV fuel (wrap (nmemb * sz)) nm s = Done p s1 ->
  p <> NULL ->
  exists s2,
    calloc_impl L OS ENV fuel nmemb sz nm s = Done p s2 /\
    trace s2 = trace s1 ++ [EMemset p 0 (wrap (nmemb * sz))].
Proof.
  intros Hrun Hp. unfold calloc_impl.
  rewrite (bind_done _ _ _ _ _ Hrun).
  destruct (memset_done L p 0 (wrap (nmemb * sz)) s1 Hp)
    as (s2 & Hms & _ & _ & _ & _ & Htr).
  rewrite (bind_done _ _ _ _ _ Hms).
  exists s2. split; [reflexivity | exact Htr].
Qed.

(** The [memset] is not guarded: when [malloc_impl] returns NULL and the
    product is not zero, [calloc_impl] writes through NULL. *)
Lemma calloc_impl_null (L : layout) (OS : os) (ENV : env) fuel nmemb sz nm s s1 :
  malloc_impl L OS ENV fuel (wrap (nmemb * sz)) nm s = Done NULL s1 ->
  0 < wrap (nmemb * sz) ->
  calloc_impl L OS ENV fuel nmemb sz nm s = Stuck NullAccess.
Proof.
  intros Hrun Hn. unfold calloc_impl.
  rewrite (bind_done _ _ _ _ _ Hrun).
  unfold memset, bind. apply Z.ltb_lt in Hn. rewrite Hn. reflexivity.
Qed.

(** C5: the code departs from the claim when the allocation fails.  With an
    empty free list and an operating system that refuses the mapping,
    [malloc_impl(16, "t")] returns NULL with nothing changed but the trace,
    and [calloc_impl(1, 16, "t")] goes on to [memset(NULL, 0, 16)]: it writes
    through the null result instead of returning it. *)
Theorem calloc_impl_fills_a_null_result :
  malloc_impl sample_layout refusing_os default_env 16 (wrap (1 * 16)) (Some "t")
    initial_state
  = Done NULL (with_trace [EMmap 4096 None] initial_state) /\
  memset sample_layout NULL 0 (wrap (1 * 16))
    (with_trace [EMmap 4096 None] initial_state)
  = Stuck NullAccess /\
  calloc_impl sample_layout refusing_os default_env 16 1 16 (Some "t") initial_state
  = Stuck NullAccess.
Proof. repeat split; vm_compute; reflexivity. Qed.

(** * Debug fill *)

(** Under every layout the fill of the source, which starts at
    [(void * ) block + 1], lands inside the header of the block it is meant
    to spare. *)
Lemma fill_hits_the_header (L : layout) (ENV : env) block n :
  1 < HB L -> 0 < n -> scribble_check ENV = 1 ->
  exists p, fill_events ENV block n = [EMemset p 170 n] /\
            block < p < block + HB L /\
            overlaps p n block (HB L) = true.
Proof.
  intros HHB Hn Hon. exists (block + 1). unfold fill_events, overlaps.
  rewrite Hon. split; [reflexivity|]. split; [lia|].
  apply andb_true_iff. split; [apply andb_true_iff; split|]; apply Z.ltb_lt; lia.
Qed.

(** C9: the code departs from the claim in where the sentinel goes.  With
    [ALLOCATOR_SCRIBBLE=1], [allocate(100,"x")] on the empty engine returns
    the payload address 65696 of the block at 65616, but fills 120 bytes
    from 65617 ([(void * ) block + 1]): the fill starts one byte into the
    block header instead of at the payload, writes over the header, and ends
    at 65737, past the start of the next header at 65732.  On the reuse path
    ([allocate(100,"x")], [release], then [allocate(50,"y")] with the flag
    set) the fill is 50 bytes from 65617 while the payload starts at 65696. *)
Theorem scribble_starts_inside_the_header :
  (exists s',
     allocate_scribbling 100 "x" initial_state = Done 65696 s' /\
     trace s' = [EMmap 4096 (Some 65536); EMemset 65617 170 120] /\
     65617 = 65696 - HB sample_layout + 1 /\
     blocks (exec (allocate 100 "x") initial_state) !! 65616 <> None /\
     blocks (exec (allocate 100 "x") initial_state) !! 65732 <> None /\
     blocks s' !! 65616 = None /\
     blocks s' !! 65732 = None) /\
  (exists s1 s2 s3,
     allocate 100 "x" initial_state = Done 65696 s1 /\
     release 65696 s1 = Done tt s2 /\
     allocate_scribbling 50 "y" s2 = Done 65696 s3 /\
     trace s3 = trace s2 ++ [EMemset 65617 170 50] /\
     blocks s3 !! 65616 = None).
Proof.
  split.
  - eexists. split; [vm_compute; reflexivity|].
    vm_compute. repeat split; try reflexivity; discriminate.
  - eexists. eexists. eexists.
    split; [vm_compute; reflexivity|].
    split; [vm_compute; reflexivity|].
    split; [vm_compute; reflexivity|].
    vm_compute. split; reflexivity.
Qed.

(** * The block ledger *)

(** C7: the code departs from the claim once the debug fill is on.  Without
    the flag, [allocate(100,"x")] on the empty engine leaves a region whose
    block lengths add up to 4080 = 4096 - 16.  With [ALLOCATOR_SCRIBBLE=1]
    the same call fills 120 bytes from 65617, which writes over the header of
    the block just served (at 65616) and the first bytes of the header of the
    free tail (at 65732): neither recorded length survives, and the chain of
    the region can no longer be read.

    Even without the flag the length recorded for the served block is the
    payload plus a region header, 116, because [actual_sz] adds
    [sizeof(struct mem_region)]; with a block header larger than a region
    header, as in the sample layout, the zero fill of
    [bulk_allocate(1, 100, "x")] over its 100 payload bytes therefore runs
    into the header of the free tail as well. *)
Theorem scribble_breaks_the_block_ledger :
  chain_length_sum 16 (blocks (exec (allocate 100 "x") initial_state)) 65616
  = Some (4096 - RB sample_layout) /\
  (size <$> blocks (exec (allocate 100 "x") initial_state) !! 65616)
  = Some (100 + RB sample_layout) /\
  (exists s',
     allocate_scribbling 100 "x" initial_state = Done 65696 s' /\
     g_region_head s' = 65536 /\
     trace s' = [EMmap 4096 (Some 65536); EMemset 65617 170 120] /\
     overlaps 65617 120 65616 (HB sample_layout) = true /\
     overlaps 65617 120 65732 (HB sample_layout) = true /\
     blocks s' !! 65616 = None /\
     blocks s' !! 65732 = None /\
     chain_length_sum 16 (blocks s') 65616 = None) /\
  (exists s',
     calloc_impl sample_layout granting_os default_env 16 1 100 (Some "x")
       initial_state = Done 65696 s' /\
     trace s' = [EMmap 4096 (Some 65536); EMemset 65696 0 100] /\
     overlaps 65696 100 65732 (HB sample_layout) = true /\
     blocks s' !! 65732 = None /\
     chain_length_sum 16 (blocks s') 65616 = None).
Proof.
  split; [reflexivity|]. split; [reflexivity|]. split.
  - eexists. split; [vm_compute; reflexivity|].
    vm_compute. repeat split; reflexivity.
  - eexists. split; [vm_compute; reflexivity|].
    vm_compute. repeat split; reflexivity.
Qed.

(** * First fit *)

Lemma first_fit_loop_first fuel sz s curr l :
  free_chain (blocks s) curr l -> (length l <= fuel)%nat ->
  exists r,
    first_fit_loop fuel sz curr s = Done r s /\ first_qualifying s sz l r.
Proof.
  intros Hch. revert fuel.
  induction Hch as [|a b l Ha Hb Hc IH]; intros fuel Hlen.
  - exists NULL. split; [destruct fuel; reflexivity|].
    left. split; [reflexivity|]. intros a Ha. inversion Ha.
  - destruct fuel as [|k]; [cbn in Hlen; lia|].
    cbn [first_fit_loop].
    apply Z.eqb_neq in Ha as Ha'. rewrite Ha'.
    rewrite (bind_done _ _ _ _ _ (load_done s a b Ha Hb)).
    destruct (sz <=? size b) eqn:Hq.
    + apply Z.leb_le in Hq. exists a. split; [reflexivity|].
      right. split; [exact Ha|]. split; [exists b; auto|].
      exists [], l. split; [reflexivity|]. intros x Hx. inversion Hx.
    + apply Z.leb_gt in Hq.
      assert (Hnq : ~ qualifies s sz a).
      { intros (b0 & Hb0 & Hsz). rewrite Hb in Hb0. injection Hb0 as <-. lia. }
      destruct (IH k ltac:(cbn in Hlen; lia)) as (r & Hrun & Hr).
      exists r. split; [exact Hrun|].
      destruct Hr as [[-> Hnone] | (Hn & Hqr & before & after & -> & Hbef)].
      * left. split; [reflexivity|]. intros x Hx.
        apply elem_of_cons in Hx. destruct Hx as [-> | Hx]; [exact Hnq | exact (Hnone x Hx)].
      * right. split; [exact Hn|]. split; [exact Hqr|].
        exists (a :: before), after. split; [reflexivity|].
        intros x Hx. apply elem_of_cons in Hx.
        destruct Hx as [-> | Hx]; [exact Hnq | exact (Hbef x Hx)].
Qed.

(** X1: on a well-formed free list [first_fit] returns the first block in
    list order that is at least as long as the request, with every block
    before it too short; it returns NULL exactly when no block qualifies;
    and it leaves the state as it was. *)
Theorem first_fit_first_qualifying fuel sz s l :
  free_chain (blocks s) (g_free_list s) l -> (length l <= fuel)%nat ->
  exists r, first_fit fuel sz s = Done r s /\ first_qualifying s sz l r.
Proof.
  intros Hch Hlen. unfold first_fit.
  rewrite (bind_done _ _ _ _ _ (gets_done _ s)).
  apply first_fit_loop_first; assumption.
Qed.

(** The free list of [two_free_one_used]: "b" at 65736, then "a" at 65616. *)
Lemma two_free_one_used_chain :
  free_chain (blocks two_free_one_used) (g_free_list two_free_one_used)
    [65736; 65616].
Proof.
  replace (g_free_list two_free_one_used) with 65736 by (vm_compute; reflexivity).
  eapply (free_chain_cons _ 65736); [discriminate | vm_compute; reflexivity |].
  eapply (free_chain_cons _ 65616); [discriminate | vm_compute; reflexivity |].
  apply free_chain_nil.
Defined.

Lemma first_fit_first_qualifying_witness :
  exists r, first_fit 16 120 two_free_one_used = Done r two_free_one_used /\
            first_qualifying two_free_one_used 120 [65736; 65616] r.
Proof.
  apply (first_fit_first_qualifying 16 120 two_free_one_used [65736; 65616]).
  - exact two_free_one_used_chain.
  - cbn. lia.
Defined.

(** * Best fit and worst fit on any free list *)

(** X2: on a well-formed free list [best_fit] returns, without changing the
    state, a block of the smallest size among those at least as long as the
    request, and of several such blocks the one scanned last; NULL exactly
    when no block qualifies. *)
Theorem best_fit_last_smallest fuel sz s l :
  free_chain (blocks s) (g_free_list s) l -> (length l <= fuel)%nat ->
  exists r, best_fit fuel sz s = Done r s /\ last_smallest s sz l r.
Proof.
  intros Hch Hlen. unfold best_fit.
  rewrite (bind_done _ _ _ _ _ (gets_done _ s)).
  apply (best_fit_loop_last fuel sz s _ l Hch Hlen [] NULL).
  left. split; [reflexivity|]. intros a Ha. inversion Ha.
Qed.

Lemma best_fit_last_smallest_witness :
  exists r, best_fit 16 120 two_free_one_used = Done r two_free_one_used /\
            last_smallest two_free_one_used 120 [65736; 65616] r.
Proof.
  apply (best_fit_last_smallest 16 120 two_free_one_used [65736; 65616]).
  - exact two_free_one_used_chain.
  - cbn. lia.
Defined.

(** X3: on a well-formed free list [worst_fit] returns, without changing the
    state, a block of the largest size among those at least as long as the
    request, and of several such blocks the one scanned last; NULL exactly
    when no block qualifies. *)
Theorem worst_fit_last_largest fuel sz s l :
  free_chain (blocks s) (g_free_list s) l -> (length l <= fuel)%nat ->
  exists r, worst_fit fuel sz s = Done r s /\ last_largest s sz l r.
Proof.
  intros Hch Hlen. unfold worst_fit.
  rewrite (bind_done _ _ _ _ _ (gets_done _ s)).
  apply (worst_fit_loop_last fuel sz s _ l Hch Hlen [] NULL).
  left. split; [reflexivity|]. intros a Ha. inversion Ha.
Qed.

Lemma worst_fit_last_largest_witness :
  exists r, worst_fit 16 120 two_free_one_used = Done r two_free_one_used /\
            last_largest two_free_one_used 120 [65736; 65616] r.
Proof.
  apply (worst_fit_last_largest 16 120 two_free_one_used [65736; 65616]).
  - exact two_free_one_used_chain.
  - cbn. lia.
Defined.

(** * What a release changes *)

(** The exact effect of [free_impl] on a tracked block. *)
Lemma free_impl_post (L : layout) (OS : os) (s : state) (ptr : Z) (b : mem_block) :
  ptr <> NULL -> ptr - HB L <> NULL -> blocks s !! (ptr - HB L) = Some b ->
  exists s',
    free_impl L OS ptr s = Done tt s' /\
    g_free_list s' = ptr - HB L /\
    blocks s' !! (ptr - HB L)
    = Some (set_next_free
              (if g_free_list s =? NULL then next_free b else g_free_list s)
              (set_free true b)) /\
    (forall a, a <> ptr - HB L -> blocks s' !! a = blocks s !! a) /\
    g_allocations s' = g_allocations s /\
    g_regions s' = g_regions s /\
    g_region_head s' = g_region_head s /\
    g_region_tail s' = g_region_tail s /\
    regions s' = regions s /\
    trace s' = trace s ++ [EMunmap (ptr - HB L - 1) (wrap (size b + RB L))
                             (os_munmap OS (trace s) (ptr - HB L - 1)
                                (wrap (size b + RB L)))].
Proof.
  intros Hp Hblk Hb. unfold free_impl.
  apply Z.eqb_neq in Hp. rewrite Hp.
  step_store. step_gets.
  destruct (g_free_list s =? NULL).
  - step_modify. step_load.
    eexists. split; [reflexivity|]. cbn.
    split; [reflexivity|].
    split; [rewrite lookup_insert_eq; destruct b; reflexivity|].
    split; [intros a Ha; rewrite lookup_insert_ne by congruence; reflexivity|].
    repeat split.
  - rewrite bind_assoc. step_store. step_modify. step_load.
    eexists. split; [reflexivity|]. cbn.
    split; [reflexivity|].
    split; [rewrite lookup_insert_eq; reflexivity|].
    split; [intros a Ha; rewrite lookup_insert_ne by congruence; reflexivity|].
    repeat split.
Qed.

(** X4: [free_impl] on the payload pointer of a block whose header is
    memory of the process, when [munmap] refuses the request (as it does for
    an address that is not page-aligned): the call returns, makes that block
    the head of the free list with its free flag set, and changes nothing
    else in the ledger.  The block keeps its size, tag, sequence number and
    region-order neighbours (so free neighbours are not merged); every other
    header, the allocation counter and the whole region list stay as they
    were; the one [munmap] request starts one byte before the block header
    and is as long as the block plus a region header.  The free-list link of
    the block is set to the old head only when there was one; released onto
    an empty free list the block keeps the link it had. *)
Theorem free_impl_effect (L : layout) (OS : os) (s : state) (ptr : Z) (b : mem_block) :
  ptr <> NULL -> ptr - HB L <> NULL -> blocks s !! (ptr - HB L) = Some b ->
  laid_out L s ->
  os_munmap OS (trace s) (ptr - HB L - 1) (wrap (size b + RB L)) = false ->
  exists s',
    free_impl L OS ptr s = Done tt s' /\
    g_free_list s' = ptr - HB L /\
    blocks s' !! (ptr - HB L)
    = Some (set_next_free
              (if g_free_list s =? NULL then next_free b else g_free_list s)
              (set_free true b)) /\
    (forall a, a <> ptr - HB L -> blocks s' !! a = blocks s !! a) /\
    g_allocations s' = g_allocations s /\
    g_regions s' = g_regions s /\
    g_region_head s' = g_region_head s /\
    g_region_tail s' = g_region_tail s /\
    regions s' = regions s /\
    trace s' = trace s ++ [EMunmap (ptr - HB L - 1) (wrap (size b + RB L)) false].
Proof.
  intros Hp Hblk Hb _ Hno.
  destruct (free_impl_post L OS s ptr b Hp Hblk Hb)
    as (s' & Hrun & H1 & H2 & H3 & H4 & H5 & H6 & H7 & H8 & H9).
  rewrite Hno in H9.
  exists s'. repeat split; assumption.
Qed.

Lemma free_impl_effect_witness :
  exists s',
    free_impl sample_layout granting_os 65696 (exec (allocate 100 "x") initial_state)
    = Done tt s' /\
    g_free_list s' = 65696 - HB sample_layout /\
    regions s' = regions (exec (allocate 100 "x") initial_state).
Proof.
  destruct (free_impl_effect sample_layout granting_os
              (exec (allocate 100 "x") initial_state) 65696
              {| block_number := 0; name := "x"; size := 116; free := false;
                 prev_block := NULL; next_block := 65732; next_free := NULL |})
    as (s' & Hrun & Hfl & _ & _ & _ & _ & _ & _ & Hreg & _).
  - discriminate.
  - discriminate.
  - vm_compute. reflexivity.
  - repeat split; vm_compute; reflexivity.
  - vm_compute. reflexivity.
  - exists s'. repeat split; assumption.
Defined.

(** * The size of a new mapping *)

Lemma fits_max_multiple s g : 0 < g -> s + g <= SIZE_MOD -> s <= max_multiple g.
Proof.
  intros Hg Hs. unfold max_multiple.
  pose proof (Z.div_mod (SIZE_MOD - 1) g ltac:(lia)) as Hdm.
  pose proof (Z.mod_pos_bound (SIZE_MOD - 1) g Hg) as Hr.
  nia.
Qed.

Lemma map_sz_bounds (L : layout) (sz : Z) :
  0 <= sz -> 0 <= RB L -> 0 < PG L ->
  sz + RB L + RB L + ALIGN_SZ + PG L <= SIZE_MOD ->
  map_sz L sz mod PG L = 0 /\
  sz + RB L + RB L <= map_sz L sz < sz + RB L + RB L + ALIGN_SZ + PG L /\
  align (wrap (sz + RB L)) ALIGN_SZ <= map_sz L sz - RB L /\
  align (wrap (sz + RB L)) ALIGN_SZ mod ALIGN_SZ = 0 /\
  sz + RB L <= align (wrap (sz + RB L)) ALIGN_SZ < sz + RB L + ALIGN_SZ.
Proof.
  intros Hsz HRB HPG Hfit. unfold map_sz, ALIGN_SZ in *.
  rewrite (wrap_small (sz + RB L)) by (unfold SIZE_MOD in *; lia).
  pose proof (align_exact (sz + RB L) 8 ltac:(lia) ltac:(lia)
                ltac:(apply fits_max_multiple; lia)) as A.
  pose proof (Z.div_mod (sz + RB L) 8 ltac:(lia)) as Ad.
  pose proof (Z.mod_pos_bound (sz + RB L) 8 ltac:(lia)) as Ar.
  set (al := align (sz + RB L) 8) in *.
  assert (Hal : sz + RB L <= al < sz + RB L + 8 /\ al mod 8 = 0).
  { destruct ((sz + RB L) mod 8 =? 0) eqn:Hz.
    - apply Z.eqb_eq in Hz. split; [lia|].
      rewrite A. replace ((sz + RB L) / 8 * 8 + 0) with ((sz + RB L) / 8 * 8) by lia.
      apply Z.mod_mul. lia.
    - apply Z.eqb_neq in Hz. split; [lia|].
      rewrite A. replace ((sz + RB L) / 8 * 8 + 8) with (((sz + RB L) / 8 + 1) * 8) by lia.
      apply Z.mod_mul. lia. }
  destruct Hal as [Hal1 Hal2].
  rewrite (wrap_small (al + RB L)) by lia.
  pose proof (align_exact (al + RB L) (PG L) ltac:(lia) HPG
                ltac:(apply fits_max_multiple; lia)) as B.
  pose proof (Z.div_mod (al + RB L) (PG L) ltac:(lia)) as Bd.
  pose proof (Z.mod_pos_bound (al + RB L) (PG L) HPG) as Br.
  set (m := align (al + RB L) (PG L)) in *.
  assert (Hm : al + RB L <= m < al + RB L + PG L /\ m mod PG L = 0).
  { destruct ((al + RB L) mod PG L =? 0) eqn:Hz.
    - apply Z.eqb_eq in Hz. split; [lia|].
      rewrite B. replace ((al + RB L) / PG L * PG L + 0) with ((al + RB L) / PG L * PG L) by lia.
      apply Z.mod_mul. lia.
    - apply Z.eqb_neq in Hz. split; [lia|].
      rewrite B.
      replace ((al + RB L) / PG L * PG L + PG L) with (((al + RB L) / PG L + 1) * PG L) by lia.
      apply Z.mod_mul. lia. }
  destruct Hm as [Hm1 Hm2].
  repeat split; try assumption; lia.
Qed.

(** X6: when nothing wraps around, the length [malloc_impl] asks [mmap] for
    is a whole number of pages, exceeds the request by two region headers at
    least and by less than two region headers, one alignment unit and one
    page, and the block that spans the region ([map_sz] minus one region
    header) is at least as long as the aligned total the free list was
    searched for. *)
Theorem map_sz_covers_the_request (L : layout) (sz : Z) :
  0 <= sz -> 0 <= RB L -> 0 < PG L ->
  sz + RB L + RB L + ALIGN_SZ + PG L <= SIZE_MOD ->
  map_sz L sz mod PG L = 0 /\
  sz + RB L + RB L <= map_sz L sz < sz + RB L + RB L + ALIGN_SZ + PG L /\
  align (wrap (sz + RB L)) ALIGN_SZ <= map_sz L sz - RB L /\
  align (wrap (sz + RB L)) ALIGN_SZ mod ALIGN_SZ = 0 /\
  sz + RB L <= align (wrap (sz + RB L)) ALIGN_SZ < sz + RB L + ALIGN_SZ.
Proof. apply map_sz_bounds. Qed.

Lemma map_sz_covers_the_request_witness :
  map_sz sample_layout 8192 mod PG sample_layout = 0 /\
  8192 + 16 + 16 <= map_sz sample_layout 8192.
Proof.
  destruct (map_sz_covers_the_request sample_layout 8192) as (H1 & H2 & _).
  - discriminate.
  - discriminate.
  - reflexivity.
  - vm_compute. discriminate.
  - split; [exact H1 | apply H2].
Defined.

(** * A request served from a new region *)

(** The memory conditions at a concrete state, by evaluation. *)
Ltac laid_out_holds := repeat split; vm_compute; reflexivity.
Ltac room_holds :=
  split; [ vm_compute; discriminate |];
  split;
  [ vm_compute; discriminate
  | first [ intros _; vm_compute; discriminate
          | intros [H _]; vm_compute in H; exfalso; apply H; reflexivity
          | intros [_ H]; vm_compute in H; exfalso; apply H; reflexivity ] ].
Ltac miss_real :=
  split; [laid_out_holds|];
  split; [split; vm_compute; reflexivity|];
  split; [room_holds | vm_compute; reflexivity].

Lemma register_region_keeps s region :
  region <> NULL -> region_list_ok s ->
  exists s',
    (forall B (k : M B),
       (n <- gets g_regions;;
        init_region region (set_region_number n);;;
        modify (with_g_regions (wrap (n + 1)));;;
        h <- gets g_region_head;;
        t <- gets g_region_tail;;
        (if (h =? NULL) && (t =? NULL) then
           modify (with_g_region_head region);;;
           modify (with_g_region_tail region)
         else
           store_region t (set_next_region region);;;
           modify (with_g_region_tail region));;;
        k) s = k s') /\
    g_regions s' = wrap (g_regions s + 1) /\
    g_region_tail s' = region /\
    (g_region_head s = NULL -> g_region_tail s = NULL -> g_region_head s' = region) /\
    (g_region_head s <> NULL -> g_region_head s' = g_region_head s) /\
    (region_number <$> regions s' !! region) = Some (g_regions s) /\
    trace s' = trace s /\
    blocks s' = blocks s /\
    g_free_list s' = g_free_list s /\
    g_allocations s' = g_allocations s /\
    (g_region_head s = NULL -> g_region_tail s = NULL ->
     regions s'
     = <[region := set_region_number (g_regions s)
                     (default zero_region (regions s !! region))]> (regions s)) /\
    (forall rt, g_region_tail s <> NULL -> g_region_tail s <> region ->
                regions s !! g_region_tail s = Some rt ->
                regions s'
                = <[g_region_tail s := set_next_region region rt]>
                    (<[region := set_region_number (g_regions s)
                                   (default zero_region (regions s !! region))]>
                       (regions s))).
Proof.
  intros Hnn Hok.
  apply Z.eqb_neq in Hnn as Hnn'.
  destruct Hok as [[Hh Ht] | [Ht [r Hr]]].
  - eexists. split.
    + intros B k.
      rewrite (bind_done _ _ _ _ _ (gets_done _ s)).
      unfold init_region, bind at 1. rewrite Hnn'.
      step_modify. step_gets. step_gets.
      rewrite Hh, Ht. cbn [Z.eqb NULL andb].
      rewrite bind_assoc. step_modify. step_modify. reflexivity.
    + cbn. repeat split; try congruence. rewrite lookup_insert_eq. reflexivity.
  - apply Z.eqb_neq in Ht as Ht'.
    destruct (decide (g_region_tail s = region)) as [Heq | Hne].
    + eexists. split.
      * intros B k.
        rewrite (bind_done _ _ _ _ _ (gets_done _ s)).
        unfold init_region, bind at 1. rewrite Hnn'.
        step_modify. step_gets. step_gets.
        rewrite Ht', andb_false_r. rewrite bind_assoc.
        unfold store_region, bind at 1. rewrite Ht'. cbn [regions].
        rewrite Heq, lookup_insert_eq.
        step_modify. reflexivity.
      * cbn. repeat split; try congruence. rewrite lookup_insert_eq. reflexivity.
    + eexists. split.
      * intros B k.
        rewrite (bind_done _ _ _ _ _ (gets_done _ s)).
        unfold init_region, bind at 1. rewrite Hnn'.
        step_modify. step_gets. step_gets.
        rewrite Ht', andb_false_r. rewrite bind_assoc.
        unfold store_region, bind at 1. rewrite Ht'. cbn [regions].
        rewrite lookup_insert_ne by congruence. rewrite Hr.
        step_modify. reflexivity.
      * cbn. repeat split; try congruence.
        rewrite lookup_insert_ne by congruence. rewrite lookup_insert_eq. reflexivity.
Qed.

(** The miss path up to the split: the region is registered and the header
    of its block is written where the memory held none. *)
Lemma malloc_miss_prefix (L : layout) (OS : os) (ENV : env)
    sz nm actual_sz aligned_sz s region :
  0 < HB L -> 0 < region -> region_list_ok s ->
  os_mmap OS (trace s) (align (wrap (aligned_sz + RB L)) (PG L)) = Some region ->
  blocks s !! (region + HB L) = None ->
  let len := align (wrap (aligned_sz + RB L)) (PG L) in
  exists s5,
    malloc_miss L OS ENV sz nm actual_sz aligned_sz s
    = malloc_miss_rest L ENV (region + HB L) (wrap (len - RB L)) actual_sz aligned_sz s5 /\
    blocks s5 = <[region + HB L := region_block s nm (wrap (len - RB L))]> (blocks s) /\
    g_allocations s5 = wrap (g_allocations s + 1) /\
    g_free_list s5 = g_free_list s /\
    trace s5 = trace s ++ [EMmap len (Some region)] /\
    g_regions s5 = wrap (g_regions s + 1) /\
    g_region_tail s5 = region /\
    (g_region_head s = NULL -> g_region_tail s = NULL -> g_region_head s5 = region) /\
    (g_region_head s <> NULL -> g_region_head s5 = g_region_head s) /\
    (g_region_head s = NULL -> g_region_tail s = NULL ->
     regions s5
     = <[region := set_region_number (g_regions s)
                     (default zero_region (regions s !! region))]> (regions s)) /\
    (forall rt, g_region_tail s <> NULL -> g_region_tail s <> region ->
                regions s !! g_region_tail s = Some rt ->
                regions s5
                = <[g_region_tail s := set_next_region region rt]>
                    (<[region := set_region_number (g_regions s)
                                   (default zero_region (regions s !! region))]>
                       (regions s))).
Proof.
  intros HHB Hpos Hok Hgrant Hfresh. cbn zeta.
  set (len := align (wrap (aligned_sz + RB L)) (PG L)) in *.
  set (s0 := with_trace (trace s ++ [EMmap len (Some region)]) s).
  assert (Hnn : region <> NULL) by (unfold NULL; lia).
  assert (Hbn : region + HB L <> NULL) by (unfold NULL; lia).
  destruct (register_region_keeps s0 region Hnn Hok)
    as (s1 & Hreg & R1 & R2 & R3 & R3' & _ & R5 & R6 & R7 & R8 & R9 & R10).
  unfold malloc_miss. cbn zeta. fold len.
  unfold mmap, bind at 1. rewrite Hgrant. fold s0.
  rewrite Hreg.
  assert (Hf1 : blocks s1 !! (region + HB L) = None) by (rewrite R6; exact Hfresh).
  step_init. rewrite Hf1. cbn [default].
  step_store. step_gets. step_store. step_modify.
  destruct nm as [v|].
  - step_store. step_load.
    eexists. split; [reflexivity|]. cbn.
    rewrite R1, R2, R5, R6, R7, R8.
    repeat split; assumption.
  - rewrite (bind_done _ _ _ _ _ (ret_done tt _)). step_load.
    eexists. split; [reflexivity|]. cbn.
    rewrite R1, R2, R5, R6, R7, R8.
    repeat split; assumption.
Qed.

(** The search of [reuse] comes back empty-handed when the strategy is not
    recognised or no block of the free list is long enough. *)
Lemma search_misses (ENV : env) fuel sz s l :
  free_chain (blocks s) (g_free_list s) l -> (length l <= fuel)%nat ->
  (recognised (algo ENV) -> forall a, a ∈ l -> ~ qualifies s sz a) ->
  (if String.eqb (algo ENV) "first_fit" then first_fit fuel sz
   else if String.eqb (algo ENV) "best_fit" then best_fit fuel sz
   else if String.eqb (algo ENV) "worst_fit" then worst_fit fuel sz
   else ret NULL) s = Done NULL s.
Proof.
  intros Hch Hlen Hnone.
  destruct (String.eqb (algo ENV) "first_fit") eqn:E1.
  { apply String.eqb_eq in E1.
    unfold first_fit. rewrite (bind_done _ _ _ _ _ (gets_done _ s)).
    destruct (first_fit_loop_first fuel sz s _ l Hch Hlen) as (r & Hrun & Hr).
    rewrite Hrun. f_equal.
    destruct Hr as [[-> _] | (_ & Hq & before & after & -> & _)]; [reflexivity|].
    exfalso. apply (Hnone (or_introl E1) r); [|exact Hq].
    apply elem_of_app. right. apply list_elem_of_here. }
  destruct (String.eqb (algo ENV) "best_fit") eqn:E2.
  { apply String.eqb_eq in E2.
    destruct (fits_return_the_last_of_equals fuel sz s l Hch Hlen)
      as ((r & Hrun & Hr) & _).
    rewrite Hrun. f_equal.
    destruct Hr as [[-> _] | (_ & Hq & before & after & -> & _)]; [reflexivity|].
    exfalso. apply (Hnone (or_intror (or_introl E2)) r); [|exact Hq].
    apply elem_of_app. right. apply list_elem_of_here. }
  destruct (String.eqb (algo ENV) "worst_fit") eqn:E3; [|reflexivity].
  apply String.eqb_eq in E3.
  destruct (fits_return_the_last_of_equals fuel sz s l Hch Hlen)
    as (_ & (r & Hrun & Hr)).
  rewrite Hrun. f_equal.
  destruct Hr as [[-> _] | (_ & Hq & before & after & -> & _)]; [reflexivity|].
  exfalso. apply (Hnone (or_intror (or_intror E3)) r); [|exact Hq].
  apply elem_of_app. right. apply list_elem_of_here.
Qed.

Lemma reuse_misses (L : layout) (ENV : env) fuel sz s l :
  free_chain (blocks s) (g_free_list s) l -> (length l <= fuel)%nat ->
  (recognised (algo ENV) -> forall a, a ∈ l -> ~ qualifies s sz a) ->
  reuse L ENV fuel sz s = Done NULL s.
Proof.
  intros Hch Hlen Hnone. unfold reuse.
  rewrite (bind_done _ _ _ _ _ (search_misses ENV fuel sz s l Hch Hlen Hnone)).
  reflexivity.
Qed.

(** The arithmetic of the miss path when nothing wraps around. *)
Lemma miss_sizes (L : layout) (sz : Z) :
  0 <= sz -> 0 <= RB L -> 0 < PG L ->
  sz + RB L + RB L + ALIGN_SZ + PG L <= SIZE_MOD ->
  wrap (sz + RB L) = sz + RB L /\
  wrap (map_sz L sz - RB L) = map_sz L sz - RB L /\
  wrap (map_sz L sz - RB L - (sz + RB L)) = map_sz L sz - RB L - (sz + RB L) /\
  0 <= map_sz L sz - RB L - (sz + RB L) /\
  map_sz L sz - RB L < SIZE_MOD.
Proof.
  intros Hsz HRB HPG Hfit.
  destruct (map_sz_bounds L sz Hsz HRB HPG Hfit) as (_ & H2 & H3 & _ & H5).
  unfold ALIGN_SZ in *.
  repeat split; try apply wrap_small; lia.
Qed.

Lemma reuse_on_empty (L : layout) (ENV : env) fuel sz s :
  g_free_list s = NULL -> reuse L ENV fuel sz s = Done NULL s.
Proof.
  intros Hempty. apply (reuse_misses L ENV fuel sz s []).
  - rewrite Hempty. constructor.
  - cbn. lia.
  - intros _ a Ha. inversion Ha.
Qed.

(** The miss path on an empty free list, without the debug fill: the exact
    outcome in both cases of the split. *)
Lemma malloc_impl_fresh (L : layout) (OS : os) (ENV : env) fuel sz nm s region :
  no_wrap L sz -> grants L OS s sz region ->
  g_free_list s = NULL -> scribble_check ENV <> 1 ->
  exists s',
    malloc_impl L OS ENV fuel sz nm s = Done (region + HB L + HB L) s' /\
    trace s' = trace s ++ [EMmap (map_sz L sz) (Some region)] /\
    g_regions s' = wrap (g_regions s + 1) /\
    g_region_tail s' = region /\
    (forall a, a <> region + HB L -> a <> region + HB L + (sz + RB L) ->
               blocks s' !! a = blocks s !! a) /\
    (carves L sz ->
     blocks s' !! (region + HB L) = Some (served_header L s nm sz region) /\
     blocks s' !! (region + HB L + (sz + RB L)) = Some (tail_of_region L s sz region) /\
     g_free_list s' = region + HB L + (sz + RB L) /\
     g_allocations s' = wrap (wrap (g_allocations s + 1) + 1)) /\
    (~ carves L sz ->
     blocks s' !! (region + HB L)
     = Some (region_block s nm (map_sz L sz - RB L)) /\
     g_free_list s' = NULL /\
     g_allocations s' = wrap (g_allocations s + 1)).
Proof.
  intros (HHB & HRB & HPG & Hsz & Hfit) (Hgrant & Hpos & Hok & Hf1 & Hf2) Hempty Hscr.
  destruct (miss_sizes L sz Hsz HRB HPG Hfit) as (W1 & W2 & W3 & W4 & W5).
  unfold malloc_impl. cbn zeta.
  rewrite (bind_done _ _ _ _ _ (reuse_on_empty L ENV fuel _ s Hempty)).
  cbn [Z.eqb NULL negb].
  destruct (malloc_miss_prefix L OS ENV sz nm (wrap (sz + RB L))
              (align (wrap (sz + RB L)) ALIGN_SZ) s region HHB Hpos Hok Hgrant Hf1)
    as (s5 & Hrun & B5 & A5 & F5 & T5 & G5 & GT5 & _ & _).
  rewrite Hrun. clear Hrun.
  change (align (wrap (align (wrap (sz + RB L)) ALIGN_SZ + RB L)) (PG L))
    with (map_sz L sz) in *.
  rewrite W1, W2 in *.
  set (block := region + HB L) in *.
  set (usable := map_sz L sz - RB L) in *.
  set (b := region_block s nm usable) in *.
  assert (Hb : blocks s5 !! block = Some b) by (rewrite B5; apply lookup_insert_eq).
  assert (Hscr' : (scribble_check ENV =? 1) = false) by (apply Z.eqb_neq; exact Hscr).
  unfold malloc_miss_rest. rewrite W3.
  destruct (decide (carves L sz)) as [Hc | Hc].
  - assert (Hsp : splittable L b (usable - (sz + RB L))).
    { destruct Hc as [H1 H2]. split; cbn [size b region_block]; unfold usable; lia. }
    rewrite (bind_done _ _ _ _ _
               (split_block_succeeds_state L s5 block _ b HHB ltac:(unfold block; lia)
                  Hb ltac:(cbn; lia) W4 Hsp)).
    replace (block + (size b - (usable - (sz + RB L)))) with (block + (sz + RB L))
      by (cbn; lia).
    unfold split_state.
    step_gets. rewrite F5, Hempty. cbn [Z.eqb NULL].
    step_modify. rewrite Hscr'.
    rewrite (bind_done _ _ _ _ _ (ret_done tt _)).
    eexists. split; [reflexivity|].
    cbn [trace g_regions g_region_tail blocks g_free_list
         g_allocations with_blocks with_g_allocations].
    replace (block + (size b - (usable - (sz + RB L)))) with (block + (sz + RB L))
      by (cbn; lia).
    assert (Hne : block <> block + (sz + RB L))
      by (destruct Hc as [H1 _]; unfold ALIGN_SZ in *; lia).
    split; [exact T5|]. split; [exact G5|]. split; [exact GT5|].
    split.
    { intros a Ha1 Ha2. rewrite !lookup_insert_ne by congruence.
      rewrite B5. rewrite lookup_insert_ne by congruence. reflexivity. }
    split.
    + intros _. split.
      { rewrite lookup_insert_eq. f_equal. unfold served_header, set_size,
          set_next_block, b, region_block, block. cbn.
        f_equal. lia. }
      split.
      { rewrite lookup_insert_ne by congruence. rewrite lookup_insert_eq.
        f_equal. unfold tail_header, tail_of_region.
        rewrite B5, lookup_insert_ne by congruence. rewrite Hf2. cbn.
        rewrite A5. reflexivity. }
      split; [reflexivity|]. rewrite A5. reflexivity.
    + intros Hno. contradiction.
  - assert (Hsp : ~ splittable L b (usable - (sz + RB L))).
    { intros [H1 H2]. apply Hc. cbn [size b region_block] in *.
      split; unfold usable in *; lia. }
    rewrite (bind_done _ _ _ _ _
               (split_block_fails_state L s5 block _ b HHB
                  ltac:(unfold block, NULL; lia) Hb ltac:(cbn; lia) W4
                  ltac:(left; cbn; lia) Hsp)).
    step_gets. rewrite F5, Hempty. cbn [Z.eqb NULL].
    step_modify. rewrite Hscr'.
    rewrite (bind_done _ _ _ _ _ (ret_done tt _)).
    eexists. split; [reflexivity|]. cbn.
    split; [exact T5|]. split; [exact G5|]. split; [exact GT5|].
    split.
    { intros a Ha1 Ha2. rewrite B5. rewrite lookup_insert_ne by congruence. reflexivity. }
    split; [intros Hyes; contradiction|].
    intros _. rewrite B5.
    split; [apply lookup_insert_eq|].
    split; [reflexivity | exact A5].
Qed.

(** X7: on an empty free list, without the debug fill and with nothing
    wrapping around, where the operating system hands out new memory, the
    tag fits the [name] array and the headers of both blocks lie inside the
    mapping: a request that can be carved is served from a new region cut
    in two: a used block of exactly the payload plus one region header at
    [region + sizeof(struct mem_block)], carrying the tag and the next
    sequence number, followed by a free tail holding the rest of the
    region, which becomes the whole free list.  The two lengths add up to
    the mapped length minus one region header, the returned pointer is one
    block header past the used block, and no other header changes. *)
Theorem fresh_region_is_cut_in_two
    (L : tagged_layout) (OS : os) (ENV : env) fuel sz nm s region :
  no_wrap L sz -> grants L OS s sz region ->
  g_free_list s = NULL -> scribble_check ENV <> 1 ->
  carves L sz ->
  miss_is_real L s sz region nm ->
  exists s',
    malloc_impl L OS ENV fuel sz nm s = Done (region + HB L + HB L) s' /\
    blocks s' !! (region + HB L) = Some (served_header L s nm sz region) /\
    blocks s' !! (region + HB L + (sz + RB L)) = Some (tail_of_region L s sz region) /\
    g_free_list s' = region + HB L + (sz + RB L) /\
    chain_length_sum 2 (blocks s') (region + HB L) = Some (map_sz L sz - RB L) /\
    (forall a, a <> region + HB L -> a <> region + HB L + (sz + RB L) ->
               blocks s' !! a = blocks s !! a) /\
    g_region_tail s' = region /\
    trace s' = trace s ++ [EMmap (map_sz L sz) (Some region)].
Proof.
  intros Hnw Hgr Hempty Hscr Hc _.
  destruct (malloc_impl_fresh L OS ENV fuel sz nm s region Hnw Hgr Hempty Hscr)
    as (s' & Hrun & Htr & _ & Htail & Hother & Hyes & _).
  destruct (Hyes Hc) as (Hhead & Htl & Hfl & _).
  destruct Hnw as (HHB & HRB & _ & Hsz & _).
  destruct Hgr as (_ & Hpos & _).
  destruct Hc as [Hc1 Hc2]. unfold ALIGN_SZ in *.
  exists s'. repeat split; try assumption.
  cbn [chain_length_sum].
  replace (region + HB L =? NULL) with false
    by (symmetry; apply Z.eqb_neq; unfold NULL; lia).
  rewrite Hhead. cbn [next_block served_header size].
  replace (region + HB L + (sz + RB L) =? NULL) with false
    by (symmetry; apply Z.eqb_neq; unfold NULL; lia).
  rewrite Htl. cbn. f_equal. lia.
Qed.

Lemma fresh_region_is_cut_in_two_witness :
  exists s',
    malloc_impl sample_layout granting_os default_env 16 100 (Some "x") initial_state
    = Done (65536 + 80 + 80) s' /\
    g_free_list s' = 65536 + 80 + (100 + 16) /\
    chain_length_sum 2 (blocks s') (65536 + 80) = Some (4096 - 16).
Proof.
  destruct (fresh_region_is_cut_in_two sample_tagged granting_os default_env
              16 100 (Some "x") initial_state 65536)
    as (s' & Hrun & _ & _ & Hfl & Hsum & _).
  - repeat split; vm_compute; congruence.
  - split; [reflexivity|]. split; [reflexivity|].
    split; [left; split; reflexivity|].
    split; reflexivity.
  - reflexivity.
  - vm_compute. discriminate.
  - split; vm_compute; discriminate.
  - miss_real.
  - exists s'. split; [exact Hrun|]. split; [exact Hfl | exact Hsum].
Defined.

(** X8: on an empty free list, without the debug fill and with nothing
    wrapping around, where the operating system hands out new memory, the
    tag fits the [name] array and the header of the first block lies inside
    the mapping: a request that cannot be carved (the payload plus a region
    header is shorter than a block header plus eight bytes, or too little
    of the region would be left) is given the whole region as one used
    block, and the free list stays empty: nothing of the new region can
    serve a later request. *)
Theorem fresh_region_is_given_whole
    (L : tagged_layout) (OS : os) (ENV : env) fuel sz nm s region :
  no_wrap L sz -> grants L OS s sz region ->
  g_free_list s = NULL -> scribble_check ENV <> 1 ->
  ~ carves L sz ->
  miss_is_real L s sz region nm ->
  exists s',
    malloc_impl L OS ENV fuel sz nm s = Done (region + HB L + HB L) s' /\
    blocks s' !! (region + HB L) = Some (region_block s nm (map_sz L sz - RB L)) /\
    g_free_list s' = NULL /\
    (forall a, a <> region + HB L -> a <> region + HB L + (sz + RB L) ->
               blocks s' !! a = blocks s !! a) /\
    g_region_tail s' = region /\
    trace s' = trace s ++ [EMmap (map_sz L sz) (Some region)].
Proof.
  intros Hnw Hgr Hempty Hscr Hc _.
  destruct (malloc_impl_fresh L OS ENV fuel sz nm s region Hnw Hgr Hempty Hscr)
    as (s' & Hrun & Htr & _ & Htail & Hother & _ & Hno).
  destruct (Hno Hc) as (Hhead & Hfl & _).
  exists s'. repeat split; assumption.
Qed.

Lemma fresh_region_is_given_whole_witness :
  exists s',
    malloc_impl sample_layout granting_os default_env 16 50 (Some "y") initial_state
    = Done (65536 + 80 + 80) s' /\
    blocks s' !! (65536 + HB sample_layout)
    = Some (region_block initial_state (Some "y")
              (map_sz sample_layout 50 - RB sample_layout)) /\
    g_free_list s' = NULL.
Proof.
  destruct (fresh_region_is_given_whole sample_tagged granting_os default_env
              16 50 (Some "y") initial_state 65536)
    as (s' & Hrun & Hhead & Hfl & _).
  - repeat split; vm_compute; congruence.
  - split; [reflexivity|]. split; [reflexivity|].
    split; [left; split; reflexivity|].
    split; reflexivity.
  - reflexivity.
  - vm_compute. discriminate.
  - intros [H _]. vm_compute in H. apply H. reflexivity.
  - miss_real.
  - exists s'. split; [exact Hrun|]. split; [exact Hhead | exact Hfl].
Defined.

(** X9: a block served from a new region is recorded with the payload plus
    one region header, not with the aligned total the free list is searched
    for.  So when that sum is not a multiple of eight, the block, once
    released and at the head of the free list, is too short for the very
    request it served: no search for that request returns it.  This is for
    a carved request served on an empty free list from new memory, with a
    tag that fits and both headers inside the mapping, and a release whose
    [munmap] is refused. *)
Theorem released_block_misses_same_request
    (L : tagged_layout) (OS : os) (ENV : env) fuel sz nm s region :
  no_wrap L sz -> grants L OS s sz region ->
  g_free_list s = NULL -> scribble_check ENV <> 1 ->
  carves L sz ->
  (sz + RB L) mod ALIGN_SZ <> 0 ->
  miss_is_real L s sz region nm ->
  refuses_unmap OS (region + HB L - 1) ->
  exists s' s'',
    malloc_impl L OS ENV fuel sz nm s = Done (region + HB L + HB L) s' /\
    free_impl L OS (region + HB L + HB L) s' = Done tt s'' /\
    g_free_list s'' = region + HB L /\
    (size <$> blocks s'' !! (region + HB L)) = Some (sz + RB L) /\
    ~ qualifies s'' (align (wrap (sz + RB L)) ALIGN_SZ) (region + HB L).
Proof.
  intros Hnw Hgr Hempty Hscr Hc Hmod _ _.
  destruct (malloc_impl_fresh L OS ENV fuel sz nm s region Hnw Hgr Hempty Hscr)
    as (s' & Hrun & _ & _ & _ & _ & Hyes & _).
  destruct (Hyes Hc) as (Hhead & _).
  destruct Hnw as (HHB & HRB & HPG & Hsz & Hfit).
  destruct Hgr as (_ & Hpos & _).
  destruct (map_sz_bounds L sz Hsz HRB HPG Hfit) as (_ & _ & _ & Hal & Hle).
  replace (region + HB L) with (region + HB L + HB L - HB L) in Hhead by lia.
  destruct (free_impl_post L OS s' (region + HB L + HB L) _
              ltac:(unfold NULL; lia) ltac:(unfold NULL; lia) Hhead)
    as (s'' & Hfree & Hfl & Hblk & _).
  replace (region + HB L + HB L - HB L) with (region + HB L) in * by lia.
  exists s', s''. split; [exact Hrun|]. split; [exact Hfree|].
  split; [exact Hfl|]. split; [rewrite Hblk; reflexivity|].
  intros (b0 & Hb0 & Hq). rewrite Hblk in Hb0. injection Hb0 as <-.
  cbn [size set_next_free set_free served_header] in Hq.
  assert (align (wrap (sz + RB L)) ALIGN_SZ = sz + RB L) by lia.
  congruence.
Qed.

Lemma released_block_misses_same_request_witness :
  exists s' s'',
    malloc_impl sample_layout granting_os default_env 16 100 (Some "x") initial_state
    = Done (65536 + 80 + 80) s' /\
    free_impl sample_layout granting_os (65536 + 80 + 80) s' = Done tt s'' /\
    g_free_list s'' = 65536 + 80.
Proof.
  destruct (released_block_misses_same_request sample_tagged granting_os
              default_env 16 100 (Some "x") initial_state 65536)
    as (s' & s'' & Hrun & Hfree & Hfl & _).
  - repeat split; vm_compute; congruence.
  - split; [reflexivity|]. split; [reflexivity|].
    split; [left; split; reflexivity|].
    split; reflexivity.
  - reflexivity.
  - vm_compute. discriminate.
  - split; vm_compute; discriminate.
  - vm_compute. discriminate.
  - miss_real.
  - intros tr n. reflexivity.
  - exists s', s''. split; [exact Hrun|]. split; [exact Hfree | exact Hfl].
Defined.

(** * A miss that cannot be carved *)

(** X10: when the free list is not empty but gives nothing (no block is long
    enough, or the strategy name is unknown), the operating system hands out
    new memory, the tag fits the [name] array, and the request cannot be
    carved, [malloc_impl] dies: [split_block] returns NULL and the code
    writes [new_block->next_free] through it. *)
Theorem malloc_impl_dies_on_uncarved_miss
    (L : tagged_layout) (OS : os) (ENV : env) fuel sz nm s region l :
  no_wrap L sz -> grants L OS s sz region ->
  free_chain (blocks s) (g_free_list s) l -> (length l <= fuel)%nat ->
  l <> [] ->
  (recognised (algo ENV) ->
   forall a, a ∈ l -> ~ qualifies s (align (wrap (sz + RB L)) ALIGN_SZ) a) ->
  ~ carves L sz ->
  miss_is_real L s sz region nm ->
  malloc_impl L OS ENV fuel sz nm s = Stuck NullAccess.
Proof.
  intros (HHB & HRB & HPG & Hsz & Hfit) (Hgrant & Hpos & Hok & Hf1 & _)
         Hch Hlen Hne Hnone Hc _.
  destruct (miss_sizes L sz Hsz HRB HPG Hfit) as (W1 & W2 & W3 & W4 & W5).
  assert (Hfl : g_free_list s <> NULL).
  { inversion Hch; subst; [congruence | assumption]. }
  unfold malloc_impl. cbn zeta.
  rewrite (bind_done _ _ _ _ _ (reuse_misses L ENV fuel _ s l Hch Hlen Hnone)).
  cbn [Z.eqb NULL negb].
  destruct (malloc_miss_prefix L OS ENV sz nm (wrap (sz + RB L))
              (align (wrap (sz + RB L)) ALIGN_SZ) s region HHB Hpos Hok Hgrant Hf1)
    as (s5 & Hrun & B5 & A5 & F5 & _).
  rewrite Hrun. clear Hrun.
  change (align (wrap (align (wrap (sz + RB L)) ALIGN_SZ + RB L)) (PG L))
    with (map_sz L sz) in *.
  rewrite W1, W2 in *.
  set (block := region + HB L) in *.
  set (usable := map_sz L sz - RB L) in *.
  set (b := region_block s nm usable) in *.
  assert (Hb : blocks s5 !! block = Some b) by (rewrite B5; apply lookup_insert_eq).
  unfold malloc_miss_rest. rewrite W3.
  assert (Hsp : ~ splittable L b (usable - (sz + RB L))).
  { intros [H1 H2]. apply Hc. cbn [size b region_block] in *.
    split; unfold usable in *; lia. }
  rewrite (bind_done _ _ _ _ _
             (split_block_fails_state L s5 block _ b HHB
                ltac:(unfold block, NULL; lia) Hb ltac:(cbn; lia) W4
                ltac:(left; cbn; lia) Hsp)).
  step_gets. rewrite F5.
  apply Z.eqb_neq in Hfl. rewrite Hfl.
  reflexivity.
Qed.

Lemma malloc_impl_dies_on_uncarved_miss_witness :
  malloc_impl sample_layout granting_os default_env 16 4000 (Some "y") freed_once
  = Stuck NullAccess.
Proof.
  apply (malloc_impl_dies_on_uncarved_miss sample_tagged granting_os default_env
           16 4000 (Some "y") freed_once 1114112 [65616; 65732]).
  - repeat split; vm_compute; congruence.
  - split; [reflexivity|]. split; [reflexivity|].
    split; [right; split; [vm_compute; discriminate | vm_compute; eauto]|].
    split; vm_compute; reflexivity.
  - replace (g_free_list freed_once) with 65616 by (vm_compute; reflexivity).
    eapply (free_chain_cons _ 65616); [discriminate | vm_compute; reflexivity |].
    eapply (free_chain_cons _ 65732); [discriminate | vm_compute; reflexivity |].
    apply free_chain_nil.
  - cbn. lia.
  - discriminate.
  - intros _ a Ha (b & Hb & Hq).
    apply elem_of_cons in Ha. destruct Ha as [-> | Ha].
    { vm_compute in Hb. injection Hb as <-. vm_compute in Hq. apply Hq. reflexivity. }
    apply elem_of_cons in Ha. destruct Ha as [-> | Ha].
    { vm_compute in Hb. injection Hb as <-. vm_compute in Hq. apply Hq. reflexivity. }
    inversion Ha.
  - intros [_ H]. vm_compute in H. apply H. reflexivity.
  - miss_real.
Defined.

(** * The tag *)

(** X11: [malloc_impl] copies the tag without a test on the reuse path, so
    with a NULL tag every request that the free list can serve dies in
    [strcpy], although the miss path tests for NULL.  The [malloc] of
    allocator_overrides.c always passes the empty string, so the same
    request through it returns the payload of a block of the free list.
    This is for a state whose headers are memory of the process, a [name]
    array of at least one byte, and a free list on which every block that
    the request would split has room for the header of its tail. *)
Theorem null_tag_dies_on_a_hit
    (L : tagged_layout) (OS : os) (ENV : env) (fuel : nat) (sz : Z) (s : state)
    (l : list Z) :
  0 < HB L ->
  recognised (algo ENV) ->
  free_chain (blocks s) (g_free_list s) l ->
  (length l <= fuel)%nat ->
  (forall a, a ∈ l -> 0 < a) ->
  (exists a, a ∈ l /\ qualifies s (align (wrap (sz + RB L)) ALIGN_SZ) a) ->
  hit_is_real L s l (align (wrap (sz + RB L)) ALIGN_SZ) (Some "") ->
  malloc_impl L OS ENV fuel sz None s = Stuck NullAccess /\
  exists p s',
    Overrides.malloc L OS ENV fuel sz s = Done p s' /\
    p <> NULL /\ p - HB L ∈ l.
Proof.
  intros HHB Halgo Hch Hlen Hpos Hex _. split.
  - destruct (reuse_runs L ENV fuel _ s l HHB Halgo Hch Hlen Hpos Hex)
      as (rb & s1 & Hreuse & Hin & _).
    pose proof (free_chain_nonnull _ _ _ _ Hch Hin) as Hnn.
    unfold malloc_impl. cbn zeta.
    rewrite (bind_done _ _ _ _ _ Hreuse).
    apply Z.eqb_neq in Hnn. rewrite Hnn. reflexivity.
  - destruct (malloc_impl_hit L OS ENV fuel sz "" s l HHB Halgo Hch Hlen Hpos Hex)
      as (p & s' & Hrun & Hp & Hin & _).
    exists p, s'. split; [exact Hrun|]. split; assumption.
Qed.

Lemma freed_once_chain :
  free_chain (blocks freed_once) (g_free_list freed_once) [65616; 65732].
Proof.
  replace (g_free_list freed_once) with 65616 by (vm_compute; reflexivity).
  eapply (free_chain_cons _ 65616); [discriminate | vm_compute; reflexivity |].
  eapply (free_chain_cons _ 65732); [discriminate | vm_compute; reflexivity |].
  apply free_chain_nil.
Defined.

Lemma null_tag_dies_on_a_hit_witness :
  malloc_impl sample_layout granting_os default_env 16 50 None freed_once
  = Stuck NullAccess /\
  exists p s',
    Overrides.malloc sample_layout granting_os default_env 16 50 freed_once
    = Done p s' /\
    p <> NULL /\ p - HB sample_layout ∈ [65616; 65732].
Proof.
  apply (null_tag_dies_on_a_hit sample_tagged granting_os default_env 16 50
           freed_once [65616; 65732]).
  - reflexivity.
  - left. reflexivity.
  - exact freed_once_chain.
  - cbn. lia.
  - intros a Ha.
    apply elem_of_cons in Ha. destruct Ha as [-> | Ha]; [reflexivity|].
    apply elem_of_cons in Ha. destruct Ha as [-> | Ha]; [reflexivity|].
    inversion Ha.
  - exists 65616. split; [apply list_elem_of_here|].
    eexists. split; [vm_compute; reflexivity | vm_compute; discriminate].
  - split; [laid_out_holds|]. split; [|vm_compute; reflexivity].
    intros a Ha b Hb _ [Hhead _].
    apply elem_of_cons in Ha. destruct Ha as [-> | Ha].
    { vm_compute in Hb. injection Hb as <-.
      vm_compute in Hhead. exfalso. apply Hhead. reflexivity. }
    apply list_elem_of_singleton in Ha. subst a.
    vm_compute in Hb. injection Hb as <-.
    vm_compute in Hhead. exfalso. apply Hhead. reflexivity.
Defined.

(** * Release and ask again *)

(** X12: under first-fit, without the debug fill and with nothing wrapping
    around: when a carved request whose payload plus region header is a
    multiple of eight is served from a new region on an empty free list (new
    memory, both headers inside the mapping), then released with a [munmap]
    that is refused, and asked for again, both tags fitting the [name]
    array, the second call returns the same pointer, maps nothing, stamps
    the new tag, and leaves the free tail of the region as the whole free
    list. *)
Theorem release_and_ask_again
    (L : tagged_layout) (OS : os) (ENV : env) fuel sz nm nm2 s region :
  no_wrap L sz -> grants L OS s sz region ->
  g_free_list s = NULL -> scribble_check ENV <> 1 ->
  carves L sz ->
  (sz + RB L) mod ALIGN_SZ = 0 ->
  algo ENV = "first_fit" ->
  miss_is_real L s sz region nm ->
  tag_fits L (Some nm2) ->
  refuses_unmap OS (region + HB L - 1) ->
  exists s1 s2 s3,
    malloc_impl L OS ENV fuel sz nm s = Done (region + HB L + HB L) s1 /\
    free_impl L OS (region + HB L + HB L) s1 = Done tt s2 /\
    malloc_impl L OS ENV (S fuel) sz (Some nm2) s2 = Done (region + HB L + HB L) s3 /\
    trace s3 = trace s2 /\
    g_free_list s3 = region + HB L + (sz + RB L) /\
    (free <$> blocks s3 !! (region + HB L)) = Some false /\
    (name <$> blocks s3 !! (region + HB L)) = Some nm2 /\
    (size <$> blocks s3 !! (region + HB L)) = Some (sz + RB L).
Proof.
  intros Hnw Hgr Hempty Hscr Hc Hmod Halgo _ _ _.
  destruct (malloc_impl_fresh L OS ENV fuel sz nm s region Hnw Hgr Hempty Hscr)
    as (s1 & Hrun & _ & _ & _ & _ & Hyes & _).
  destruct (Hyes Hc) as (Hhead & _ & Hfl1 & _).
  destruct Hnw as (HHB & HRB & HPG & Hsz & Hfit).
  destruct Hgr as (_ & Hpos & _).
  destruct (map_sz_bounds L sz Hsz HRB HPG Hfit) as (_ & _ & _ & Hal & Hle).
  destruct (miss_sizes L sz Hsz HRB HPG Hfit) as (W1 & _).
  replace (region + HB L) with (region + HB L + HB L - HB L) in Hhead by lia.
  destruct (free_impl_post L OS s1 (region + HB L + HB L) _
              ltac:(unfold NULL; lia) ltac:(unfold NULL; lia) Hhead)
    as (s2 & Hfree & Hfl2 & Hblk & _).
  replace (region + HB L + HB L - HB L) with (region + HB L) in * by lia.
  exists s1, s2. 
  set (block := region + HB L) in *.
  set (tail := block + (sz + RB L)) in *.
  assert (Hb0 : block <> NULL) by (unfold block, NULL; lia).
  assert (Ht0 : (tail =? NULL) = false)
    by (apply Z.eqb_neq; unfold tail, block, NULL; lia).
  rewrite Hfl1, Ht0 in Hblk.
  (* the aligned total is the recorded length *)
  assert (Haligned : align (wrap (sz + RB L)) ALIGN_SZ = sz + RB L).
  { rewrite W1 in *.
    pose proof (align_exact (sz + RB L) ALIGN_SZ ltac:(lia) ltac:(reflexivity)
                  ltac:(apply fits_max_multiple; unfold ALIGN_SZ in *; lia)) as A.
    rewrite A. apply Z.eqb_eq in Hmod. rewrite Hmod.
    pose proof (Z.div_mod (sz + RB L) ALIGN_SZ ltac:(discriminate)) as Hd.
    apply Z.eqb_eq in Hmod. lia. }
  assert (Hscr' : (scribble_check ENV =? 1) = false) by (apply Z.eqb_neq; exact Hscr).
  eexists. split; [exact Hrun|]. split; [exact Hfree|].
  unfold malloc_impl. cbn zeta. rewrite Haligned.
  unfold reuse. rewrite Halgo. cbn [String.eqb Ascii.eqb Bool.eqb].
  unfold first_fit.
  rewrite !bind_assoc. step_gets. rewrite Hfl2.
  cbn [first_fit_loop].
  apply Z.eqb_neq in Hb0 as Hb0'. rewrite Hb0'.
  rewrite !bind_assoc. step_load.
  cbn [size set_next_free set_free served_header].
  rewrite Z.leb_refl.
  rewrite (bind_done _ _ _ _ _ (ret_done block s2)).
  rewrite Hb0'. rewrite !bind_assoc. step_load.
  cbn [size set_next_free set_free served_header].
  rewrite Z.sub_diag. change (wrap 0) with 0.
  unfold split_block at 1. rewrite Hb0'.
  rewrite !bind_assoc. step_load. cbn [Z.ltb Z.compare andb].
  rewrite (bind_done _ _ _ _ _ (ret_done NULL s2)). cbv beta.
  rewrite !bind_assoc. step_gets. rewrite Hfl2, Z.eqb_refl.
  rewrite !bind_assoc. step_load. step_modify.
  cbn [next_free set_next_free].
  rewrite ?bind_assoc. step_gets. rewrite Ht0. cbn [Z.eqb NULL].
  rewrite ?bind_assoc.
  rewrite (bind_done _ _ _ _ _ (ret_done tt _)). cbv beta.
  rewrite ?bind_assoc. step_store.
  rewrite ?bind_assoc.
  rewrite (bind_done _ _ _ _ _ (ret_done block _)). cbv beta.
  rewrite Hb0'. cbn [negb].
  rewrite ?bind_assoc. step_store.
  rewrite Hscr'.
  rewrite ?bind_assoc.
  rewrite (bind_done _ _ _ _ _ (ret_done tt _)). cbv beta.
  unfold ret. split; [reflexivity|]. cbn.
  rewrite lookup_insert_eq. repeat split.
Qed.

Lemma release_and_ask_again_witness :
  exists s1 s2 s3,
    malloc_impl sample_layout granting_os default_env 16 104 (Some "a") initial_state
    = Done (65536 + 80 + 80) s1 /\
    free_impl sample_layout granting_os (65536 + 80 + 80) s1 = Done tt s2 /\
    malloc_impl sample_layout granting_os default_env 17 104 (Some "b") s2
    = Done (65536 + 80 + 80) s3 /\
    trace s3 = trace s2.
Proof.
  destruct (release_and_ask_again sample_tagged granting_os default_env
              16 104 (Some "a") "b" initial_state 65536)
    as (s1 & s2 & s3 & H1 & H2 & H3 & H4 & _).
  - repeat split; vm_compute; congruence.
  - split; [reflexivity|]. split; [reflexivity|].
    split; [left; split; reflexivity|].
    split; reflexivity.
  - reflexivity.
  - vm_compute. discriminate.
  - split; vm_compute; discriminate.
  - reflexivity.
  - reflexivity.
  - miss_real.
  - vm_compute. reflexivity.
  - intros tr n. reflexivity.
  - exists s1, s2, s3. repeat split; assumption.
Defined.

(** * Merging along a run of free blocks *)

Lemma stops_transport m p pb pb' q :
  stops m q -> m !! p = Some pb -> free pb = true ->
  stops (<[p := pb']> m) q.
Proof.
  intros [-> | (b & Hb & Hf)] Hp Hfree; [left; reflexivity|].
  right. exists b. split; [|exact Hf].
  rewrite lookup_insert_ne; [exact Hb|].
  intros ->. rewrite Hp in Hb. injection Hb as ->. congruence.
Qed.

Lemma back_run_transport m a l p0 p pb pb' :
  back_run m a l p0 -> p ∉ l -> m !! p = Some pb -> free pb = true ->
  back_run (<[p := pb']> m) a l p0.
Proof.
  induction 1 as [q Hq | x b l q Hx Hb Hf Hrest IH]; intros Hnot Hp Hfree.
  - constructor. eapply stops_transport; eassumption.
  - apply not_elem_of_cons in Hnot. destruct Hnot as [Hne Hnot].
    econstructor; [exact Hx | | exact Hf | apply IH; assumption].
    rewrite lookup_insert_ne by congruence. exact Hb.
Qed.

Lemma fwd_run_transport m a l n0 p pb pb' :
  fwd_run m a l n0 -> p ∉ l -> m !! p = Some pb -> free pb = true ->
  fwd_run (<[p := pb']> m) a l n0.
Proof.
  induction 1 as [q Hq | x b l q Hx Hb Hf Hrest IH]; intros Hnot Hp Hfree.
  - constructor. eapply stops_transport; eassumption.
  - apply not_elem_of_cons in Hnot. destruct Hnot as [Hne Hnot].
    econstructor; [exact Hx | | exact Hf | apply IH; assumption].
    rewrite lookup_insert_ne by congruence. exact Hb.
Qed.

Lemma sum_sizes_agree s s' l :
  (forall a, a ∈ l -> blocks s' !! a = blocks s !! a) ->
  sum_sizes s' l = sum_sizes s l.
Proof.
  induction l as [|x l IH]; intros Hag; [reflexivity|].
  unfold sum_sizes. cbn [foldr]. fold (sum_sizes s' l). fold (sum_sizes s l).
  rewrite IH by (intros a Ha; apply Hag; apply elem_of_cons; auto).
  unfold block_size. rewrite (Hag x) by (apply elem_of_cons; auto).
  reflexivity.
Qed.

Lemma sum_sizes_nonneg s l :
  (forall a, a ∈ l -> 0 <= block_size s a) -> 0 <= sum_sizes s l.
Proof.
  induction l as [|x l IH]; intros Hnn; [cbn; lia|].
  pose proof (Hnn x (list_elem_of_here _ _)) as Hx.
  assert (0 <= sum_sizes s l)
    by (apply IH; intros a Ha; apply Hnn; apply elem_of_cons; auto).
  unfold sum_sizes in *. cbn [foldr]. lia.
Qed.

Lemma last_cons_default {A} (l : list A) (x d : A) :
  List.last (x :: l) d = List.last l x.
Proof.
  revert x d. induction l as [|y l IH]; intros x d; [reflexivity|].
  change (List.last (x :: y :: l) d) with (List.last (y :: l) d).
  rewrite (IH y d), (IH y x). reflexivity.
Qed.

(** The backward loop of [merge_block] along a run: it ends at the far end
    of the run, whose header then holds the sum of the lengths and the next
    neighbour of the block the loop started from. *)
Lemma merge_prev_loop_run fuel :
  forall l s block bb prev p0,
    back_run (blocks s) prev l p0 ->
    NoDup (block :: l) ->
    block <> NULL -> blocks s !! block = Some bb -> free bb = true ->
    (length l < fuel)%nat ->
    0 <= size bb -> (forall a, a ∈ l -> 0 <= block_size s a) ->
    size bb + sum_sizes s l < SIZE_MOD ->
    exists s' rb,
      merge_prev_loop fuel block prev s = Done (List.last l block) s' /\
      blocks s' !! List.last l block = Some rb /\
      size rb = size bb + sum_sizes s l /\
      next_block rb = next_block bb /\
      free rb = true /\
      (prev_block <$> blocks s !! List.last l block) = Some (prev_block rb) /\
      (forall a, a ∉ l -> blocks s' !! a = blocks s !! a) /\
      (forall a, is_Some (blocks s !! a) -> is_Some (blocks s' !! a)) /\
      frame s s'.
Proof.
  induction fuel as [|k IH];
    intros l s block bb prev p0 Hrun Hnd Hbn Hb Hfree Hlen Hsz Hnn Hsum;
    [lia|].
  inversion Hrun as [q Hstop | x pb l' q Hx Hpb Hpf Hrest]; subst.
  - (* the walk stops at once *)
    exists s, bb. cbn [List.last sum_sizes foldr].
    split.
    { destruct Hstop as [-> | (b & Hq & Hf)]; [reflexivity|].
      cbn [merge_prev_loop]. destruct (p0 =? NULL) eqn:Hp0; [reflexivity|].
      apply Z.eqb_neq in Hp0.
      rewrite (bind_done _ _ _ _ _ (load_done s p0 b Hp0 Hq)).
      rewrite Hf. reflexivity. }
    split; [exact Hb|]. split; [lia|]. split; [reflexivity|].
    split; [exact Hfree|]. split; [rewrite Hb; reflexivity|].
    split; [reflexivity|]. split; [auto | apply frame_refl].
  - (* one block is absorbed *)
    apply NoDup_cons in Hnd. destruct Hnd as [Hbl Hnd].
    apply NoDup_cons in Hnd as Hnd'. destruct Hnd' as [Hxl Hnd'].
    assert (Hxb : prev <> block).
    { intros ->. apply Hbl. apply list_elem_of_here. }
    cbn [merge_prev_loop].
    apply Z.eqb_neq in Hx as Hx'. rewrite Hx'.
    rewrite (bind_done _ _ _ _ _ (load_done s prev pb Hx Hpb)).
    rewrite Hpf. cbn [negb].
    step_load. step_store. step_load. step_store. step_load.
    cbn [prev_block set_next_block set_size].
    pose proof (Hnn prev (list_elem_of_here _ _)) as Hpsz.
    rewrite (block_size_lookup s prev pb Hpb) in Hpsz.
    assert (Hrestnn : forall a, a ∈ l' -> 0 <= block_size s a)
      by (intros a Ha; apply Hnn; apply elem_of_cons; auto).
    pose proof (sum_sizes_nonneg s l' Hrestnn) as Hrest0.
    cbn [sum_sizes foldr] in Hsum. fold (sum_sizes s l') in Hsum.
    rewrite (block_size_lookup s prev pb Hpb) in Hsum.
    rewrite (wrap_small (size pb + size bb)) by lia.
    set (pb' := set_next_block (next_block bb) (set_size (size pb + size bb) pb)).
    set (s1 := {| g_regions := g_regions s; g_allocations := g_allocations s;
                  g_region_head := g_region_head s;
                  g_region_tail := g_region_tail s;
                  g_free_list := g_free_list s;
                  blocks := <[prev := pb']> (blocks s);
                  regions := regions s; trace := trace s |}).
    assert (Hag : forall a, a ∈ l' -> blocks s1 !! a = blocks s !! a).
    { intros a Ha. cbn [blocks s1]. apply lookup_insert_ne.
      intros ->. exact (Hxl Ha). }
    destruct (IH l' s1 prev pb' (prev_block pb) p0) as
      (s' & rb & Hrun' & Hrb & Hsize & Hnext & Hfr & Hprev & Hother & Hkeep & Hframe).
    { cbn [blocks s1]. eapply back_run_transport; eassumption. }
    { exact Hnd. }
    { exact Hx. }
    { cbn [blocks s1]. apply lookup_insert_eq. }
    { exact Hpf. }
    { cbn in Hlen. lia. }
    { cbn. lia. }
    { intros a Ha. unfold block_size. rewrite (Hag a Ha). apply Hrestnn, Ha. }
    { rewrite (sum_sizes_agree s s1 l' Hag). cbn. lia. }
    exists s', rb.
    rewrite last_cons_default.
    split; [exact Hrun'|]. split; [exact Hrb|].
    split.
    { rewrite Hsize, (sum_sizes_agree s s1 l' Hag).
      cbn [sum_sizes foldr]. fold (sum_sizes s l').
      rewrite (block_size_lookup s prev pb Hpb). cbn. lia. }
    split; [rewrite Hnext; reflexivity|].
    split; [exact Hfr|].
    split.
    { rewrite <- Hprev. cbn [blocks s1].
      destruct (decide (List.last l' prev = prev)) as [-> | Hne].
      - rewrite lookup_insert_eq, Hpb. reflexivity.
      - rewrite lookup_insert_ne by congruence. reflexivity. }
    split.
    { intros a Ha. apply not_elem_of_cons in Ha. destruct Ha as [Hne Ha].
      rewrite (Hother a Ha). cbn [blocks s1].
      rewrite lookup_insert_ne by congruence. reflexivity. }
    split.
    { intros a Ha. apply Hkeep. cbn [blocks s1].
      destruct (decide (a = prev)) as [-> | Hne].
      - rewrite lookup_insert_eq. eauto.
      - rewrite lookup_insert_ne by congruence. exact Ha. }
    eapply frame_trans; [|exact Hframe].
    split; [repeat split|]. split; [reflexivity|].
    intros a Ha. cbn [blocks s1].
    destruct (decide (a = prev)) as [-> | Hne].
    + rewrite lookup_insert_eq. eauto.
    + rewrite lookup_insert_ne by congruence. exact Ha.
Qed.

(** The forward loop of [merge_block] along a run: it ends at the far end
    of the run, whose header then holds the sum of the lengths and the
    previous neighbour of the block the loop started from. *)
Lemma merge_next_loop_run fuel :
  forall l s block bb next p0,
    fwd_run (blocks s) next l p0 ->
    NoDup (block :: l) ->
    block <> NULL -> blocks s !! block = Some bb -> free bb = true ->
    (length l < fuel)%nat ->
    0 <= size bb -> (forall a, a ∈ l -> 0 <= block_size s a) ->
    size bb + sum_sizes s l < SIZE_MOD ->
    exists s' rb,
      merge_next_loop fuel block next s = Done (List.last l block) s' /\
      blocks s' !! List.last l block = Some rb /\
      size rb = size bb + sum_sizes s l /\
      prev_block rb = prev_block bb /\
      free rb = true /\
      (next_block <$> blocks s !! List.last l block) = Some (next_block rb) /\
      (forall a, a ∉ l -> blocks s' !! a = blocks s !! a) /\
      (forall a, is_Some (blocks s !! a) -> is_Some (blocks s' !! a)) /\
      frame s s'.
Proof.
  induction fuel as [|k IH];
    intros l s block bb next p0 Hrun Hnd Hbn Hb Hfree Hlen Hsz Hnn Hsum;
    [lia|].
  inversion Hrun as [q Hstop | x pb l' q Hx Hpb Hpf Hrest]; subst.
  - (* the walk stops at once *)
    exists s, bb. cbn [List.last sum_sizes foldr].
    split.
    { destruct Hstop as [-> | (b & Hq & Hf)]; [reflexivity|].
      cbn [merge_next_loop]. destruct (p0 =? NULL) eqn:Hp0; [reflexivity|].
      apply Z.eqb_neq in Hp0.
      rewrite (bind_done _ _ _ _ _ (load_done s p0 b Hp0 Hq)).
      rewrite Hf. reflexivity. }
    split; [exact Hb|]. split; [lia|]. split; [reflexivity|].
    split; [exact Hfree|]. split; [rewrite Hb; reflexivity|].
    split; [reflexivity|]. split; [auto | apply frame_refl].
  - (* one block is absorbed *)
    apply NoDup_cons in Hnd. destruct Hnd as [Hbl Hnd].
    apply NoDup_cons in Hnd as Hnd'. destruct Hnd' as [Hxl Hnd'].
    assert (Hxb : next <> block).
    { intros ->. apply Hbl. apply list_elem_of_here. }
    cbn [merge_next_loop].
    apply Z.eqb_neq in Hx as Hx'. rewrite Hx'.
    rewrite (bind_done _ _ _ _ _ (load_done s next pb Hx Hpb)).
    rewrite Hpf. cbn [negb].
    step_load. step_store. step_load. step_store. step_load.
    cbn [next_block set_prev_block set_size].
    pose proof (Hnn next (list_elem_of_here _ _)) as Hpsz.
    rewrite (block_size_lookup s next pb Hpb) in Hpsz.
    assert (Hrestnn : forall a, a ∈ l' -> 0 <= block_size s a)
      by (intros a Ha; apply Hnn; apply elem_of_cons; auto).
    pose proof (sum_sizes_nonneg s l' Hrestnn) as Hrest0.
    cbn [sum_sizes foldr] in Hsum. fold (sum_sizes s l') in Hsum.
    rewrite (block_size_lookup s next pb Hpb) in Hsum.
    rewrite (wrap_small (size pb + size bb)) by lia.
    set (pb' := set_prev_block (prev_block bb) (set_size (size pb + size bb) pb)).
    set (s1 := {| g_regions := g_regions s; g_allocations := g_allocations s;
                  g_region_head := g_region_head s;
                  g_region_tail := g_region_tail s;
                  g_free_list := g_free_list s;
                  blocks := <[next := pb']> (blocks s);
                  regions := regions s; trace := trace s |}).
    assert (Hag : forall a, a ∈ l' -> blocks s1 !! a = blocks s !! a).
    { intros a Ha. cbn [blocks s1]. apply lookup_insert_ne.
      intros ->. exact (Hxl Ha). }
    destruct (IH l' s1 next pb' (next_block pb) p0) as
      (s' & rb & Hrun' & Hrb & Hsize & Hprv & Hfr & Hnxt & Hother & Hkeep & Hframe).
    { cbn [blocks s1]. eapply fwd_run_transport; eassumption. }
    { exact Hnd. }
    { exact Hx. }
    { cbn [blocks s1]. apply lookup_insert_eq. }
    { exact Hpf. }
    { cbn in Hlen. lia. }
    { cbn. lia. }
    { intros a Ha. unfold block_size. rewrite (Hag a Ha). apply Hrestnn, Ha. }
    { rewrite (sum_sizes_agree s s1 l' Hag). cbn. lia. }
    exists s', rb.
    rewrite last_cons_default.
    split; [exact Hrun'|]. split; [exact Hrb|].
    split.
    { rewrite Hsize, (sum_sizes_agree s s1 l' Hag).
      cbn [sum_sizes foldr]. fold (sum_sizes s l').
      rewrite (block_size_lookup s next pb Hpb). cbn. lia. }
    split; [rewrite Hprv; reflexivity|].
    split; [exact Hfr|].
    split.
    { rewrite <- Hnxt. cbn [blocks s1].
      destruct (decide (List.last l' next = next)) as [-> | Hne].
      - rewrite lookup_insert_eq, Hpb. reflexivity.
      - rewrite lookup_insert_ne by congruence. reflexivity. }
    split.
    { intros a Ha. apply not_elem_of_cons in Ha. destruct Ha as [Hne Ha].
      rewrite (Hother a Ha). cbn [blocks s1].
      rewrite lookup_insert_ne by congruence. reflexivity. }
    split.
    { intros a Ha. apply Hkeep. cbn [blocks s1].
      destruct (decide (a = next)) as [-> | Hne].
      - rewrite lookup_insert_eq. eauto.
      - rewrite lookup_insert_ne by congruence. exact Ha. }
    eapply frame_trans; [|exact Hframe].
    split; [repeat split|]. split; [reflexivity|].
    intros a Ha. cbn [blocks s1].
    destruct (decide (a = next)) as [-> | Hne].
    + rewrite lookup_insert_eq. eauto.
    + rewrite lookup_insert_ne by congruence. exact Ha.
Qed.

Lemma back_run_end m a l p0 :
  back_run m a l p0 ->
  forall x bx, m !! x = Some bx -> prev_block bx = a ->
    (prev_block <$> m !! List.last l x) = Some p0.
Proof.
  induction 1 as [q Hq | y b l q Hy Hb Hf Hrest IH]; intros x bx Hx Hp.
  - cbn [List.last]. rewrite Hx. cbn. congruence.
  - rewrite last_cons_default. eapply IH; [exact Hb | reflexivity].
Qed.

Lemma fwd_run_end m a l n0 :
  fwd_run m a l n0 ->
  forall x bx, m !! x = Some bx -> next_block bx = a ->
    (next_block <$> m !! List.last l x) = Some n0.
Proof.
  induction 1 as [q Hq | y b l q Hy Hb Hf Hrest IH]; intros x bx Hx Hp.
  - cbn [List.last]. rewrite Hx. cbn. congruence.
  - rewrite last_cons_default. eapply IH; [exact Hb | reflexivity].
Qed.

Lemma back_run_members m a l p0 :
  back_run m a l p0 ->
  forall y, y ∈ l -> y <> NULL /\ exists b, m !! y = Some b /\ free b = true.
Proof.
  induction 1 as [q Hq | x b l q Hx Hb Hf Hrest IH]; intros y Hy.
  - inversion Hy.
  - apply elem_of_cons in Hy. destruct Hy as [-> | Hy]; [eauto | auto].
Qed.

Lemma fwd_run_agree m m' a l n0 :
  fwd_run m a l n0 ->
  (forall y, y ∈ l -> m' !! y = m !! y) -> stops m' n0 ->
  fwd_run m' a l n0.
Proof.
  induction 1 as [q Hq | x b l q Hx Hb Hf Hrest IH]; intros Hag Hstop.
  - constructor. exact Hstop.
  - econstructor; [exact Hx | | exact Hf | ].
    + rewrite Hag by apply list_elem_of_here. exact Hb.
    + apply IH; [|exact Hstop].
      intros y Hy. apply Hag. apply elem_of_cons. auto.
Qed.

Lemma fwd_run_stops m a l n0 : fwd_run m a l n0 -> stops m n0.
Proof. induction 1; assumption. Qed.

Lemma last_in {A} (l : list A) (d : A) : List.last l d ∈ d :: l.
Proof.
  revert d. induction l as [|y l IH]; intros d; [apply list_elem_of_here|].
  rewrite last_cons_default. apply elem_of_cons. right. apply IH.
Qed.

Lemma sum_sizes_app s l k :
  sum_sizes s (l ++ k) = sum_sizes s l + sum_sizes s k.
Proof.
  induction l as [|x l IH]; [reflexivity|].
  cbn [app]. unfold sum_sizes in *. cbn [foldr]. rewrite IH. lia.
Qed.

(** X13: what [merge_block] does on a free block [x] of a region whose free
    neighbours before it are [B] (nearest first) and after it are [F], when
    the lengths add up without wrapping: it returns the last block of the
    whole run, which is the first block of the run only when no free block
    follows [x].  The header returned records the sum of the lengths of the
    run and the two neighbours of the run; no header outside [B] and [F] is
    written, none disappears, and neither the free list nor the regions
    change. *)
Theorem merge_block_joins_the_run
    (fuel : nat) (s : state) (x : Z) (bx : mem_block) (B F : list Z) (p0 n0 : Z) :
  x <> NULL -> blocks s !! x = Some bx -> free bx = true ->
  back_run (blocks s) (prev_block bx) B p0 ->
  fwd_run (blocks s) (next_block bx) F n0 ->
  NoDup (x :: B ++ F) ->
  (length B < fuel)%nat -> (length F < fuel)%nat ->
  (forall a, a ∈ x :: B ++ F -> 0 <= block_size s a) ->
  sum_sizes s (x :: B ++ F) < SIZE_MOD ->
  exists s' rb,
    merge_block fuel x s = Done (List.last F (List.last B x)) s' /\
    blocks s' !! List.last F (List.last B x) = Some rb /\
    size rb = sum_sizes s (x :: B ++ F) /\
    prev_block rb = p0 /\ next_block rb = n0 /\ free rb = true /\
    (forall a, a ∉ B -> a ∉ F -> blocks s' !! a = blocks s !! a) /\
    frame s s'.
Proof.
  intros Hx Hbx Hfree HB HF Hnd HlB HlF Hnn Hsum.
  apply NoDup_cons in Hnd. destruct Hnd as [HxBF Hnd].
  apply NoDup_app in Hnd. destruct Hnd as (HndB & Hdisj & HndF).
  apply not_elem_of_app in HxBF. destruct HxBF as [HxB HxF].
  unfold sum_sizes in Hsum. cbn [foldr] in Hsum.
  fold (sum_sizes s (B ++ F)) in Hsum. rewrite sum_sizes_app in Hsum.
  rewrite (block_size_lookup s x bx Hbx) in Hsum.
  pose proof (Hnn x (list_elem_of_here _ _)) as Hxsz.
  rewrite (block_size_lookup s x bx Hbx) in Hxsz.
  assert (HnnB : forall a, a ∈ B -> 0 <= block_size s a).
  { intros a Ha. apply Hnn. apply elem_of_cons. right.
    apply elem_of_app. auto. }
  assert (HnnF : forall a, a ∈ F -> 0 <= block_size s a).
  { intros a Ha. apply Hnn. apply elem_of_cons. right.
    apply elem_of_app. auto. }
  pose proof (sum_sizes_nonneg s B HnnB) as HB0.
  pose proof (sum_sizes_nonneg s F HnnF) as HF0.
  destruct (merge_prev_loop_run fuel B s x bx (prev_block bx) p0 HB
              ltac:(apply NoDup_cons; auto) Hx Hbx Hfree HlB Hxsz HnnB ltac:(lia))
    as (s1 & rb1 & Hrun1 & Hrb1 & Hsz1 & Hnx1 & Hfr1 & Hprev1 & Hoth1 & _ & Hframe1).
  set (r1 := List.last B x) in *.
  assert (Hr1in : r1 ∈ x :: B) by apply last_in.
  assert (Hr1F : r1 ∉ F).
  { apply elem_of_cons in Hr1in. destruct Hr1in as [-> | Hin]; [exact HxF|].
    apply Hdisj, Hin. }
  assert (Hr1 : r1 <> NULL).
  { apply elem_of_cons in Hr1in. destruct Hr1in as [-> | Hin]; [exact Hx|].
    apply (back_run_members _ _ _ _ HB r1 Hin). }
  assert (HagF : forall y, y ∈ F -> blocks s1 !! y = blocks s !! y).
  { intros y Hy. apply Hoth1. intros HyB. exact (Hdisj y HyB Hy). }
  assert (HF1 : fwd_run (blocks s1) (next_block bx) F n0).
  { eapply fwd_run_agree; [exact HF | exact HagF |].
    destruct (fwd_run_stops _ _ _ _ HF) as [-> | (b & Hb & Hfb)];
      [left; reflexivity|].
    right. exists b. split; [|exact Hfb].
    rewrite Hoth1; [exact Hb|].
    intros Hin. destruct (back_run_members _ _ _ _ HB n0 Hin) as (_ & b' & Hb' & Hfb').
    rewrite Hb in Hb'. injection Hb' as <-. congruence. }
  destruct (merge_next_loop_run fuel F s1 r1 rb1 (next_block bx) n0 HF1
              ltac:(apply NoDup_cons; auto) Hr1 Hrb1 Hfr1 HlF ltac:(lia))
    as (s2 & rb2 & Hrun2 & Hrb2 & Hsz2 & Hpv2 & Hfr2 & Hnext2 & Hoth2 & _ & Hframe2).
  { intros a Ha. unfold block_size. rewrite (HagF a Ha). apply HnnF, Ha. }
  { rewrite (sum_sizes_agree s s1 F HagF). lia. }
  exists s2, rb2.
  split.
  { unfold merge_block.
    rewrite (bind_done _ _ _ _ _ (load_done s x bx Hx Hbx)).
    rewrite Hfree. cbn [negb].
    rewrite (bind_done _ _ _ _ _ Hrun1).
    rewrite (bind_done _ _ _ _ _ (load_done s1 r1 rb1 Hr1 Hrb1)).
    rewrite Hnx1. exact Hrun2. }
  split; [exact Hrb2|].
  split.
  { rewrite Hsz2, Hsz1, (sum_sizes_agree s s1 F HagF).
    unfold sum_sizes at 3. cbn [foldr]. fold (sum_sizes s (B ++ F)).
    rewrite sum_sizes_app, (block_size_lookup s x bx Hbx). lia. }
  split.
  { rewrite Hpv2.
    pose proof (back_run_end _ _ _ _ HB x bx Hbx eq_refl) as He.
    fold r1 in He. rewrite He in Hprev1. congruence. }
  split.
  { pose proof (fwd_run_end _ _ _ _ HF1 r1 rb1 Hrb1 Hnx1) as He.
    rewrite He in Hnext2. congruence. }
  split; [exact Hfr2|].
  split.
  { intros a HaB HaF. rewrite (Hoth2 a HaF). apply Hoth1, HaB. }
  eapply frame_trans; eassumption.
Qed.

Lemma merge_block_joins_the_run_witness :
  exists s' rb,
    merge_block 16 65736 two_free_one_used = Done 65616 s' /\
    blocks s' !! 65616 = Some rb /\
    size rb = 240 /\ prev_block rb = NULL /\ next_block rb = 65856.
Proof.
  destruct (blocks two_free_one_used !! 65736) as [bx|] eqn:Hbx;
    [|vm_compute in Hbx; discriminate].
  destruct (merge_block_joins_the_run 16 two_free_one_used 65736 bx
              [65616] [] NULL 65856)
    as (s' & rb & Hrun & Hrb & Hsz & Hp & Hn & _).
  - discriminate.
  - exact Hbx.
  - vm_compute in Hbx. injection Hbx as <-. reflexivity.
  - vm_compute in Hbx. injection Hbx as <-. cbn [prev_block].
    eapply (back_run_step _ 65616); [discriminate | vm_compute; reflexivity
                                    | reflexivity |].
    cbn [prev_block]. apply back_run_stop. left. reflexivity.
  - vm_compute in Hbx. injection Hbx as <-. cbn [next_block].
    apply fwd_run_stop. right. eexists.
    split; [vm_compute; reflexivity | reflexivity].
  - apply NoDup_cons. split; [|apply NoDup_singleton].
    intros H. apply list_elem_of_singleton in H. discriminate.
  - cbn. lia.
  - cbn. lia.
  - intros a Ha.
    apply elem_of_cons in Ha. destruct Ha as [-> | Ha]; [vm_compute; discriminate|].
    apply list_elem_of_singleton in Ha. subst a. vm_compute. discriminate.
  - vm_compute. reflexivity.
  - exists s', rb. split; [exact Hrun|]. split; [exact Hrb|].
    split; [|split; assumption].
    rewrite Hsz. vm_compute. reflexivity.
Defined.

(** * Printing the memory state *)

(** The steps that leave the region list alone. *)

Lemma keeps_regions_ret {A} (a : A) : keeps_regions (ret a).
Proof. intros s b s' H. injection H as _ <-. apply same_regions_refl. Qed.

Lemma keeps_regions_stuck {A} (f : failure) : keeps_regions (@stuck A f).
Proof. intros s b s' H. discriminate. Qed.

Lemma keeps_regions_gets {A} (f : state -> A) : keeps_regions (gets f).
Proof. intros s b s' H. injection H as _ <-. apply same_regions_refl. Qed.

Lemma keeps_regions_modify (f : state -> state) :
  (forall s, same_regions s (f s)) -> keeps_regions (modify f).
Proof. intros Hf s [] s' H. injection H as <-. apply Hf. Qed.

Lemma keeps_regions_bind {A B} (m : M A) (k : A -> M B) :
  keeps_regions m -> (forall a, keeps_regions (k a)) -> keeps_regions (bind m k).
Proof.
  intros Hm Hk s b s' H. unfold bind in H.
  destruct (m s) as [a s1|] eqn:E; [|discriminate].
  eapply same_regions_trans; [eapply Hm, E | eapply Hk, H].
Qed.

Lemma keeps_regions_load a : keeps_regions (load a).
Proof.
  intros s b s' H. unfold load in H.
  destruct (a =? NULL); [discriminate|].
  destruct (blocks s !! a); [|discriminate].
  injection H as _ <-. apply same_regions_refl.
Qed.

Lemma keeps_regions_store a f : keeps_regions (store a f).
Proof.
  intros s [] s' H. unfold store in H.
  destruct (a =? NULL); [discriminate|].
  destruct (blocks s !! a); [|discriminate].
  injection H as <-. repeat split.
Qed.

Lemma keeps_regions_init a f : keeps_regions (init a f).
Proof.
  intros s [] s' H. unfold init in H.
  destruct (a =? NULL); [discriminate|].
  injection H as <-. repeat split.
Qed.

Ltac keeps_regions_step :=
  first
    [ apply keeps_regions_ret
    | apply keeps_regions_stuck
    | apply keeps_regions_gets
    | apply keeps_regions_load
    | apply keeps_regions_store
    | apply keeps_regions_init
    | apply keeps_regions_modify; intros ?; repeat split
    | apply keeps_regions_bind; [|intros ?]
    | match goal with
      | |- keeps_regions (if ?c then _ else _) => destruct c
      end ].

Lemma split_block_keeps_regions (L : layout) block t :
  keeps_regions (split_block L block t).
Proof. unfold split_block. cbv zeta. repeat keeps_regions_step. Qed.

Lemma malloc_miss_rest_keeps_regions (L : layout) (ENV : env) block usable a1 a2 :
  scribble_check ENV <> 1 ->
  keeps_regions (malloc_miss_rest L ENV block usable a1 a2).
Proof.
  intros Hscr. apply Z.eqb_neq in Hscr.
  unfold malloc_miss_rest. rewrite Hscr.
  repeat keeps_regions_step. apply split_block_keeps_regions.
Qed.

(** The first region: where [malloc_impl] leaves the region list and the
    headers when it maps the first region of all. *)
Lemma malloc_impl_first_region (L : layout) (OS : os) (ENV : env) fuel sz nm s region :
  no_wrap L sz -> grants L OS s sz region ->
  g_free_list s = NULL -> no_region s -> scribble_check ENV <> 1 ->
  exists s',
    malloc_impl L OS ENV fuel sz nm s = Done (region + HB L + HB L) s' /\
    g_region_head s' = region /\
    regions s' = {[ region := first_region s ]} /\
    (forall a, a <> region + HB L -> a <> region + HB L + (sz + RB L) ->
               blocks s' !! a = blocks s !! a) /\
    (carves L sz ->
     blocks s' !! (region + HB L) = Some (served_header L s nm sz region) /\
     blocks s' !! (region + HB L + (sz + RB L)) = Some (tail_of_region L s sz region)).
Proof.
  intros Hnw Hgr Hempty (Hh & Ht & Hreg) Hscr.
  destruct (malloc_impl_fresh L OS ENV fuel sz nm s region Hnw Hgr Hempty Hscr)
    as (s' & Hrun & _ & _ & _ & Hother & Hyes & _).
  exists s'. split; [exact Hrun|].
  destruct Hnw as (HHB & HRB & HPG & Hsz & Hfit).
  destruct Hgr as (Hgrant & Hpos & Hok & Hf1 & _).
  unfold malloc_impl in Hrun. cbn zeta in Hrun.
  rewrite (bind_done _ _ _ _ _ (reuse_on_empty L ENV fuel _ s Hempty)) in Hrun.
  cbn [Z.eqb NULL negb] in Hrun.
  destruct (malloc_miss_prefix L OS ENV sz nm (wrap (sz + RB L))
              (align (wrap (sz + RB L)) ALIGN_SZ) s region HHB Hpos Hok Hgrant Hf1)
    as (s5 & Hpre & _ & _ & _ & _ & _ & _ & Hhead & _ & Hregs & _).
  rewrite Hpre in Hrun.
  destruct (malloc_miss_rest_keeps_regions L ENV _ _ _ _ Hscr _ _ _ Hrun)
    as (_ & K2 & _ & K4 & _).
  split; [rewrite K2; apply Hhead; assumption|].
  split.
  { rewrite K4, (Hregs Hh Ht), Hreg. rewrite lookup_empty. reflexivity. }
  split; [exact Hother|].
  intros Hc. destruct (Hyes Hc) as (H1 & H2 & _). split; assumption.
Qed.

Lemma load_region_done s a r :
  a <> NULL -> regions s !! a = Some r -> load_region a s = Done r s.
Proof.
  intros Ha Hr. unfold load_region. apply Z.eqb_neq in Ha. rewrite Ha, Hr.
  reflexivity.
Qed.

Lemma print_blocks_null fuel s : print_blocks fuel NULL s = Done [] s.
Proof. destruct fuel; reflexivity. Qed.

(** X15: where the two header sizes are the same, [print_memory] after the
    first request served from a new region that is carved (new memory, both
    headers inside the mapping, the tag fitting the [name] array) writes
    three lines: the region, the used block with its tag and the length
    [malloc_impl] recorded (the payload plus the region header), and the
    free tail, which ends where the mapping ends.  It changes nothing. *)
Theorem print_memory_lists_the_first_region
    (L : tagged_layout) (OS : os) (ENV : env) fuel fuel' sz nm s region :
  no_wrap L sz -> grants L OS s sz region ->
  g_free_list s = NULL -> no_region s -> scribble_check ENV <> 1 ->
  carves L sz -> RB L = HB L ->
  miss_is_real L s sz region nm ->
  exists s',
    malloc_impl L OS ENV fuel sz nm s = Done (region + HB L + HB L) s' /\
    print_memory L (S (S (S fuel'))) s'
    = Done [RegionLine (g_regions s) region;
            BlockLine (g_allocations s) (region + HB L)
              (region + HB L + (sz + RB L)) (default "" nm) (sz + RB L) "USED";
            BlockLine (wrap (g_allocations s + 1)) (region + HB L + (sz + RB L))
              (region + map_sz L sz) ""
              (map_sz L sz - RB L - (sz + RB L)) "FREE"] s'.
Proof.
  intros Hnw Hgr Hempty Hnone Hscr Hc Hsame _.
  destruct (malloc_impl_first_region L OS ENV fuel sz nm s region
              Hnw Hgr Hempty Hnone Hscr)
    as (s' & Hrun & Hhead & Hregs & _ & Hyes).
  destruct (Hyes Hc) as [Hb Htl].
  destruct Hnw as (HHB & HRB & HPG & Hsz & Hfit).
  destruct Hgr as (_ & Hpos & _).
  exists s'. split; [exact Hrun|].
  unfold print_memory.
  rewrite (bind_done _ _ _ _ _ (gets_done _ _)). cbv beta. rewrite Hhead.
  cbn [print_regions].
  assert (Hr0 : (region =? NULL) = false) by (apply Z.eqb_neq; unfold NULL; lia).
  rewrite Hr0.
  rewrite (bind_done _ _ _ _ _
             (load_region_done s' region (first_region s)
                ltac:(unfold NULL; lia)
                ltac:(rewrite Hregs; apply lookup_singleton_eq))).
  replace (region + RB L) with (region + HB L) by lia.
  cbn [print_blocks].
  assert (Hb0 : (region + HB L =? NULL) = false)
    by (apply Z.eqb_neq; unfold NULL; lia).
  assert (Ht0 : region + HB L + (sz + RB L) <> NULL) by (unfold NULL; lia).
  apply Z.eqb_neq in Ht0 as Ht0'.
  rewrite Hb0.
  rewrite ?bind_assoc.
  assert (Hbn : region + HB L <> NULL) by (unfold NULL; lia).
  rewrite (bind_done _ _ _ _ _ (load_done s' _ _ Hbn Hb)).
  cbv zeta. cbn [served_header next_block free block_number name size].
  rewrite Ht0'. rewrite ?bind_assoc.
  rewrite (bind_done _ _ _ _ _ (load_done s' _ _ Ht0 Htl)).
  cbv zeta. cbn [tail_of_region next_block free block_number name size].
  cbn [first_region next_region region_number].
  change (NULL =? NULL) with true. cbv iota.
  rewrite ?bind_assoc.
  rewrite (bind_done _ _ _ _ _ (print_blocks_null fuel' s')). cbv beta.
  rewrite ?bind_assoc.
  rewrite (bind_done _ _ _ _ _ (ret_done _ _)). cbv beta.
  rewrite (bind_done _ _ _ _ _ (ret_done _ _)). cbv beta.
  rewrite (bind_done _ _ _ _ _ (ret_done _ _)). cbv beta.
  unfold ret. cbn [app]. do 4 f_equal.
  f_equal. lia.
Qed.

Lemma print_memory_lists_the_first_region_witness :
  exists s',
    malloc_impl equal_headers_layout granting_os default_env 16 100 (Some "x")
      initial_state
    = Done (65536 + 80 + 80) s' /\
    print_memory equal_headers_layout 16 s'
    = Done [RegionLine 0 65536;
            BlockLine 0 65616 65796 "x" 180 "USED";
            BlockLine 1 65796 69632 "" 3836 "FREE"] s'.
Proof.
  destruct (print_memory_lists_the_first_region equal_headers_tagged granting_os
              default_env 16 13 100 (Some "x") initial_state 65536)
    as (s' & Hrun & Hprint).
  - repeat split; vm_compute; congruence.
  - split; [reflexivity|]. split; [reflexivity|].
    split; [left; split; reflexivity|].
    split; reflexivity.
  - reflexivity.
  - repeat split.
  - vm_compute. discriminate.
  - split; vm_compute; discriminate.
  - reflexivity.
  - miss_real.
  - exists s'. split; [exact Hrun | exact Hprint].
Defined.

(** * Zero-filled allocation *)

(** X16: [calloc_impl] served from a new region that is carved (new memory,
    both headers inside the mapping, the tag fitting the [name] array), on
    an empty free list and without the debug fill: it returns the payload
    of the first block after one mapping and one zero fill of exactly the
    bytes asked for, all of them inside the mapping, and the header of the
    served block is as [malloc_impl] left it.  The free tail starts
    [sizeof(struct mem_region)] bytes after the payload bytes asked for,
    measured from the header of the served block: where the block header is
    not larger than the region header the zero fill stops short of the
    header of the tail, and where it is larger the filled bytes meet the
    bytes of that header, which is still the head of the free list. *)
Theorem calloc_impl_on_a_new_region
    (L : tagged_layout) (OS : os) (ENV : env) fuel nmemb sz n nm s region :
  wrap (nmemb * sz) = n ->
  no_wrap L n -> grants L OS s n region ->
  g_free_list s = NULL -> scribble_check ENV <> 1 ->
  carves L n ->
  miss_is_real L s n region nm ->
  exists s',
    calloc_impl L OS ENV fuel nmemb sz nm s = Done (region + HB L + HB L) s' /\
    trace s' = trace s ++ [EMmap (map_sz L n) (Some region);
                           EMemset (region + HB L + HB L) 0 n] /\
    mapped s' (region + HB L + HB L) n /\
    blocks s' !! (region + HB L) = Some (served_header L s nm n region) /\
    g_free_list s' = region + HB L + (n + RB L) /\
    (HB L <= RB L ->
     blocks s' !! (region + HB L + (n + RB L)) = Some (tail_of_region L s n region)) /\
    (RB L < HB L ->
     overlaps (region + HB L + HB L) n (region + HB L + (n + RB L)) (HB L) = true).
Proof.
  intros Hn Hnw Hgr Hempty Hscr Hc (_ & _ & (_ & _ & Hroom) & _).
  specialize (Hroom Hc).
  destruct (malloc_impl_fresh L OS ENV fuel n nm s region Hnw Hgr Hempty Hscr)
    as (s1 & Hrun & Htr & _ & _ & _ & Hyes & _).
  destruct (Hyes Hc) as (Hhead & Htail & Hfl & _).
  destruct Hnw as (HHB & HRB & HPG & Hsz & Hfit).
  destruct Hgr as (_ & Hpos & _).
  destruct Hc as [Hc1 Hc2].
  assert (Hp : (region + HB L + HB L =? NULL) = false)
    by (apply Z.eqb_neq; unfold NULL; lia).
  eexists. split.
  { unfold calloc_impl. rewrite Hn.
    rewrite (bind_done _ _ _ _ _ Hrun).
    unfold memset. rewrite Hp. cbn [andb].
    rewrite bind_assoc. step_modify. unfold log. step_modify.
    reflexivity. }
  unfold mapped. cbn [trace blocks g_free_list].
  split; [rewrite Htr, <- app_assoc; reflexivity|].
  split.
  { rewrite Htr, !existsb_app. cbn [existsb delivers].
    replace ((region <=? region + HB L + HB L)
             && (region + HB L + HB L + n <=? region + map_sz L n)) with true.
    - rewrite !orb_true_r. reflexivity.
    - symmetry. apply andb_true_iff. split; apply Z.leb_le; lia. }
  split.
  { apply map_lookup_filter_Some. split; [exact Hhead|].
    cbn [fst]. unfold overlaps.
    apply andb_false_iff. right. apply Z.ltb_ge. lia. }
  split; [exact Hfl|].
  split.
  - intros Hle. apply map_lookup_filter_Some. split; [exact Htail|].
    cbn [fst]. unfold overlaps.
    apply andb_false_iff. left. apply andb_false_iff. right.
    apply Z.ltb_ge. lia.
  - intros Hlt. unfold overlaps.
    assert (H1 : (0 <? n) = true) by (apply Z.ltb_lt; unfold ALIGN_SZ in *; lia).
    assert (H2 : (region + HB L + (n + RB L) <? region + HB L + HB L + n) = true)
      by (apply Z.ltb_lt; lia).
    assert (H3 : (region + HB L + HB L <? region + HB L + (n + RB L) + HB L) = true)
      by (apply Z.ltb_lt; lia).
    rewrite H1, H2, H3. reflexivity.
Qed.

Lemma calloc_impl_on_a_new_region_witness :
  exists s',
    calloc_impl sample_layout granting_os default_env 16 4 25 (Some "x") initial_state
    = Done (65536 + 80 + 80) s' /\
    mapped s' (65536 + 80 + 80) 100 /\
    overlaps (65536 + 80 + 80) 100 (65536 + 80 + (100 + 16)) 80 = true.
Proof.
  destruct (calloc_impl_on_a_new_region sample_tagged granting_os default_env
              16 4 25 100 (Some "x") initial_state 65536)
    as (s' & Hrun & _ & Hin & _ & _ & _ & Hlost).
  - reflexivity.
  - repeat split; vm_compute; congruence.
  - split; [reflexivity|]. split; [reflexivity|].
    split; [left; split; reflexivity|].
    split; reflexivity.
  - reflexivity.
  - vm_compute. discriminate.
  - split; vm_compute; discriminate.
  - miss_real.
  - exists s'. split; [exact Hrun|]. split; [exact Hin|].
    apply Hlost. reflexivity.
Defined.

(** * Taking the served block off the free list *)

Lemma without_block_in rb l a : a ∈ without_block rb l -> a ∈ l.
Proof. intros H. apply list_elem_of_filter in H. apply H. Qed.

Lemma without_block_fresh rb l : rb ∉ l -> without_block rb l = l.
Proof.
  induction l as [|x l IH]; intros Hnot; [reflexivity|].
  apply not_elem_of_cons in Hnot. destruct Hnot as [Hne Hnot].
  unfold without_block in *. rewrite filter_cons_True by congruence.
  rewrite IH by assumption. reflexivity.
Qed.

Lemma without_block_cons_ne rb x l :
  x <> rb -> without_block rb (x :: l) = x :: without_block rb l.
Proof. intros H. unfold without_block. apply filter_cons_True. exact H. Qed.

Lemma without_block_cons_eq rb l :
  without_block rb (rb :: l) = without_block rb l.
Proof.
  unfold without_block. apply filter_cons_False. intros H. apply H. reflexivity.
Qed.

Lemma relinked_refl b : relinked b b.
Proof. destruct b; reflexivity. Qed.

Lemma relinked_trans b1 b2 b3 : relinked b1 b2 -> relinked b2 b3 -> relinked b1 b3.
Proof.
  destruct b1, b2, b3. unfold relinked, set_next_free. cbn.
  intros H1 H2. congruence.
Qed.

Lemma relinked_set n b : relinked b (set_next_free n b).
Proof. destruct b; reflexivity. Qed.

Lemma only_links_change_refl s : only_links_change s s.
Proof. intros a b Hb. exists b. split; [exact Hb | apply relinked_refl]. Qed.

Lemma only_links_change_trans s1 s2 s3 :
  only_links_change s1 s2 -> only_links_change s2 s3 -> only_links_change s1 s3.
Proof.
  intros H1 H2 a b Hb.
  destruct (H1 a b Hb) as (b2 & Hb2 & R1).
  destruct (H2 a b2 Hb2) as (b3 & Hb3 & R2).
  exists b3. split; [exact Hb3 | eapply relinked_trans; eassumption].
Qed.

Lemma only_links_change_store s a c n :
  blocks s !! a = Some c ->
  only_links_change s (with_blocks (<[a := set_next_free n c]> (blocks s)) s).
Proof.
  intros Hc x b Hb. cbn [blocks with_blocks].
  destruct (decide (x = a)) as [-> | Hne].
  - rewrite lookup_insert_eq. rewrite Hc in Hb. injection Hb as <-.
    eexists. split; [reflexivity | apply relinked_set].
  - rewrite lookup_insert_ne by congruence.
    exists b. split; [exact Hb | apply relinked_refl].
Qed.

(** The loop of [reuse] that unlinks [rb], started at a block other than
    [rb]: the chain is the old one without [rb], and only headers of blocks
    that stay on the chain are written. *)
Lemma unlink_loop_removes fuel rb :
  rb <> NULL ->
  forall l s curr,
    free_chain (blocks s) curr l -> (length l <= fuel)%nat -> curr <> rb ->
    exists s',
      unlink_loop fuel rb curr s = Done tt s' /\
      free_chain (blocks s') curr (without_block rb l) /\
      (forall a, a ∉ without_block rb l -> blocks s' !! a = blocks s !! a) /\
      same_regions s s' /\
      g_free_list s' = g_free_list s /\
      g_allocations s' = g_allocations s /\
      only_links_change s s'.
Proof.
  intros Hrb. induction fuel as [|k IH]; intros l s curr Hch Hlen Hne.
  - destruct l; [|cbn in Hlen; lia]. inversion Hch; subst.
    exists s. split; [reflexivity|]. split; [constructor|].
    split; [reflexivity|]. split; [apply same_regions_refl|].
    split; [reflexivity|]. split; [reflexivity | apply only_links_change_refl].
  - inversion Hch as [|a c l' Ha Hc Hrest]; subst.
    { exists s. split; [reflexivity|]. split; [constructor|].
      split; [reflexivity|]. split; [apply same_regions_refl|].
      split; [reflexivity|]. split; [reflexivity | apply only_links_change_refl]. }
    pose proof (free_chain_head_fresh _ _ _ Hch) as Hfresh.
    cbn [unlink_loop]. apply Z.eqb_neq in Ha as Ha'. rewrite Ha'.
    rewrite (bind_done _ _ _ _ _ (load_done s curr c Ha Hc)).
    rewrite (without_block_cons_ne rb curr l' Hne).
    destruct (decide (next_free c = rb)) as [Heq | Hneq].
    + (* the next block on the chain is the one to unlink *)
      subst rb.
      inversion Hrest as [|x r l'' Hx Hr Hrest']; subst; [congruence|].
      pose proof (free_chain_head_fresh _ _ _ Hrest) as Hfresh'.
      rewrite Z.eqb_refl.
      rewrite ?bind_assoc.
      rewrite (bind_done _ _ _ _ _ (load_done s _ r Hrb Hr)).
      rewrite (bind_done _ _ _ _ _ (store_done s curr c _ Ha Hc)).
      set (s1 := with_blocks (<[curr := set_next_free (next_free r) c]> (blocks s)) s).
      assert (Hc1 : blocks s1 !! curr = Some (set_next_free (next_free r) c))
        by apply lookup_insert_eq.
      rewrite (bind_done _ _ _ _ _ (load_done s1 curr _ Ha Hc1)).
      cbn [next_free set_next_free].
      assert (Hcl : curr ∉ l'').
      { intros Hin. apply Hfresh. apply elem_of_cons. auto. }
      assert (Hch1 : free_chain (blocks s1) (next_free r) l'').
      { eapply free_chain_transport; [exact Hrest'|].
        intros x b Hx' Hb. exists b. split; [|reflexivity].
        unfold s1. cbn [blocks with_blocks].
        rewrite lookup_insert_ne; [exact Hb|].
        intros <-. exact (Hcl Hx'). }
      assert (Hnr : next_free r <> next_free c).
      { intros Heq'. rewrite Heq' in Hrest'.
        inversion Hrest' as [Hnull | y ry ly Hy Hry Hresty]; subst.
        - congruence.
        - apply Hfresh'. apply list_elem_of_here. }
      destruct (IH l'' s1 (next_free r) Hch1 ltac:(cbn in Hlen; lia) Hnr)
        as (s' & Hrun & Hch' & Hother & Hsame & Hfl & Hal & Hlinks).
      exists s'. split; [exact Hrun|].
      rewrite without_block_cons_eq.
      split.
      { apply (free_chain_cons _ curr (set_next_free (next_free r) c));
          [exact Ha | | exact Hch'].
        rewrite Hother; [exact Hc1|].
        intros Hin. apply Hcl. eapply without_block_in, Hin. }
      split.
      { intros a Hnot. apply not_elem_of_cons in Hnot. destruct Hnot as [Hac Hnot].
        rewrite (Hother a Hnot). unfold s1. cbn [blocks with_blocks].
        apply lookup_insert_ne. congruence. }
      split; [eapply same_regions_trans; [|exact Hsame]; repeat split|].
      split; [exact Hfl|]. split; [exact Hal|].
      eapply only_links_change_trans; [|exact Hlinks].
      apply only_links_change_store. exact Hc.
    + (* any other block is passed over *)
      apply Z.eqb_neq in Hneq as Hneq'. rewrite Hneq'.
      rewrite ?bind_assoc.
      rewrite (bind_done _ _ _ _ _ (ret_done tt s)). cbv beta.
      rewrite (bind_done _ _ _ _ _ (load_done s curr c Ha Hc)).
      destruct (IH l' s (next_free c) Hrest ltac:(cbn in Hlen; lia) Hneq)
        as (s' & Hrun & Hch' & Hother & Hsame & Hfl & Hal & Hlinks).
      exists s'. split; [exact Hrun|].
      assert (Hcl : curr ∉ without_block rb l').
      { intros Hin. apply Hfresh. eapply without_block_in, Hin. }
      split.
      { apply (free_chain_cons _ curr c); [exact Ha | | exact Hch'].
        rewrite (Hother curr Hcl). exact Hc. }
      split.
      { intros a Hnot. apply not_elem_of_cons in Hnot. destruct Hnot as [Hac Hnot].
        apply Hother, Hnot. }
      split; [exact Hsame|]. split; [exact Hfl|]. split; assumption.
Qed.

(** The first step of the rest of [reuse]: the served block is taken off
    the chain, wherever it is. *)
Lemma reuse_unlink_runs fuel rb s l :
  free_chain (blocks s) (g_free_list s) l -> (length l <= fuel)%nat -> rb ∈ l ->
  exists s2,
    (if g_free_list s =? rb then
       c <- load (g_free_list s);;
       modify (with_g_free_list (next_free c))
     else unlink_loop fuel rb (g_free_list s)) s = Done tt s2 /\
    free_chain (blocks s2) (g_free_list s2) (without_block rb l) /\
    (forall a, a ∉ without_block rb l -> blocks s2 !! a = blocks s !! a) /\
    same_regions s s2 /\
    g_allocations s2 = g_allocations s /\
    only_links_change s s2.
Proof.
  intros Hch Hlen Hin.
  pose proof (free_chain_nonnull _ _ _ _ Hch Hin) as Hrb.
  destruct (decide (g_free_list s = rb)) as [Heq | Hne].
  - rewrite Heq, Z.eqb_refl. rewrite Heq in Hch.
    inversion Hch as [|a r l' Ha Hr Hrest]; subst; [inversion Hin|].
    pose proof (free_chain_head_fresh _ _ _ Hch) as Hfresh.
    rewrite (bind_done _ _ _ _ _ (load_done s _ r Hrb Hr)).
    eexists. split; [reflexivity|].
    rewrite without_block_cons_eq, (without_block_fresh _ _ Hfresh).
    cbn [blocks g_free_list with_g_free_list g_allocations].
    split; [exact Hrest|]. split; [reflexivity|].
    split; [repeat split|]. split; [reflexivity|].
    intros x b Hb. exists b. split; [exact Hb | apply relinked_refl].
  - apply Z.eqb_neq in Hne as Hne'. rewrite Hne'.
    destruct (unlink_loop_removes fuel rb Hrb l s (g_free_list s) Hch Hlen Hne)
      as (s2 & Hrun & Hch2 & Hother & Hsame & Hfl & Hal & Hlinks).
    exists s2. split; [exact Hrun|]. rewrite Hfl.
    split; [exact Hch2|]. split; [exact Hother|].
    split; [exact Hsame|]. split; assumption.
Qed.

Lemma without_block_not_in rb l : rb ∉ without_block rb l.
Proof.
  intros H. apply list_elem_of_filter in H. destruct H as [H _]. apply H. reflexivity.
Qed.

(** The rest of [reuse]: what it leaves on the free list. *)
Lemma reuse_rest_chain fuel rb nb s l :
  free_chain (blocks s) (g_free_list s) l -> (length l <= fuel)%nat -> rb ∈ l ->
  (nb = NULL \/
   (nb <> NULL /\ (nb ∉ l) /\
    exists t, blocks s !! nb = Some t /\ next_free t = NULL)) ->
  exists s',
    reuse_rest fuel rb nb s = Done rb s' /\
    free_chain (blocks s') (g_free_list s')
      ((if nb =? NULL then [] else [nb]) ++ without_block rb l) /\
    (exists r, blocks s !! rb = Some r /\ blocks s' !! rb = Some (set_free false r)) /\
    (forall a b, a <> rb -> blocks s !! a = Some b ->
                 exists b', blocks s' !! a = Some b' /\ relinked b b') /\
    same_regions s s' /\ g_allocations s' = g_allocations s.
Proof.
  intros Hch Hlen Hin Hnb.
  pose proof (free_chain_nonnull _ _ _ _ Hch Hin) as Hrb.
  destruct (free_chain_tracked _ _ _ _ Hch Hin) as (r & Hr).
  destruct (reuse_unlink_runs fuel rb s l Hch Hlen Hin)
    as (s2 & Hrun & Hch2 & Hother & Hsame & Hal & Hlinks).
  set (W := without_block rb l) in *.
  assert (HrbW : rb ∉ W) by apply without_block_not_in.
  assert (Hr2 : blocks s2 !! rb = Some r) by (rewrite (Hother rb HrbW); exact Hr).
  unfold reuse_rest.
  rewrite (bind_done _ _ _ _ _ (gets_done _ s)). cbv beta.
  rewrite (bind_done _ _ _ _ _ Hrun).
  rewrite (bind_done _ _ _ _ _ (gets_done _ s2)). cbv beta.
  destruct Hsame as (G1 & G2 & G3 & G4 & G5).
  destruct Hnb as [-> | (Hnb0 & Hnbl & t & Ht & Htn)].
  - (* nothing was split off *)
    change (NULL =? NULL) with true. cbv iota. cbn [app].
    assert (Hpush :
      (if g_free_list s2 =? NULL then modify (with_g_free_list NULL)
       else ret tt) s2 = Done tt s2).
    { destruct (g_free_list s2 =? NULL) eqn:E; [|reflexivity].
      apply Z.eqb_eq in E. unfold modify, with_g_free_list. rewrite <- E.
      destruct s2; reflexivity. }
    rewrite (bind_done _ _ _ _ _ Hpush).
    rewrite (bind_done _ _ _ _ _ (store_done s2 rb r _ Hrb Hr2)).
    eexists. split; [reflexivity|].
    cbn [blocks g_free_list with_blocks g_allocations].
    split.
    { eapply free_chain_transport; [exact Hch2|].
      intros a b Ha Hb. exists b. split; [|reflexivity].
      rewrite lookup_insert_ne; [exact Hb|]. intros <-. exact (HrbW Ha). }
    split; [exists r; split; [exact Hr | apply lookup_insert_eq]|].
    split.
    { intros a b Hne Hb. destruct (Hlinks a b Hb) as (b' & Hb' & Hrel).
      exists b'. split; [|exact Hrel].
      rewrite lookup_insert_ne by congruence. exact Hb'. }
    split; [repeat split; assumption | exact Hal].
  - (* the tail of the split is pushed *)
    apply Z.eqb_neq in Hnb0 as Hnb0'. rewrite Hnb0'. cbn [app].
    assert (HnbW : nb ∉ W).
    { intros H. apply Hnbl. eapply without_block_in, H. }
    assert (Ht2 : blocks s2 !! nb = Some t) by (rewrite (Hother nb HnbW); exact Ht).
    assert (Hne : rb <> nb) by (intros ->; exact (Hnbl Hin)).
    destruct (g_free_list s2 =? NULL) eqn:E.
    + apply Z.eqb_eq in E. rewrite E in Hch2.
      inversion Hch2 as [HW|]; subst; [|congruence].
      rewrite (bind_done _ _ _ _ _ (modify_done _ s2)).
      rewrite (bind_done _ _ _ _ _
                 (store_done (with_g_free_list nb s2) rb r _ Hrb Hr2)).
      eexists. split; [reflexivity|].
      cbn [blocks g_free_list with_blocks with_g_free_list g_allocations].
      split.
      { apply (free_chain_cons _ nb t); [exact Hnb0 | |].
        - rewrite lookup_insert_ne by exact Hne. exact Ht2.
        - rewrite Htn. constructor. }
      split; [exists r; split; [exact Hr | apply lookup_insert_eq]|].
      split.
      { intros a b Hna Hb. destruct (Hlinks a b Hb) as (b' & Hb' & Hrel).
        exists b'. split; [|exact Hrel].
        rewrite lookup_insert_ne by congruence. exact Hb'. }
      split; [repeat split; assumption | exact Hal].
    + rewrite ?bind_assoc.
      rewrite (bind_done _ _ _ _ _ (store_done s2 nb t _ Hnb0 Ht2)).
      rewrite (bind_done _ _ _ _ _ (modify_done _ _)).
      erewrite (bind_done (store rb _));
        [|apply (store_done _ rb r); [exact Hrb|];
          cbn [blocks with_blocks with_g_free_list];
          rewrite lookup_insert_ne by congruence; exact Hr2].
      eexists. split; [reflexivity|].
      cbn [blocks g_free_list with_blocks with_g_free_list g_allocations].
      split.
      { apply (free_chain_cons _ nb (set_next_free (g_free_list s2) t));
          [exact Hnb0 | |].
        - rewrite lookup_insert_ne by exact Hne. apply lookup_insert_eq.
        - cbn [next_free set_next_free].
          eapply free_chain_transport; [exact Hch2|].
          intros a b Ha Hb. exists b. split; [|reflexivity].
          rewrite !lookup_insert_ne; [exact Hb | |].
          + intros <-. exact (HnbW Ha).
          + intros <-. exact (HrbW Ha). }
      split; [exists r; split; [exact Hr | apply lookup_insert_eq]|].
      split.
      { intros a b Hna Hb. destruct (Hlinks a b Hb) as (b' & Hb' & Hrel).
        rewrite lookup_insert_ne by congruence.
        destruct (decide (a = nb)) as [-> | Hanb].
        - rewrite lookup_insert_eq. rewrite Ht2 in Hb'. injection Hb' as <-.
          eexists. split; [reflexivity|].
          eapply relinked_trans; [exact Hrel | apply relinked_set].
        - rewrite lookup_insert_ne by congruence.
          exists b'. split; assumption. }
      split; [repeat split; assumption | exact Hal].
Qed.

Lemma clear_no_header (L : layout) (s : state) (a : Z) :
  0 < HB L -> clear L s a (HB L) -> blocks s !! a = None.
Proof.
  intros HHB Hclear. destruct (blocks s !! a) as [x|] eqn:Hx; [|reflexivity].
  exfalso. unfold clear in Hclear. apply andb_true_iff in Hclear as [Hblk _].
  rewrite forallb_forall in Hblk.
  assert (Hin : In a (block_headers s)).
  { apply list_elem_of_In. unfold block_headers.
    apply list_elem_of_fmap. exists (a, x). split; [reflexivity|].
    apply elem_of_map_to_list. exact Hx. }
  specialize (Hblk a Hin). unfold apart in Hblk.
  apply orb_true_iff in Hblk as [H | H]; apply Z.leb_le in H; lia.
Qed.

(** X17: what [reuse] leaves behind when the free list, under a recognised
    strategy, has a block of at least [sz] bytes, in a state whose headers
    are memory of the process and where every block of the list that the
    request would split has, [sz] bytes after its start, mapped memory that
    holds no header.  The block chosen is taken off the free list and marked
    used, and the other blocks stay on it in their order.  When the block
    can be split, it keeps its first [sz] bytes, and the rest becomes a free
    block right after them that is made the head of the free list, linked
    to the blocks that stay whenever there are any; otherwise the block is
    handed out whole.  The region list and the trace are untouched. *)
Theorem reuse_takes_the_block_off_the_list
    (L : layout) (ENV : env) fuel sz s l :
  0 < HB L -> recognised (algo ENV) ->
  free_chain (blocks s) (g_free_list s) l -> (length l <= fuel)%nat ->
  (forall a, a ∈ l -> 0 < a) ->
  (exists a, a ∈ l /\ qualifies s sz a) ->
  0 <= sz ->
  (forall a, a ∈ l -> block_size s a < SIZE_MOD) ->
  laid_out L s ->
  (forall a, a ∈ l -> tail_room L s sz a) ->
  exists rb b s',
    reuse L ENV fuel sz s = Done rb s' /\
    rb ∈ l /\ blocks s !! rb = Some b /\ sz <= size b /\
    same_regions s s' /\
    (~ splittable L b (size b - sz) ->
     free_chain (blocks s') (g_free_list s') (without_block rb l) /\
     blocks s' !! rb = Some (set_free false b) /\
     g_allocations s' = g_allocations s) /\
    (splittable L b (size b - sz) ->
     g_free_list s' = rb + sz /\
     (without_block rb l <> [] ->
      free_chain (blocks s') (g_free_list s') ((rb + sz) :: without_block rb l)) /\
     blocks s' !! rb
     = Some (set_free false (set_size sz (set_next_block (rb + sz) b))) /\
     (size <$> blocks s' !! (rb + sz)) = Some (size b - sz) /\
     (free <$> blocks s' !! (rb + sz)) = Some true).
Proof.
  intros HHB Halgo Hch Hlen Hpos Hex Hsz Hbound _ Hroom.
  destruct (search_finds ENV fuel sz s l Halgo Hch Hlen Hex)
    as (rb & Hsearch & Hin & b & Hb & Hle).
  pose proof (free_chain_nonnull _ _ _ _ Hch Hin) as Hrb.
  pose proof (Hpos rb Hin) as Hrbpos.
  pose proof (Hbound rb Hin) as Hbsz.
  rewrite (block_size_lookup s rb b Hb) in Hbsz.
  assert (Ht : wrap (size b - sz) = size b - sz) by (apply wrap_small; lia).
  assert (Hstart :
    forall nb s1,
      split_block L rb (size b - sz) s = Done nb s1 ->
      reuse L ENV fuel sz s = reuse_rest fuel rb nb s1).
  { intros nb s1 Hsplit. unfold reuse.
    rewrite (bind_done _ _ _ _ _ Hsearch).
    apply Z.eqb_neq in Hrb as Hrb'. rewrite Hrb'.
    rewrite (bind_done _ _ _ _ _ (load_done s rb b Hrb Hb)).
    rewrite Ht. rewrite (bind_done _ _ _ _ _ Hsplit). reflexivity. }
  exists rb, b.
  destruct (decide (splittable L b (size b - sz))) as [Hyes | Hno].
  - (* the block is split *)
    pose proof Hyes as [Hs1 Hs2].
    assert (Hlt : sz < size b) by (unfold ALIGN_SZ in *; lia).
    assert (Hnone : blocks s !! (rb + sz) = None).
    { destruct (Hroom rb Hin b Hb Hle Hyes) as [_ Hclear].
      exact (clear_no_header L s (rb + sz) HHB Hclear). }
    pose proof (split_block_succeeds_state L s rb (size b - sz) b
                  HHB Hrbpos Hb ltac:(lia) ltac:(lia) Hyes) as Hsplit.
    replace (rb + (size b - (size b - sz))) with (rb + sz) in Hsplit by lia.
    set (s1 := split_state s rb (size b - sz) b) in *.
    assert (Hb1 : blocks s1 !! rb
                  = Some (set_size sz (set_next_block (rb + sz) b))).
    { unfold s1, split_state. cbn [blocks with_blocks].
      replace (rb + (size b - (size b - sz))) with (rb + sz) by lia.
      replace (size b - (size b - sz)) with sz by lia.
      apply lookup_insert_eq. }
    assert (Hne : rb + sz <> rb) by (unfold ALIGN_SZ in *; lia).
    assert (Hn1 : blocks s1 !! (rb + sz)
                  = Some (tail_header s rb (rb + sz) (size b - sz) b)).
    { unfold s1, split_state. cbn [blocks with_blocks].
      replace (rb + (size b - (size b - sz))) with (rb + sz) by lia.
      rewrite lookup_insert_ne by congruence. apply lookup_insert_eq. }
    assert (Hnl : rb + sz ∉ l).
    { intros H. destruct (free_chain_tracked _ _ _ _ Hch H) as (x & Hx). congruence. }
    assert (Hch1 : free_chain (blocks s1) (g_free_list s1) l).
    { eapply free_chain_transport; [exact Hch|].
      intros a x Ha Hx. unfold s1, split_state. cbn [blocks with_blocks].
      replace (rb + (size b - (size b - sz))) with (rb + sz) by lia.
      destruct (decide (a = rb)) as [-> | Har].
      - rewrite lookup_insert_eq. rewrite Hb in Hx. injection Hx as <-.
        eexists. split; reflexivity.
      - rewrite lookup_insert_ne by congruence.
        rewrite lookup_insert_ne by (intros <-; exact (Hnl Ha)).
        exists x. split; [exact Hx | reflexivity]. }
    destruct (reuse_rest_chain fuel rb (rb + sz) s1 l Hch1 Hlen Hin)
      as (s' & Hrun & Hch' & (r & Hr & Hr') & Hlinks & Hsame & _).
    { right. split; [unfold NULL; lia|]. split; [exact Hnl|].
      eexists. split; [exact Hn1|].
      unfold tail_header. cbn [next_free]. rewrite Hnone. reflexivity. }
    exists s'. split; [rewrite (Hstart _ _ Hsplit); exact Hrun|].
    split; [exact Hin|]. split; [exact Hb|]. split; [exact Hle|].
    split.
    { eapply same_regions_trans; [|exact Hsame]. repeat split. }
    split; [intros Hno; contradiction|].
    intros _.
    assert (Hnz : (rb + sz =? NULL) = false)
      by (apply Z.eqb_neq; unfold NULL; lia).
    rewrite Hnz in Hch'. cbn [app] in Hch'.
    split; [inversion Hch'; reflexivity|].
    split; [intros _; exact Hch'|].
    split; [rewrite Hb1 in Hr; injection Hr as <-; exact Hr'|].
    destruct (Hlinks _ _ Hne Hn1) as (t' & Ht' & Hrel).
    rewrite Ht', Hrel. split; reflexivity.
  - (* the block is handed out whole *)
    pose proof (split_block_fails_state L s rb (size b - sz) b
                  HHB Hrb Hb ltac:(lia) ltac:(lia) ltac:(left; lia) Hno) as Hsplit.
    destruct (reuse_rest_chain fuel rb NULL s l Hch Hlen Hin ltac:(left; reflexivity))
      as (s' & Hrun & Hch' & (r & Hr & Hr') & _ & Hsame & Hal).
    exists s'. split; [rewrite (Hstart _ _ Hsplit); exact Hrun|].
    split; [exact Hin|]. split; [exact Hb|]. split; [exact Hle|].
    split; [exact Hsame|].
    split; [|intros Hyes; contradiction].
    intros _. split; [exact Hch'|].
    split; [rewrite Hb in Hr; injection Hr as <-; exact Hr' | exact Hal].
Qed.

Lemma reuse_takes_the_block_off_the_list_witness :
  exists s',
    reuse sample_layout default_env 16 200 freed_once = Done 65732 s' /\
    free_chain (blocks s') (g_free_list s') [65932; 65616].
Proof.
  destruct (reuse_takes_the_block_off_the_list sample_layout default_env
              16 200 freed_once [65616; 65732])
    as (rb & b & s' & Hrun & Hin & Hb & Hle & _ & _ & Hyes).
  - reflexivity.
  - left. reflexivity.
  - exact freed_once_chain.
  - cbn. lia.
  - intros a Ha.
    apply elem_of_cons in Ha. destruct Ha as [-> | Ha]; [reflexivity|].
    apply list_elem_of_singleton in Ha. subst a. reflexivity.
  - exists 65732. split; [apply elem_of_cons; right; apply list_elem_of_here|].
    eexists. split; [vm_compute; reflexivity | vm_compute; discriminate].
  - lia.
  - intros a Ha.
    apply elem_of_cons in Ha. destruct Ha as [-> | Ha]; [vm_compute; reflexivity|].
    apply list_elem_of_singleton in Ha. subst a. vm_compute. reflexivity.
  - laid_out_holds.
  - intros a Ha b Hb Hle _.
    apply elem_of_cons in Ha. destruct Ha as [-> | Ha].
    { vm_compute in Hb. injection Hb as <-.
      vm_compute in Hle. exfalso. apply Hle. reflexivity. }
    apply list_elem_of_singleton in Ha. subst a.
    split; vm_compute; reflexivity.
  - apply elem_of_cons in Hin. destruct Hin as [-> | Hin].
    { vm_compute in Hb. injection Hb as <-. cbn in Hle. lia. }
    apply list_elem_of_singleton in Hin. subst rb.
    vm_compute in Hb. injection Hb as <-.
    destruct Hyes as (_ & Hch & _).
    { split; vm_compute; discriminate. }
    exists s'. split; [exact Hrun|]. apply Hch. vm_compute. discriminate.
Defined.

(** * Releasing a block twice *)

Lemma first_fit_loop_spins fuel sz s a c :
  a <> NULL -> blocks s !! a = Some c -> next_free c = a -> size c < sz ->
  first_fit_loop fuel sz a s = Stuck OutOfFuel.
Proof.
  intros Ha Hc Hself Hsmall. apply Z.eqb_neq in Ha as Ha'.
  induction fuel as [|k IH]; cbn [first_fit_loop]; rewrite Ha'; [reflexivity|].
  rewrite (bind_done _ _ _ _ _ (load_done s a c Ha Hc)).
  apply Z.leb_gt in Hsmall. rewrite Hsmall, Hself. exact IH.
Qed.

Lemma best_fit_loop_spins fuel sz s a c :
  a <> NULL -> blocks s !! a = Some c -> next_free c = a ->
  forall acc, acc = NULL \/ acc = a ->
    best_fit_loop fuel sz a acc s = Stuck OutOfFuel.
Proof.
  intros Ha Hc Hself. apply Z.eqb_neq in Ha as Ha'.
  induction fuel as [|k IH]; intros acc Hacc; cbn [best_fit_loop]; rewrite Ha';
    [reflexivity|].
  rewrite (bind_done _ _ _ _ _ (load_done s a c Ha Hc)).
  rewrite Hself.
  destruct (sz <=? size c).
  - destruct Hacc as [-> | ->].
    + change (NULL =? NULL) with true. cbv iota.
      rewrite (bind_done _ _ _ _ _ (ret_done a s)). apply IH. right. reflexivity.
    + rewrite Ha'. rewrite bind_assoc.
      rewrite (bind_done _ _ _ _ _ (load_done s a c Ha Hc)).
      rewrite (bind_done _ _ _ _ _ (ret_done _ s)). apply IH.
      destruct (size c <=? size c); right; reflexivity.
  - rewrite (bind_done _ _ _ _ _ (ret_done acc s)). apply IH. exact Hacc.
Qed.

Lemma worst_fit_loop_spins fuel sz s a c :
  a <> NULL -> blocks s !! a = Some c -> next_free c = a ->
  forall acc, acc = NULL \/ acc = a ->
    worst_fit_loop fuel sz a acc s = Stuck OutOfFuel.
Proof.
  intros Ha Hc Hself. apply Z.eqb_neq in Ha as Ha'.
  induction fuel as [|k IH]; intros acc Hacc; cbn [worst_fit_loop]; rewrite Ha';
    [reflexivity|].
  rewrite (bind_done _ _ _ _ _ (load_done s a c Ha Hc)).
  rewrite Hself.
  destruct (sz <=? size c).
  - destruct Hacc as [-> | ->].
    + change (NULL =? NULL) with true. cbv iota.
      rewrite (bind_done _ _ _ _ _ (ret_done a s)). apply IH. right. reflexivity.
    + rewrite Ha'. rewrite bind_assoc.
      rewrite (bind_done _ _ _ _ _ (load_done s a c Ha Hc)).
      rewrite (bind_done _ _ _ _ _ (ret_done _ s)). apply IH.
      destruct (size c <=? size c); right; reflexivity.
  - rewrite (bind_done _ _ _ _ _ (ret_done acc s)). apply IH. exact Hacc.
Qed.

(** X18: where [munmap] refuses the address [free_impl] passes, so that the
    block stays memory of the process, a second [free_impl] of the same
    pointer links the block to itself, because the block is then already
    the head of the free list.  After that the scans of best-fit and
    worst-fit, which always walk the whole list, never end, and the scan of
    first-fit never ends once the request is larger than the block:
    [malloc_impl] runs out of every amount of fuel. *)
Theorem double_free_hangs_the_search
    (L : layout) (OS : os) (ENV : env) (sz ptr : Z) (s : state) (b : mem_block) :
  ptr <> NULL -> ptr - HB L <> NULL -> blocks s !! (ptr - HB L) = Some b ->
  recognised (algo ENV) ->
  (algo ENV = "first_fit" -> size b < align (wrap (sz + RB L)) ALIGN_SZ) ->
  laid_out L s ->
  refuses_unmap OS (ptr - HB L - 1) ->
  exists s1 s2,
    free_impl L OS ptr s = Done tt s1 /\
    free_impl L OS ptr s1 = Done tt s2 /\
    g_free_list s2 = ptr - HB L /\
    (next_free <$> blocks s2 !! (ptr - HB L)) = Some (ptr - HB L) /\
    forall fuel nm, malloc_impl L OS ENV fuel sz nm s2 = Stuck OutOfFuel.
Proof.
  intros Hp Hblk Hb Halgo Hsmall _ _.
  destruct (free_impl_post L OS s ptr b Hp Hblk Hb)
    as (s1 & Hrun1 & Hfl1 & Hb1 & _).
  destruct (free_impl_post L OS s1 ptr _ Hp Hblk Hb1)
    as (s2 & Hrun2 & Hfl2 & Hb2 & _).
  apply Z.eqb_neq in Hblk as Hblk'.
  rewrite Hfl1, Hblk' in Hb2.
  exists s1, s2. split; [exact Hrun1|]. split; [exact Hrun2|].
  split; [exact Hfl2|]. split; [rewrite Hb2; reflexivity|].
  intros fuel nm. unfold malloc_impl. cbn zeta. unfold reuse.
  assert (Hsearch :
    (if String.eqb (algo ENV) "first_fit"
     then first_fit fuel (align (wrap (sz + RB L)) ALIGN_SZ)
     else if String.eqb (algo ENV) "best_fit"
          then best_fit fuel (align (wrap (sz + RB L)) ALIGN_SZ)
          else if String.eqb (algo ENV) "worst_fit"
               then worst_fit fuel (align (wrap (sz + RB L)) ALIGN_SZ)
               else ret NULL) s2 = Stuck OutOfFuel).
  { destruct Halgo as [Ha | [Ha | Ha]]; rewrite Ha in *;
      cbn [String.eqb Ascii.eqb Bool.eqb].
    - unfold first_fit. rewrite (bind_done _ _ _ _ _ (gets_done _ s2)).
      cbv beta. rewrite Hfl2.
      eapply first_fit_loop_spins; [exact Hblk | exact Hb2 | reflexivity |].
      cbn [size set_next_free set_free]. apply Hsmall. reflexivity.
    - unfold best_fit. rewrite (bind_done _ _ _ _ _ (gets_done _ s2)).
      cbv beta. rewrite Hfl2.
      eapply best_fit_loop_spins; [exact Hblk | exact Hb2 | reflexivity |].
      left. reflexivity.
    - unfold worst_fit. rewrite (bind_done _ _ _ _ _ (gets_done _ s2)).
      cbv beta. rewrite Hfl2.
      eapply worst_fit_loop_spins; [exact Hblk | exact Hb2 | reflexivity |].
      left. reflexivity. }
  unfold bind at 1. unfold bind at 1. rewrite Hsearch. reflexivity.
Qed.

Lemma double_free_hangs_the_search_witness :
  exists s1 s2,
    free_impl sample_layout granting_os 65696 (exec (allocate 100 "x") initial_state)
    = Done tt s1 /\
    free_impl sample_layout granting_os 65696 s1 = Done tt s2 /\
    forall fuel nm,
      malloc_impl sample_layout granting_os default_env fuel 200 nm s2
      = Stuck OutOfFuel.
Proof.
  destruct (blocks (exec (allocate 100 "x") initial_state) !! (65696 - 80))
    as [b|] eqn:Hb; [|vm_compute in Hb; discriminate].
  destruct (double_free_hangs_the_search sample_layout granting_os default_env
              200 65696 (exec (allocate 100 "x") initial_state) b)
    as (s1 & s2 & H1 & H2 & _ & _ & H3).
  - discriminate.
  - discriminate.
  - exact Hb.
  - left. reflexivity.
  - intros _. vm_compute in Hb. injection Hb as <-. vm_compute. reflexivity.
  - laid_out_holds.
  - intros tr n. reflexivity.
  - exists s1, s2. split; [exact H1|]. split; [exact H2 | exact H3].
Defined.

(** * A refused mapping *)

(** X19: when nothing on the free list can serve the request and the
    operating system refuses the mapping, [malloc_impl] returns NULL and
    leaves the state as it was but for the record of the refused call: no
    region is counted or listed, no block is numbered, and the free list is
    as before. *)
Theorem malloc_impl_refused_returns_null
    (L : layout) (OS : os) (ENV : env) fuel sz nm s l :
  free_chain (blocks s) (g_free_list s) l -> (length l <= fuel)%nat ->
  (recognised (algo ENV) ->
   forall a, a ∈ l -> ~ qualifies s (align (wrap (sz + RB L)) ALIGN_SZ) a) ->
  os_mmap OS (trace s) (map_sz L sz) = None ->
  malloc_impl L OS ENV fuel sz nm s
  = Done NULL (with_trace (trace s ++ [EMmap (map_sz L sz) None]) s).
Proof.
  intros Hch Hlen Hnone Hrefused.
  unfold malloc_impl. cbn zeta.
  rewrite (bind_done _ _ _ _ _ (reuse_misses L ENV fuel _ s l Hch Hlen Hnone)).
  cbn [Z.eqb NULL negb].
  unfold malloc_miss. cbn zeta.
  change (align (wrap (align (wrap (sz + RB L)) ALIGN_SZ + RB L)) (PG L))
    with (map_sz L sz).
  unfold mmap, bind at 1. rewrite Hrefused. reflexivity.
Qed.

Lemma malloc_impl_refused_returns_null_witness :
  malloc_impl sample_layout refusing_os default_env 16 4000 (Some "x") freed_once
  = Done NULL
      (with_trace (trace freed_once ++ [EMmap (map_sz sample_layout 4000) None])
         freed_once).
Proof.
  apply (malloc_impl_refused_returns_null sample_layout refusing_os default_env
           16 4000 (Some "x") freed_once [65616; 65732]).
  - exact freed_once_chain.
  - cbn. lia.
  - intros _ a Ha (b & Hb & Hq).
    apply elem_of_cons in Ha. destruct Ha as [-> | Ha].
    { vm_compute in Hb. injection Hb as <-. vm_compute in Hq. apply Hq. reflexivity. }
    apply list_elem_of_singleton in Ha. subst a.
    vm_compute in Hb. injection Hb as <-. vm_compute in Hq. apply Hq. reflexivity.
  - reflexivity.
Defined.

(** * The back link after a split *)



(** * The region list *)

Lemma region_chain_functional m p l1 l2 :
  region_chain m p l1 -> region_chain m p l2 -> l1 = l2.
Proof.
  intros H1. revert l2. induction H1 as [|a b l Ha Hb Hc IH]; intros l2 H2.
  - inversion H2; subst; [reflexivity | congruence].
  - inversion H2; subst; [congruence|].
    f_equal. apply IH. congruence.
Qed.

Lemma region_chain_suffix m p l x :
  region_chain m p l -> x ∈ l ->
  exists l1 l2, l = l1 ++ l2 /\ region_chain m x l2 /\ l2 <> [].
Proof.
  induction 1 as [|a b l Ha Hb Hc IH]; intros Hx.
  - inversion Hx.
  - apply elem_of_cons in Hx. destruct Hx as [-> | Hx].
    + exists [], (a :: l). split; [reflexivity|]. split; [|discriminate].
      econstructor; eassumption.
    + destruct (IH Hx) as (l1 & l2 & -> & Hch & Hne).
      exists (a :: l1), l2. split; [reflexivity|]. split; assumption.
Qed.

Lemma region_chain_head_fresh m a l : region_chain m a (a :: l) -> a ∉ l.
Proof.
  intros Hch Hin.
  inversion Hch as [|a' b' l' Ha Hb Hrest]; subst.
  destruct (region_chain_suffix _ _ _ _ Hrest Hin) as (l1 & l2 & -> & Hch2 & _).
  pose proof (region_chain_functional _ _ _ _ Hch Hch2) as Heq.
  apply (f_equal length) in Heq. cbn in Heq. rewrite length_app in Heq. lia.
Qed.

Lemma region_chain_nonnull m p l x : region_chain m p l -> x ∈ l -> x <> NULL.
Proof.
  induction 1 as [|a b l Ha Hb Hc IH]; intros Hx.
  - inversion Hx.
  - apply elem_of_cons in Hx. destruct Hx as [-> | Hx]; auto.
Qed.

Lemma region_chain_tracked m p l x :
  region_chain m p l -> x ∈ l -> exists b, m !! x = Some b.
Proof.
  induction 1 as [|a b l Ha Hb Hc IH]; intros Hx.
  - inversion Hx.
  - apply elem_of_cons in Hx. destruct Hx as [-> | Hx]; eauto.
Qed.


(** Appending a region behind the last one of a chain. *)
Lemma region_chain_append m head l region R :
  region_chain m head l -> l <> [] ->
  region <> NULL -> m !! region = None -> next_region R = NULL ->
  forall rt, m !! List.last l NULL = Some rt ->
    region_chain
      (<[List.last l NULL := set_next_region region rt]> (<[region := R]> m))
      head (l ++ [region]).
Proof.
  induction 1 as [|a r l Ha Hr Hrest IH]; intros Hne Hreg Hfresh HR rt Hrt;
    [congruence|].
  assert (Har : a <> region) by (intros ->; congruence).
  destruct l as [|y l'].
  - (* [a] is the last region *)
    cbn [List.last] in *. cbn [app].
    rewrite Hr in Hrt. injection Hrt as <-.
    apply (region_chain_cons _ a (set_next_region region r)); [exact Ha | |].
    + apply lookup_insert_eq.
    + cbn [next_region set_next_region].
      apply (region_chain_cons _ region R); [exact Hreg | |].
      * rewrite lookup_insert_ne by exact Har. apply lookup_insert_eq.
      * rewrite HR. constructor.
  - pose proof (region_chain_head_fresh _ _ _
                  (region_chain_cons _ a r (y :: l') Ha Hr Hrest)) as Hfr.
    assert (E1 : List.last (a :: y :: l') NULL = List.last l' y)
      by (rewrite !last_cons_default; reflexivity).
    assert (E2 : List.last (y :: l') NULL = List.last l' y)
      by (rewrite last_cons_default; reflexivity).
    rewrite E1 in *.
    assert (Hlast : List.last l' y ∈ y :: l') by apply last_in.
    assert (Hal : a <> List.last l' y) by (intros ->; exact (Hfr Hlast)).
    change ((a :: y :: l') ++ [region]) with (a :: ((y :: l') ++ [region])).
    apply (region_chain_cons _ a r); [exact Ha | |].
    + rewrite !lookup_insert_ne by congruence. exact Hr.
    + specialize (IH ltac:(discriminate) Hreg Hfresh HR rt).
      rewrite E2 in IH. apply IH. exact Hrt.
Qed.

(** X21: a request served from a new region (empty free list, debug fill
    off, nothing wrapping around, new memory from [mmap] with the headers
    written into it inside the mapping and not meeting, the tag fitting the
    [name] array) puts that region at the end of the region list: the
    regions listed before stay in their order with their numbers, the new
    region follows the old tail and ends the list, it carries the running
    region count as its number, and the count goes up by one. *)
Theorem malloc_impl_appends_the_region
    (L : tagged_layout) (OS : os) (ENV : env) fuel sz nm s region l :
  no_wrap L sz -> grants L OS s sz region ->
  g_free_list s = NULL -> scribble_check ENV <> 1 ->
  region_list s l -> regions s !! region = None ->
  miss_is_real L s sz region nm ->
  exists s',
    malloc_impl L OS ENV fuel sz nm s = Done (region + HB L + HB L) s' /\
    region_list s' (l ++ [region]) /\
    regions s' !! region = Some (first_region s) /\
    g_regions s' = wrap (g_regions s + 1) /\
    (forall a r, a ∈ l -> regions s !! a = Some r ->
                 (region_number <$> regions s' !! a) = Some (region_number r)).
Proof.
  intros Hnw Hgr Hempty Hscr [Hch Htail] Hfresh _.
  destruct (malloc_impl_fresh L OS ENV fuel sz nm s region Hnw Hgr Hempty Hscr)
    as (s' & Hrun & _ & Hcount & Htail' & _).
  exists s'. split; [exact Hrun|].
  destruct Hnw as (HHB & HRB & HPG & Hsz & Hfit).
  destruct Hgr as (Hgrant & Hpos & Hok & Hf1 & _).
  assert (Hreg0 : region <> NULL) by (unfold NULL; lia).
  unfold malloc_impl in Hrun. cbn zeta in Hrun.
  rewrite (bind_done _ _ _ _ _ (reuse_on_empty L ENV fuel _ s Hempty)) in Hrun.
  cbn [Z.eqb NULL negb] in Hrun.
  destruct (malloc_miss_prefix L OS ENV sz nm (wrap (sz + RB L))
              (align (wrap (sz + RB L)) ALIGN_SZ) s region HHB Hpos Hok Hgrant Hf1)
    as (s5 & Hpre & _ & _ & _ & _ & _ & _ & Hhead & Hhead' & Hregs & Hregs').
  rewrite Hpre in Hrun.
  destruct (malloc_miss_rest_keeps_regions L ENV _ _ _ _ Hscr _ _ _ Hrun)
    as (_ & K2 & _ & K4 & _).
  rewrite Hfresh in Hregs, Hregs'. cbn [default] in Hregs, Hregs'.
  change (set_region_number (g_regions s) zero_region) with (first_region s)
    in Hregs, Hregs'.
  destruct l as [|x l'].
  - (* the first region of all *)
    assert (Hnull : g_region_head s = NULL) by (inversion Hch; congruence).
    cbn [List.last] in Htail.
    rewrite K4, (Hregs Hnull Htail). unfold region_list.
    rewrite K2, (Hhead Hnull Htail), Htail', K4, (Hregs Hnull Htail).
    split.
    { split; [|reflexivity]. cbn [app].
      apply (region_chain_cons _ region (first_region s));
        [exact Hreg0 | apply lookup_insert_eq | constructor]. }
    split; [apply lookup_insert_eq|]. split; [exact Hcount|].
    intros a r Ha. inversion Ha.
  - (* behind the old tail *)
    assert (Hx : g_region_head s <> NULL).
    { inversion Hch; congruence. }
    assert (Hin : g_region_tail s ∈ x :: l').
    { rewrite Htail, last_cons_default. apply last_in. }
    pose proof (region_chain_nonnull _ _ _ _ Hch Hin) as Ht0.
    destruct (region_chain_tracked _ _ _ _ Hch Hin) as (rt & Hrt).
    assert (Htr : g_region_tail s <> region) by (intros E; rewrite E in Hrt; congruence).
    specialize (Hregs' rt Ht0 Htr Hrt).
    unfold region_list. rewrite K2, (Hhead' Hx), Htail', K4, Hregs'.
    split.
    { split.
      - rewrite Htail. apply region_chain_append;
          [exact Hch | discriminate | exact Hreg0 | exact Hfresh | reflexivity |].
        rewrite <- Htail. exact Hrt.
      - rewrite last_last. reflexivity. }
    split.
    { rewrite lookup_insert_ne by exact Htr. apply lookup_insert_eq. }
    split; [exact Hcount|].
    intros a r Ha Hr.
    assert (Har : a <> region) by (intros ->; congruence).
    destruct (decide (a = g_region_tail s)) as [-> | Hat].
    + rewrite lookup_insert_eq. rewrite Hrt in Hr. injection Hr as <-. reflexivity.
    + rewrite !lookup_insert_ne by congruence. rewrite Hr. reflexivity.
Qed.

Lemma malloc_impl_appends_the_region_witness :
  exists s',
    malloc_impl sample_layout granting_os default_env 16 100 (Some "x")
      (exec (allocate 50 "y") initial_state)
    = Done (1114112 + 80 + 80) s' /\
    region_list s' [65536; 1114112] /\
    (region_number <$> regions s' !! 1114112) = Some 1.
Proof.
  destruct (malloc_impl_appends_the_region sample_tagged granting_os default_env
              16 100 (Some "x") (exec (allocate 50 "y") initial_state)
              1114112 [65536])
    as (s' & Hrun & Hlist & Hnew & _).
  - repeat split; vm_compute; congruence.
  - split; [vm_compute; reflexivity|]. split; [reflexivity|].
    split; [right; split; [vm_compute; discriminate | vm_compute; eauto]|].
    split; vm_compute; reflexivity.
  - vm_compute. reflexivity.
  - vm_compute. discriminate.
  - split; [|vm_compute; reflexivity].
    replace (g_region_head (exec (allocate 50 "y") initial_state)) with 65536
      by (vm_compute; reflexivity).
    eapply (region_chain_cons _ 65536); [discriminate | vm_compute; reflexivity |].
    apply region_chain_nil.
  - vm_compute. reflexivity.
  - miss_real.
  - exists s'. split; [exact Hrun|]. split; [exact Hlist|].
    rewrite Hnew. vm_compute. reflexivity.
Defined.

(** * A block handed out twice *)

(** X22: neither [reuse] nor [free_impl] on an empty free list resets the
    free-list link of a block.  So when a used block [a] still carries a
    link to a block [z] that is in use, and the free list is empty, then
    after [free_impl] of [a], whose [munmap] is refused, the free list
    reads [a], [z]; and a request that [a] is too short for and [z] is long
    enough for is served, under every recognised strategy, with the payload
    of [z], which was never released.  This is for a state whose headers
    are memory of the process, a tag that fits the [name] array, and room
    for the header of the tail where the request splits [z]. *)
Theorem stale_link_serves_a_used_block
    (L : tagged_layout) (OS : os) (ENV : env) fuel sz nm ptr z s
    (ha hz : mem_block) :
  0 < HB L -> recognised (algo ENV) ->
  ptr <> NULL -> 0 < ptr - HB L -> 0 < z -> z <> ptr - HB L ->
  g_free_list s = NULL ->
  blocks s !! (ptr - HB L) = Some ha -> next_free ha = z ->
  blocks s !! z = Some hz -> free hz = false -> next_free hz = NULL ->
  size ha < align (wrap (sz + RB L)) ALIGN_SZ <= size hz ->
  (2 <= fuel)%nat ->
  laid_out L s ->
  tail_room L s (align (wrap (sz + RB L)) ALIGN_SZ) z ->
  tag_fits L (Some nm) ->
  refuses_unmap OS (ptr - HB L - 1) ->
  exists s1 s2,
    free_impl L OS ptr s = Done tt s1 /\
    free_chain (blocks s1) (g_free_list s1) [ptr - HB L; z] /\
    (free <$> blocks s1 !! z) = Some false /\
    malloc_impl L OS ENV fuel sz (Some nm) s1 = Done (z + HB L) s2.
Proof.
  intros HHB Halgo Hp Ha Hz Hza Hempty Hha Hstale Hhz Hused Hend [Hshort Hlong] Hfuel
         _ _ _ _.
  assert (Ha0 : ptr - HB L <> NULL) by (unfold NULL; lia).
  assert (Hz0 : z <> NULL) by (unfold NULL; lia).
  destruct (free_impl_post L OS s ptr ha Hp Ha0 Hha)
    as (s1 & Hrun1 & Hfl1 & Hb1 & Hother & _).
  rewrite Hempty in Hb1. change (NULL =? NULL) with true in Hb1. cbv iota in Hb1.
  rewrite Hstale in Hb1.
  assert (Hz1 : blocks s1 !! z = Some hz) by (rewrite (Hother z Hza); exact Hhz).
  assert (Hch : free_chain (blocks s1) (g_free_list s1) [ptr - HB L; z]).
  { rewrite Hfl1.
    apply (free_chain_cons _ _ _ _ Ha0 Hb1). cbn [next_free set_next_free].
    apply (free_chain_cons _ _ _ _ Hz0 Hz1). rewrite Hend. constructor. }
  destruct (malloc_impl_hit L OS ENV fuel sz nm s1 [ptr - HB L; z] HHB Halgo Hch)
    as (p & s2 & Hrun2 & _ & Hin & (hp & Hhp & Hq) & _).
  { cbn. exact Hfuel. }
  { intros x Hx. apply elem_of_cons in Hx. destruct Hx as [-> | Hx]; [exact Ha|].
    apply list_elem_of_singleton in Hx. subst x. exact Hz. }
  { exists z. split; [apply elem_of_cons; right; apply list_elem_of_here|].
    exists hz. split; [exact Hz1 | exact Hlong]. }
  exists s1, s2. split; [exact Hrun1|]. split; [exact Hch|].
  split; [rewrite Hz1; cbn; rewrite Hused; reflexivity|].
  apply elem_of_cons in Hin. destruct Hin as [Hin | Hin].
  - rewrite Hin, Hb1 in Hhp. injection Hhp as <-.
    cbn [size set_next_free set_free] in Hq. lia.
  - apply list_elem_of_singleton in Hin.
    replace (z + HB L) with p by lia. exact Hrun2.
Qed.

Lemma stale_link_serves_a_used_block_witness :
  exists s1 s2,
    free_impl sample_layout granting_os 65696 two_used_blocks = Done tt s1 /\
    (free <$> blocks s1 !! 65732) = Some false /\
    malloc_impl sample_layout granting_os default_env 16 3000 (Some "w") s1
    = Done (65732 + 80) s2.
Proof.
  destruct (blocks two_used_blocks !! (65696 - 80)) as [ha|] eqn:Hha;
    [|vm_compute in Hha; discriminate].
  destruct (blocks two_used_blocks !! 65732) as [hz|] eqn:Hhz;
    [|vm_compute in Hhz; discriminate].
  assert (Ea : next_free ha = 65732 /\ size ha = 116).
  { vm_compute in Hha. injection Hha as <-. split; reflexivity. }
  assert (Ez : free hz = false /\ next_free hz = NULL /\ size hz = 3964).
  { vm_compute in Hhz. injection Hhz as <-. repeat split. }
  destruct Ea as [Ea1 Ea2]. destruct Ez as (Ez1 & Ez2 & Ez3).
  destruct (stale_link_serves_a_used_block sample_tagged granting_os default_env
              16 3000 "w" 65696 65732 two_used_blocks ha hz)
    as (s1 & s2 & H1 & _ & H2 & H3).
  - reflexivity.
  - left. reflexivity.
  - discriminate.
  - reflexivity.
  - reflexivity.
  - discriminate.
  - vm_compute. reflexivity.
  - exact Hha.
  - exact Ea1.
  - exact Hhz.
  - exact Ez1.
  - exact Ez2.
  - rewrite Ea2, Ez3. split; vm_compute; [reflexivity | discriminate].
  - lia.
  - laid_out_holds.
  - intros b _ _ _. split; vm_compute; reflexivity.
  - vm_compute. reflexivity.
  - intros tr n. reflexivity.
  - exists s1, s2. split; [exact H1|]. split; [exact H2 | exact H3].
Defined.

(** * A request near the top of [size_t] *)

(** X23: [malloc_impl] adds the size of a region header to the request in
    [size_t] without a check.  For a request so large that the sum wraps
    around, the free list is searched for the few bytes that are left of the
    sum, and under a recognised strategy any block of that length serves the
    request: the caller is given a block that is shorter than what was asked
    for, and nothing is mapped.  This is for a state whose headers are
    memory of the process, a tag that fits the [name] array, and a free
    list on which every block that the search would split has room for the
    header of its tail. *)
Theorem huge_request_is_served_short
    (L : tagged_layout) (OS : os) (ENV : env) fuel sz nm s l :
  0 < HB L -> 0 <= RB L < SIZE_MOD -> recognised (algo ENV) ->
  free_chain (blocks s) (g_free_list s) l -> (length l <= fuel)%nat ->
  (forall a, a ∈ l -> 0 < a) ->
  0 <= sz < SIZE_MOD -> SIZE_MOD <= sz + RB L ->
  (exists a, a ∈ l /\ qualifies s (align (sz + RB L - SIZE_MOD) ALIGN_SZ) a) ->
  (forall a, a ∈ l -> block_size s a < sz) ->
  scribble_check ENV <> 1 ->
  hit_is_real L s l (align (sz + RB L - SIZE_MOD) ALIGN_SZ) (Some nm) ->
  exists p s',
    malloc_impl L OS ENV fuel sz (Some nm) s = Done p s' /\
    p <> NULL /\ p - HB L ∈ l /\
    block_size s (p - HB L) < sz /\
    trace s' = trace s.
Proof.
  intros HHB HRB Halgo Hch Hlen Hpos Hsz Hover Hex Hshort Hscr _.
  assert (Hw : wrap (sz + RB L) = sz + RB L - SIZE_MOD).
  { unfold wrap.
    replace (sz + RB L) with (sz + RB L - SIZE_MOD + 1 * SIZE_MOD) at 1 by lia.
    rewrite Z.mod_add by (unfold SIZE_MOD; lia).
    apply Z.mod_small. lia. }
  rewrite <- Hw in Hex.
  destruct (malloc_impl_hit L OS ENV fuel sz nm s l HHB Halgo Hch Hlen Hpos Hex)
    as (p & s' & Hrun & Hp & Hin & _ & _ & _ & _ & _ & _ & Htr).
  exists p, s'. split; [exact Hrun|]. split; [exact Hp|]. split; [exact Hin|].
  split; [apply Hshort, Hin|].
  rewrite Htr. unfold fill_events.
  apply Z.eqb_neq in Hscr. rewrite Hscr. apply app_nil_r.
Qed.

Lemma huge_request_is_served_short_witness :
  exists p s',
    malloc_impl sample_layout granting_os default_env 16 (SIZE_MOD - 16) (Some "h")
      freed_once = Done p s' /\
    p - HB sample_layout ∈ [65616; 65732] /\
    block_size freed_once (p - HB sample_layout) < SIZE_MOD - 16.
Proof.
  destruct (huge_request_is_served_short sample_tagged granting_os default_env
              16 (SIZE_MOD - 16) "h" freed_once [65616; 65732])
    as (p & s' & Hrun & _ & Hin & Hlt & _).
  - reflexivity.
  - split; vm_compute; [discriminate | reflexivity].
  - left. reflexivity.
  - exact freed_once_chain.
  - cbn. lia.
  - intros a Ha.
    apply elem_of_cons in Ha. destruct Ha as [-> | Ha]; [reflexivity|].
    apply list_elem_of_singleton in Ha. subst a. reflexivity.
  - split; vm_compute; [discriminate | reflexivity].
  - vm_compute. discriminate.
  - exists 65616. split; [apply list_elem_of_here|].
    eexists. split; [vm_compute; reflexivity | vm_compute; discriminate].
  - intros a Ha.
    apply elem_of_cons in Ha. destruct Ha as [-> | Ha]; [vm_compute; reflexivity|].
    apply list_elem_of_singleton in Ha. subst a. vm_compute. reflexivity.
  - vm_compute. discriminate.
  - split; [laid_out_holds|]. split; [|vm_compute; reflexivity].
    intros a Ha b Hb _ [Hhead _].
    apply elem_of_cons in Ha. destruct Ha as [-> | Ha].
    { vm_compute in Hb. injection Hb as <-.
      vm_compute in Hhead. exfalso. apply Hhead. reflexivity. }
    apply list_elem_of_singleton in Ha. subst a.
    vm_compute in Hb. injection Hb as <-.
    vm_compute in Hhead. exfalso. apply Hhead. reflexivity.
  - exists p, s'. split; [exact Hrun|]. split; [exact Hin | exact Hlt].
Defined.

(** * An unknown strategy name *)




